(** * gp2: bibliographic data collection, merging and cleaning

    A shallow embedding of the collection pipeline of the repository:
    - [01_api_collection.py]: the Google Books fetcher and driver (module [Api]);
    - [02_scraping.py]: the Project Gutenberg fetcher and driver (module [Scraper]);
    - [04_clean_data.py]: the year extraction of the clean step (module [Clean]).

    Python values are modelled by [value]; a dict is a [gmap string value],
    a set is a [gset value].  Effects (network requests, sleeps, log lines,
    writes of the output file) are recorded as a trace of [event]s.

    What the model leaves out:
    - the output file is modelled by the frame that [pd.read_csv] reads from
      it, and a write followed by a read gives the frame back: the re-typing
      of cells by the CSV reader (a column of digit strings read as numbers)
      is not modelled;
    - a missing cell is [VNone], which is falsy, where pandas has [NaN],
      which is truthy: the statements about the keys of a checkpoint are
      for files whose key cells are there;
    - characters are the code points below 256;
    - JSON and HTML documents are typed: a document is modelled by the
      lookups that the code makes in it;
    - [Response.json()] raises a [RequestException] on a body that is not
      JSON, as it does from requests 2.27 on. *)
From Stdlib Require Import ZArith QArith Ascii String List Lia Bool.
From stdpp Require Import base option list gmap sets strings pretty.

Local Open Scope string_scope.
Local Open Scope list_scope.
Local Open Scope Z_scope.

(** ** Python values *)

(** The scalar values that cells of a record hold.  [VNone] stands for
    Python's [None] and for the missing value of a table cell. *)
Inductive value :=
  | VNone
  | VStr (s : string)
  | VInt (z : Z).

#[global] Instance value_eq_dec : EqDecision value.
Proof. solve_decision. Defined.

Definition value_to_sum (v : value) : option (string + Z) :=
  match v with
  | VNone => None
  | VStr s => Some (inl s)
  | VInt z => Some (inr z)
  end.

Definition value_of_sum (x : option (string + Z)) : value :=
  match x with
  | None => VNone
  | Some (inl s) => VStr s
  | Some (inr z) => VInt z
  end.

#[global] Instance value_countable : Countable value.
Proof.
  apply (inj_countable' value_to_sum value_of_sum).
  intros []; reflexivity.
Defined.

(** Truth value of [v] in a condition ([if v:]). *)
Definition truthy (v : value) : bool :=
  match v with
  | VNone => false
  | VStr s => negb (String.eqb s "")
  | VInt z => negb (Z.eqb z 0)
  end.

(** [d.get(k)]: the value under [k], [None] when the key is absent. *)
Definition get (d : gmap string value) (k : string) : value :=
  default VNone (d !! k).

(** ** Regular-expression primitives on text

    Characters are code points below 256.  [is_digit] is [\d] and
    [is_word] is [\w] of a [str] pattern on that range. *)

Definition code (c : ascii) : N := N_of_ascii c.

Definition in_range (lo hi : N) (c : ascii) : bool :=
  (N.leb lo (code c) && N.leb (code c) hi)%bool.

Definition is_digit (c : ascii) : bool := in_range 48 57 c.

Definition is_word (c : ascii) : bool :=
  (is_digit c || in_range 65 90 c || in_range 97 122 c || N.eqb (code c) 95
   || N.eqb (code c) 170 || N.eqb (code c) 178 || N.eqb (code c) 179
   || N.eqb (code c) 181 || N.eqb (code c) 185 || N.eqb (code c) 186
   || in_range 188 190 c || in_range 192 214 c || in_range 216 246 c
   || in_range 248 255 c)%bool.

(** [\b] between the character before a position and the one after it;
    [None] is the start or the end of the text. *)
Definition word_side (c : option ascii) : bool := from_option is_word false c.

Definition boundary (prev next : option ascii) : bool :=
  xorb (word_side prev) (word_side next).

Definition digit_value (c : ascii) : Z := Z.of_N (code c) - 48.

(** [int(text)] for a text of decimal digits. *)
Definition int_of_digits (l : list ascii) : Z :=
  fold_left (fun acc c => 10 * acc + digit_value c) l 0.

Module YearPattern.

(** The pattern [\b(19|20)\d{2}\b] tried at one position: [prev] is the
    character before the position, [l] the text from it. *)
Definition match_here (prev : option ascii) (l : list ascii) : option (list ascii) :=
  match l with
  | a :: b :: c :: d :: rest =>
      if (boundary prev (Some a)
          && ((Ascii.eqb a "1" && Ascii.eqb b "9") || (Ascii.eqb a "2" && Ascii.eqb b "0"))
          && is_digit c && is_digit d
          && boundary (Some d) (head rest))%bool
      then Some [a; b; c; d]
      else None
  | _ => None
  end.

(** [re.search]: the match at the leftmost position that has one. *)
Fixpoint search_from (prev : option ascii) (l : list ascii) : option (list ascii) :=
  match match_here prev l with
  | Some m => Some m
  | None =>
      match l with
      | [] => None
      | c :: l' => search_from (Some c) l'
      end
  end.

Definition search (s : string) : option (list ascii) :=
  search_from None (list_ascii_of_string s).

End YearPattern.

Module Clean.

(** [extract_year(date_str)] of [04_clean_data.py]. *)
Definition extract_year (date_str : value) : option Z :=
  match date_str with
  | VStr s =>
      match YearPattern.search s with
      | Some year_match => Some (int_of_digits year_match)
      | None => None
      end
  | _ => None
  end.

End Clean.


(** ** Tables

    A [DataFrame] has a set of column names and rows that give every column
    a value; the order of the columns is not modelled. *)

Record DataFrame := {
  columns : gset string;
  rows : list (gmap string value)
}.

(** A dict laid out on the columns [cols]: absent keys read as missing. *)
Definition on_columns (cols : gset string) (d : gmap string value) : gmap string value :=
  set_to_map (fun k => (k, get d k)) cols.

(** [pd.DataFrame(records)]: the columns are the union of the keys. *)
Definition DataFrame_of (records : list (gmap string value)) : DataFrame :=
  let cols := ⋃ (dom <$> records) in
  {| columns := cols; rows := on_columns cols <$> records |}.

(** [df.to_dict('records')]. *)
Definition to_dict_records (df : DataFrame) : list (gmap string value) :=
  on_columns (columns df) <$> rows df.

(** [set(df[k].dropna().unique())]. *)
Definition column_values (df : DataFrame) (k : string) : gset value :=
  list_to_set (filter (fun v => v <> VNone) ((fun d => get d k) <$> rows df)).

(** What is behind the output path when a run starts: no file, a file
    that cannot be read as a table, or the file that holds the frame [df]
    (the conversions of cell types by the CSV format are not modelled). *)
Inductive file_state :=
  | NoFile
  | Unreadable
  | Csv (df : DataFrame).

(** [Path(output_file).exists()]. *)
Definition path_exists (f : file_state) : bool :=
  match f with
  | NoFile => false
  | _ => true
  end.

(** The file left by a successful [df.to_csv(path, index=False)]: reading
    it gives the frame back. *)
Definition file_written (df : DataFrame) : file_state := Csv df.

(** ** Wire formats *)

(** One element of the [items] array of a volumes document. *)
Record book_item := {
  item_id : value;
  vi_title : value;
  vi_authors : list string;
  vi_publisher : value;
  vi_publishedDate : value;
  vi_description : value;
  vi_categories : list string;
  vi_language : value;
  vi_pageCount : value;
  vi_averageRating : value;
  vi_ratingsCount : value;
  vi_thumbnail : value
}.

(** A JSON body as the API client reads it: the [items] array when the key
    is there, and [error.message] when the document carries one. *)
Record json_doc := {
  items : option (list book_item);
  error_message : option string
}.

(** A [li.booklink] element of a catalog page: the stripped text of its
    [span.title] and [span.subtitle], and the [href] of its first [a]. *)
Record booklink := {
  title_span : option string;
  subtitle_span : option string;
  link_href : option string
}.

(** A parsed HTML document, through the lookups that the scraper makes. *)
Record soup := {
  booklinks : list booklink;
  bibrec_div : option string;
  bibrec_rows : option (list (option string * option string));
  subject_links : option (list string)
}.

Definition empty_soup : soup :=
  {| booklinks := []; bibrec_div := None; bibrec_rows := None; subject_links := None |}.

Inductive body :=
  | JsonBody (d : json_doc)
  | HtmlBody (s : soup)
  | OtherBody.

Record response := {
  status_code : Z;
  content : body
}.

Record request := {
  url : string;
  params : gmap string value
}.

(** ** Exceptions *)

(** What [requests.get] raises: subclasses of [RequestException] that carry
    no response. *)
Inductive transport_error :=
  | ConnectionError
  | Timeout.

(** [HTTPError] is raised by [raise_for_status] and carries the response;
    [JSONDecodeError] is the [requests.exceptions.JSONDecodeError] of
    [response.json()]; [OSError] is a failed write of the output file;
    [ParserError] is what [pd.read_csv] raises. *)
Inductive exn :=
  | HTTPError (r : response)
  | Transport (e : transport_error)
  | JSONDecodeError
  | OSError
  | ParserError.

(** [isinstance(e, requests.exceptions.RequestException)]. *)
Definition is_RequestException (e : exn) : bool :=
  match e with
  | OSError | ParserError => false
  | _ => true
  end.

(** [e.response]. *)
Definition exn_response (e : exn) : option response :=
  match e with
  | HTTPError r => Some r
  | _ => None
  end.

(** ** Effects *)

Inductive level := INFO | WARNING | ERROR.

Inductive event :=
  | EvRequest (req : request)
  | EvSleep (seconds : Q)
  | EvLog (lvl : level)
  | EvToCsv (df : DataFrame)
  | EvPage (query : string) (start_index : Z) (items_count : option nat)
  | EvSeeded (all_books : list (gmap string value)) (seen : gset value)
  | EvAdmitted (all_books : list (gmap string value)) (seen : gset value).

(** A computation in a world [W]: it returns or raises, moves the world
    and leaves a trace. *)
Definition M (W A : Type) : Type := W -> (exn + A) * W * list event.

Definition ret {W A} (a : A) : M W A := fun w => (inr a, w, []).

Definition raise {W A} (e : exn) : M W A := fun w => (inl e, w, []).

Definition bind {W A B} (m : M W A) (k : A -> M W B) : M W B :=
  fun w =>
    match m w with
    | (inr a, w1, t1) =>
        match k a w1 with
        | (r, w2, t2) => (r, w2, t1 ++ t2)
        end
    | (inl e, w1, t1) => (inl e, w1, t1)
    end.

Definition emit {W} (e : event) : M W unit := fun w => (inr tt, w, [e]).

(** [try: body / except <class> as e: handler e]. *)
Definition try_except {W A} (body : M W A) (catches : exn -> bool) (handler : exn -> M W A) : M W A :=
  fun w =>
    match body w with
    | (inl e, w1, t1) =>
        if catches e
        then match handler e w1 with
             | (r, w2, t2) => (r, w2, t1 ++ t2)
             end
        else (inl e, w1, t1)
    | (inr a, w1, t1) => (inr a, w1, t1)
    end.

Declare Scope py_scope.
Delimit Scope py_scope with py.
Notation "x <- m ;; k" := (bind m (fun x => k))
  (at level 100, m at next level, right associativity) : py_scope.
Notation "m ;; k" := (bind m (fun _ => k))
  (at level 100, right associativity) : py_scope.
Local Open Scope py_scope.

Definition log {W} (lvl : level) : M W unit := emit (EvLog lvl).
Definition sleep {W} (seconds : Q) : M W unit := emit (EvSleep seconds).

Definition any_exception (e : exn) : bool := true.

(** [response.raise_for_status()]. *)
Definition raise_for_status {W} (r : response) : M W unit :=
  if (400 <=? status_code r) && (status_code r <? 600) then raise (HTTPError r) else ret tt.

(** [response.json()]. *)
Definition response_json {W} (r : response) : M W json_doc :=
  match content r with
  | JsonBody d => ret d
  | _ => raise JSONDecodeError
  end.

(** [BeautifulSoup(response.content, 'html.parser')]. *)
Definition BeautifulSoup (r : response) : soup :=
  match content r with
  | HtmlBody s => s
  | _ => empty_soup
  end.

(** [pd.read_csv(output_file)]: a file without columns cannot be parsed. *)
Definition read_csv {W} (f : file_state) : M W DataFrame :=
  match f with
  | Csv df => if decide (columns df = ∅) then raise ParserError else ret df
  | _ => raise ParserError
  end.

(** The outside world of a run: [requests_get] answers a request with a
    response or a transport exception, [to_csv] tells whether a write of the
    output file goes through. *)
Class World (W : Type) := {
  requests_get : request -> W -> (transport_error + response) * W;
  to_csv : DataFrame -> W -> bool * W
}.

Definition http_get {W} `{World W} (req : request) : M W response :=
  fun w =>
    match requests_get req w with
    | (inr r, w1) => (inr r, w1, [EvRequest req])
    | (inl e, w1) => (inl (Transport e), w1, [EvRequest req])
    end.

(** [df.to_csv(output_file, index=False)]. *)
Definition df_to_csv {W} `{World W} (df : DataFrame) : M W unit :=
  fun w =>
    match to_csv df w with
    | (true, w1) => (inr tt, w1, [EvToCsv df])
    | (false, w1) => (inl OSError, w1, [EvToCsv df])
    end.

(** ** [01_api_collection.py] *)

Module Api.

(** [config.API_DELAY], in seconds. *)
Definition API_DELAY : Q := 1.

Definition volumes_url : string := "https://www.googleapis.com/books/v1/volumes".

(** The loop variables of [collect_books_from_api]. *)
Record state := {
  all_books : list (gmap string value);
  seen_ids : gset value;
  books_collected : Z
}.

(** [parse_book_data(book_item)]. *)
Definition parse_book_data (book_item : book_item) : gmap string value :=
  let authors := vi_authors book_item in
  let author := if authors is [] then VNone else VStr (String.concat ", " authors) in
  let categories := vi_categories book_item in
  let category := if categories is [] then VNone else VStr (String.concat ", " categories) in
  list_to_map [
    ("id", item_id book_item);
    ("title", vi_title book_item);
    ("author", author);
    ("publisher", vi_publisher book_item);
    ("published_date", vi_publishedDate book_item);
    ("description", vi_description book_item);
    ("categories", category);
    ("language", vi_language book_item);
    ("page_count", vi_pageCount book_item);
    ("average_rating", vi_averageRating book_item);
    ("ratings_count", vi_ratingsCount book_item);
    ("thumbnail", vi_thumbnail book_item);
    ("source", VStr "google_books_api")
  ].

Definition buffer_len (s : state) : Z := Z.of_nat (length (all_books s)).

Definition max_requests : Z := 500.

(** [book_data and book_data.get("id") and book_data["id"] not in seen_ids]. *)
Definition is_new (book_data : gmap string value) (s : state) : bool :=
  truthy (get book_data "id") && bool_decide (get book_data "id" ∉ seen_ids s).

(** The variables after [seen_ids.add], [all_books.append] and
    [books_collected += 1]. *)
Definition admitted (book_data : gmap string value) (s : state) : state :=
  {| all_books := all_books s ++ [book_data];
     seen_ids := {[get book_data "id"]} ∪ seen_ids s;
     books_collected := books_collected s + 1 |}.

(** The [items] of a fetch result when it is a document that has them. *)
Definition result_items (result : option json_doc) : option (list book_item) :=
  match result with
  | Some d => items d
  | None => None
  end.

Section WithWorld.

Context {W : Type} `{World W}.

Definition request_params (query api_key : string) (max_results start_index : Z)
  : gmap string value :=
  let params : gmap string value :=
    <["q" := VStr query]> (<["maxResults" := VInt max_results]>
      (<["startIndex" := VInt start_index]> ∅)) in
  if truthy (VStr api_key) then <["key" := VStr api_key]> params else params.

(** The [try] block: one request, read as JSON. *)
Definition fetch_json (params : gmap string value) : M W json_doc :=
  response <- http_get {| url := volumes_url; params := params |};;
  raise_for_status response;;
  response_json response.

(** The log of the server's error message at the end of the handler. *)
Definition log_error_details (e : exn) : M W unit :=
  match exn_response e with
  | Some r =>
      match content r with
      | JsonBody error_data =>
          if error_message error_data is Some _ then log ERROR else ret tt
      | _ => log ERROR
      end
  | None => ret tt
  end.

(** [get_books_by_query]; [fuel] bounds the depth of the recursion. *)
Fixpoint get_books_by_query_fuel (fuel : nat) (query api_key : string)
    (max_results start_index : Z) (retry_count max_retries : nat)
  : M W (option json_doc) :=
  match fuel with
  | O => ret None
  | S fuel' =>
      let params := request_params query api_key max_results start_index in
      try_except
        (d <- fetch_json params;; ret (Some d))
        is_RequestException
        (fun e =>
           returned <-
             match exn_response e with
             | Some r =>
                 if status_code r =? 429 then
                   if (retry_count <? max_retries)%nat then
                     let wait_time := 2 ^ Z.of_nat retry_count * 60 in
                     log WARNING;;
                     sleep (inject_Z wait_time);;
                     result <- get_books_by_query_fuel fuel' query api_key
                                 max_results start_index (S retry_count) max_retries;;
                     ret (Some result)
                   else
                     log ERROR;;
                     ret (Some None)
                 else if truthy (VStr api_key) && (status_code r =? 403) then
                   log WARNING;;
                   try_except
                     (d <- fetch_json (delete "key" params);; ret (Some (Some d)))
                     any_exception
                     (fun _ => ret None)
                 else ret None
             | None => ret None
             end;;
           match returned with
           | Some result => ret result
           | None =>
               log ERROR;;
               log_error_details e;;
               ret None
           end)
  end.

Definition get_books_by_query (query api_key : string) (max_results start_index : Z)
    (retry_count max_retries : nat) : M W (option json_doc) :=
  get_books_by_query_fuel (S (max_retries - retry_count)) query api_key
    max_results start_index retry_count max_retries.

(** The checkpoint load at the start of [collect_books_from_api]. *)
Definition load (output_file : option file_state)
  : M W (list (gmap string value) * gset value) :=
  match output_file with
  | Some f =>
      if path_exists f then
        log INFO;;
        try_except
          (existing_df <- read_csv f;;
           if decide ("id" ∈ columns existing_df) then
             let seen_ids := column_values existing_df "id" in
             let all_books := to_dict_records existing_df in
             log INFO;;
             ret (all_books, seen_ids)
           else ret ([], ∅))
          any_exception
          (fun _ => log WARNING;; ret ([], ∅))
      else ret ([], ∅)
  | None => ret ([], ∅)
  end.

(** The body of [for item in result["items"]]. *)
Definition add_item (item : book_item) (s : state) : M W state :=
  let book_data := parse_book_data item in
  if is_new book_data s then
    let s' := admitted book_data s in
    emit (EvAdmitted (all_books s') (seen_ids s'));;
    ret s'
  else ret s.

Fixpoint for_items (l : list book_item) (s : state) : M W state :=
  match l with
  | [] => ret s
  | item :: l' => s' <- add_item item s;; for_items l' s'
  end.

(** [try: pd.DataFrame(all_books).to_csv(...) / except Exception]. *)
Definition save (records : list (gmap string value)) : M W unit :=
  try_except
    (df_to_csv (DataFrame_of records);; log INFO)
    any_exception
    (fun _ => log ERROR).



(** The [while] loop of one query; [fuel] bounds its iterations. *)
Fixpoint pages (fuel : nat) (query api_key : string) (max_books_per_query : Z)
    (output_file : option file_state) (start_index request_count : Z) (s : state)
  : M W state :=
  match fuel with
  | O => ret s
  | S fuel' =>
      if (start_index <? max_books_per_query) && (request_count <? max_requests) then
        log INFO;;
        result <- get_books_by_query query api_key 40 start_index 0 3;;
        emit (EvPage query start_index (length <$> result_items result));;
        let request_count := request_count + 1 in
        match result_items result with
        | Some (item :: rest) =>
            let items_count := Z.of_nat (length (item :: rest)) in
            s' <- for_items (item :: rest) s;;
            let start_index := start_index + items_count in
            sleep API_DELAY;;
            (if bool_decide (is_Some output_file) && (0 <? buffer_len s')
                && (buffer_len s' mod 100 =? 0)
             then save (all_books s') else ret tt);;
            pages fuel' query api_key max_books_per_query output_file
              start_index request_count s'
        | _ =>
            log WARNING;;
            ret s
        end
      else ret s
  end.

(** The [for query in queries] loop. *)
Fixpoint for_queries (queries : list string) (api_key : string)
    (max_books_per_query : Z) (output_file : option file_state) (s : state)
  : M W state :=
  match queries with
  | [] => ret s
  | query :: queries' =>
      log INFO;;
      s1 <- pages (Z.to_nat max_requests) query api_key max_books_per_query output_file
              0 0 {| all_books := all_books s; seen_ids := seen_ids s;
                     books_collected := 0 |};;
      log INFO;;
      (if bool_decide (is_Some output_file) && (0 <? buffer_len s1)
       then save (all_books s1) else ret tt);;
      sleep 2;;
      for_queries queries' api_key max_books_per_query output_file s1
  end.

(** [collect_books_from_api] up to the end of its loops. *)
Definition collect (api_key : string) (queries : list string)
    (max_books_per_query : Z) (output_file : option file_state) : M W state :=
  loaded <- load output_file;;
  emit (EvSeeded loaded.1 loaded.2);;
  for_queries queries api_key max_books_per_query output_file
    {| all_books := loaded.1; seen_ids := loaded.2; books_collected := 0 |}.

Definition collect_books_from_api (api_key : string) (queries : list string)
    (max_books_per_query : Z) (output_file : option file_state) : M W DataFrame :=
  s <- collect api_key queries max_books_per_query output_file;;
  let df := DataFrame_of (all_books s) in
  log INFO;;
  ret df.

Definition main_queries : list string := [
  "fiction"; "science fiction"; "mystery"; "romance"; "thriller";
  "biography"; "history"; "philosophy"; "programming"; "art";
  "novel"; "drama"; "adventure"; "fantasy"; "horror";
  "poetry"; "essay"; "children"; "young adult"; "classic";
  "contemporary"; "literary"; "nonfiction"; "memoir"; "self-help";
  "business"; "economics"; "psychology"; "sociology"; "politics"
].

(** The script: [API_KEY] is [config.GOOGLE_BOOKS_API_KEY], [at_start] the
    state of [google_books_api.csv]. *)
Definition main (API_KEY : string) (at_start : file_state) : M W DataFrame :=
  (if truthy (VStr API_KEY) then ret tt else log WARNING;; log WARNING);;
  df_books <- collect_books_from_api API_KEY main_queries 300 (Some at_start);;
  df_to_csv df_books;;
  log INFO;;
  ret df_books.

End WithWorld.

End Api.

(** ** [02_scraping.py] *)

(** [s.replace(a, b)] for single characters. *)
Fixpoint replace_char (a b : ascii) (s : string) : string :=
  match s with
  | EmptyString => EmptyString
  | String c s' => String (if Ascii.eqb c a then b else c) (replace_char a b s')
  end.

(** [s.lower()] on code points below 256. *)
Definition lower_char (c : ascii) : ascii :=
  if (in_range 65 90 c || in_range 192 214 c || in_range 216 222 c)%bool
  then ascii_of_N (code c + 32)
  else c.

Fixpoint lower (s : string) : string :=
  match s with
  | EmptyString => EmptyString
  | String c s' => String (lower_char c) (lower s')
  end.

Module Scraper.

Record state := {
  all_books : list (gmap string value);
  seen_titles : gset value
}.

Definition base_url : string := "https://www.gutenberg.org".

Definition categories : list string := [
  "Adventure"; "American Literature"; "British Literature"; "French Literature";
  "German Literature"; "Russian Literature"; "Classics of Literature"; "Biographies";
  "Novels"; "Short Stories"; "Poetry"; "Plays/Films/Dramas"; "Romance";
  "Science-Fiction & Fantasy"; "Crime"; "Thrillers & Mystery"; "Mythology";
  "History - American"; "History - British"; "History - European"; "History - Ancient";
  "History - Medieval/Middle Ages"; "History - Modern"; "Art"; "Architecture"; "Music";
  "Religion/Spirituality"; "Philosophy & Ethics"; "Cooking & Drinking"; "Sports/Hobbies";
  "Travel Writing"; "Health & Medicine"; "Mathematics"; "Science - Physics";
  "Science - Chemistry/Biochemistry"; "Science - Biology"; "Business/Management";
  "Economics"; "Law & Criminology"; "Psychiatry/Psychology"; "Sociology"; "Politics"
].

Definition max_index : Z := 10000.
Definition items_per_page : Z := 25.
Definition max_empty_pages : Z := 5.

(** [parse_book_from_listing(book_element)]. *)
Definition parse_book_from_listing (book_element : booklink) : option (gmap string value) :=
  let book_data : gmap string value := {[ "source" := VStr "project_gutenberg" ]} in
  let book_data :=
    match title_span book_element with
    | Some text => <["title" := VStr text]> book_data
    | None => book_data
    end in
  let book_data :=
    match subtitle_span book_element with
    | Some text => <["author" := VStr text]> book_data
    | None => book_data
    end in
  let book_data :=
    match link_href book_element with
    | Some href =>
        if truthy (VStr href) then
          if String.prefix "http" href
          then <["detail_link" := VStr href]> book_data
          else <["detail_link" := VStr ("https://www.gutenberg.org" +:+ href)]> book_data
        else book_data
    | None => book_data
    end in
  if truthy (get book_data "title") then Some book_data else None.

Definition buffer_len (s : state) : Z := Z.of_nat (length (all_books s)).

(** [book_data and book_data.get('title')] and
    [book_data['title'] not in seen_titles]. *)
Definition is_new (book_data : gmap string value) (s : state) : bool :=
  truthy (get book_data "title") && bool_decide (get book_data "title" ∉ seen_titles s).

(** The variables after [seen_titles.add] and [all_books.append]. *)
Definition admitted (book_data : gmap string value) (s : state) : state :=
  {| all_books := all_books s ++ [book_data];
     seen_titles := {[get book_data "title"]} ∪ seen_titles s |}.

(** [{book.get('title', '') for book in all_books if book.get('title')}]. *)
Definition titles_of (all_books : list (gmap string value)) : gset value :=
  list_to_set (filter (fun v => truthy v = true) ((fun book => get book "title") <$> all_books)).

(** The URL of the catalog page of [query] at [start_index]. *)
Definition search_url (query : string) (start_index : Z) : string :=
  base_url +:+ "/ebooks/search/?query=" +:+ replace_char " " "+" query
    +:+ "&start_index=" +:+ pretty start_index.

(** The body of the loop over the rows of the [bibrec] table. *)
Definition add_row (details : gmap string value) (row : option string * option string)
  : gmap string value :=
  match row with
  | (Some th, Some td) =>
      let key := replace_char " " "_" (lower th) in
      let value := td in
      let details :=
        if String.eqb key "release_date" then
          match YearPattern.search value with
          | Some year_match => <["year" := VInt (int_of_digits year_match)]> details
          | None => details
          end
        else details in
      <[key := VStr value]> details
  | _ => details
  end.

(** The [try] block of [get_book_details] on a loaded page. *)
Definition page_details (soup : soup) : gmap string value :=
  let details : gmap string value := ∅ in
  let details :=
    match bibrec_div soup with
    | Some desc_text =>
        if (50 <? String.length desc_text)%nat
        then <["description" := VStr (String.substring 0 1000 desc_text)]> details
        else details
    | None => details
    end in
  let details :=
    match bibrec_rows soup with
    | Some rows => fold_left add_row rows details
    | None => details
    end in
  match subject_links soup with
  | Some (a :: subjects) =>
      <["subjects" := VStr (String.concat ", " (take 5 (a :: subjects)))]> details
  | _ => details
  end.

Section WithWorld.

Context {W : Type} `{World W}.

(** [get_page]; [fuel] bounds the depth of the recursion. *)
Fixpoint get_page_fuel (fuel : nat) (url : string) (retry_count max_retries : nat)
  : M W (option soup) :=
  match fuel with
  | O => ret None
  | S fuel' =>
      try_except
        (response <- http_get {| url := url; params := ∅ |};;
         raise_for_status response;;
         ret (Some (BeautifulSoup response)))
        is_RequestException
        (fun e =>
           if (retry_count <? max_retries)%nat then
             log WARNING;;
             sleep (inject_Z (2 ^ Z.of_nat retry_count));;
             get_page_fuel fuel' url (S retry_count) max_retries
           else
             log ERROR;;
             ret None)
  end.

Definition get_page (url : string) (retry_count max_retries : nat) : M W (option soup) :=
  get_page_fuel (S (max_retries - retry_count)) url retry_count max_retries.

(** [get_book_details(book_url)]. *)
Definition get_book_details (book_url : string) : M W (gmap string value) :=
  soup <- get_page book_url 0 3;;
  match soup with
  | None => ret ∅
  | Some soup => ret (page_details soup)
  end.

(** The checkpoint load at the start of [scrape_gutenberg]. *)
Definition load (output_file : option file_state) : M W (list (gmap string value)) :=
  match output_file with
  | Some f =>
      if path_exists f then
        log INFO;;
        try_except
          (existing_df <- read_csv f;;
           let all_books := to_dict_records existing_df in
           log INFO;;
           ret all_books)
          any_exception
          (fun _ => log WARNING;; ret [])
      else ret []
  | None => ret []
  end.



(** The [for book_elem in books] loop, with its count of new books. *)
Fixpoint for_books (books : list booklink) (min_books : Z) (s : state)
    (books_collected_this_page : Z) : M W (state * Z) :=
  match books with
  | [] => ret (s, books_collected_this_page)
  | book_elem :: books' =>
      if min_books <=? buffer_len s then ret (s, books_collected_this_page)
      else
        match parse_book_from_listing book_elem with
        | Some book_data =>
            if is_new book_data s then
              let s' := admitted book_data s in
              emit (EvAdmitted (all_books s') (seen_titles s'));;
              for_books books' min_books s' (books_collected_this_page + 1)
            else for_books books' min_books s books_collected_this_page
        | None => for_books books' min_books s books_collected_this_page
        end
  end.

(** [try: pd.DataFrame(all_books).to_csv(...) / except Exception]. *)
Definition save (records : list (gmap string value)) : M W unit :=
  try_except
    (df_to_csv (DataFrame_of records);; log INFO)
    any_exception
    (fun _ => log ERROR).

(** The [while] loop of one category; [fuel] bounds its iterations. *)
Fixpoint pages (fuel : nat) (query : string) (min_books : Z)
    (output_file : option file_state) (start_index consecutive_empty_pages : Z)
    (s : state) : M W state :=
  match fuel with
  | O => ret s
  | S fuel' =>
      if (start_index <? max_index) && (buffer_len s <? min_books) then
        log INFO;;
        soup <- get_page (search_url query start_index) 0 3;;
        emit (EvPage query start_index ((fun p => length (booklinks p)) <$> soup));;
        match soup with
        | None =>
            log WARNING;;
            ret s
        | Some soup =>
            match booklinks soup with
            | [] =>
                log INFO;;
                ret s
            | books =>
                r <- for_books books min_books s 0;;
                let s' := r.1 in
                let books_collected_this_page := r.2 in
                log INFO;;
                let consecutive_empty_pages :=
                  if books_collected_this_page =? 0
                  then consecutive_empty_pages + 1 else 0 in
                if (books_collected_this_page =? 0)
                   && (max_empty_pages <=? consecutive_empty_pages)
                then
                  log INFO;;
                  ret s'
                else
                  (if bool_decide (is_Some output_file) && (0 <? buffer_len s')
                      && (buffer_len s' mod 100 =? 0)
                   then save (all_books s') else ret tt);;
                  let start_index := start_index + items_per_page in
                  sleep (3 # 10);;
                  pages fuel' query min_books output_file start_index
                    consecutive_empty_pages s'
            end
        end
      else ret s
  end.

(** Enough iterations for the cursor to pass [max_index] from 1. *)
Definition pages_fuel : nat := 400.

(** The [for query in categories] loop. *)
Fixpoint for_categories (categories : list string) (min_books : Z)
    (output_file : option file_state) (s : state) : M W state :=
  match categories with
  | [] => ret s
  | query :: categories' =>
      if min_books <=? buffer_len s then ret s
      else
        log INFO;;
        s1 <- pages pages_fuel query min_books output_file 1 0 s;;
        log INFO;;
        sleep 1;;
        for_categories categories' min_books output_file s1
  end.

(** [scrape_gutenberg] up to the end of its loops. *)
Definition scrape (min_books : Z) (output_file : option file_state) : M W state :=
  all_books <- load output_file;;
  log INFO;;
  log INFO;;
  let seen_titles := titles_of all_books in
  emit (EvSeeded all_books seen_titles);;
  for_categories categories min_books output_file
    {| all_books := all_books; seen_titles := seen_titles |}.

Definition scrape_gutenberg (min_books : Z) (output_file : option file_state)
  : M W DataFrame :=
  s <- scrape min_books output_file;;
  log INFO;;
  ret (DataFrame_of (all_books s)).

(** The script; [at_start] is the state of [project_gutenberg.csv]. *)
Definition main (at_start : file_state) : M W DataFrame :=
  df_books <- scrape_gutenberg 10000 (Some at_start);;
  df_to_csv df_books;;
  log INFO;;
  ret df_books.

End WithWorld.

End Scraper.

(** ** Worlds used in the examples *)

(** A scripted network: the answers are served in order, and a request
    past the end of the script times out.  Every write goes through. *)
#[global] Instance scripted_world : World (list (transport_error + response)) := {
  requests_get _ w :=
    match w with
    | [] => (inl Timeout, [])
    | r :: w' => (r, w')
    end;
  to_csv _ w := (true, w)
}.

(** A remote source that does not change: the answer depends on the request
    only.  The world counts the requests made; every write goes through. *)
Definition steady_world (answer : request -> transport_error + response) : World nat := {|
  requests_get req n := (answer req, S n);
  to_csv _ n := (true, n)
|}.

(** * Vocabulary of the properties *)

(** ** Year extraction *)

(** Follows the words of the specification: a four-digit number that begins
    with 19 or 20 and stands alone, that is, with no letter, digit or
    underscore right before or right after it. *)
Definition standalone_year (l : list ascii) (y : Z) : Prop :=
  exists pre a b c d post,
    l = pre ++ [a; b; c; d] ++ post
    /\ ((a = "1"%char /\ b = "9"%char) \/ (a = "2"%char /\ b = "0"%char))
    /\ is_digit c = true /\ is_digit d = true
    /\ word_side (last pre) = false
    /\ word_side (head post) = false
    /\ y = int_of_digits [a; b; c; d].

Definition previous (prev : option ascii) (pre : list ascii) : option ascii :=
  match last pre with
  | Some c => Some c
  | None => prev
  end.

(** ** Answers of the remote source *)

(** What one request, read as JSON, comes to. *)
Definition read_json (a : transport_error + response) : exn + json_doc :=
  match a with
  | inl e => inl (Transport e)
  | inr r =>
      if (400 <=? status_code r) && (status_code r <? 600) then inl (HTTPError r)
      else match content r with
           | JsonBody d => inr d
           | _ => inl JSONDecodeError
           end
  end.

(** What one request, parsed as HTML, comes to. *)
Definition read_html (a : transport_error + response) : exn + soup :=
  match a with
  | inl e => inl (Transport e)
  | inr r =>
      if (400 <=? status_code r) && (status_code r <? 600) then inl (HTTPError r)
      else inr (BeautifulSoup r)
  end.

(** A log line. *)

Definition is_log (e : event) : Prop :=
  match e with
  | EvLog _ => True
  | _ => False
  end.

Definition api_request (query api_key : string) (max_results start_index : Z) : request :=
  {| url := Api.volumes_url;
     params := Api.request_params query api_key max_results start_index |}.

(** The trace of the retries number [first] to [first + k - 1]: the
    request that was refused, the warning, and the wait before the retry. *)
Definition retries (req : request) (first k : nat) : list event :=
  flat_map (fun N => [EvRequest req; EvLog WARNING;
                      EvSleep (inject_Z (60 * 2 ^ (Z.of_nat N - 1)))])
           (seq first k).

(** Events of a fetch: requests, log lines, and waits of whole seconds
    that are at least [least]. *)
Definition fetch_event (least : Z) (e : event) : Prop :=
  match e with
  | EvRequest _ | EvLog _ => True
  | EvSleep q => exists z, q = inject_Z z /\ least <= z
  | _ => False
  end.

Definition page_request (url : string) : request := {| url := url; params := ∅ |}.

(** The trace of [get_page] when its attempts number [first] to
    [first + k - 1] fail and are retried. *)
Definition page_retries (url : string) (first k : nat) : list event :=
  flat_map (fun i => [EvRequest (page_request url); EvLog WARNING;
                      EvSleep (inject_Z (2 ^ Z.of_nat i))])
           (seq first k).

(** The answers that the claim on failures lists for the API fetcher: a
    transport error, an HTTP error status other than 403 and 429, or a
    body that is not JSON. *)
Definition api_failure (a : transport_error + response) : Prop :=
  match a with
  | inl _ => True
  | inr r =>
      status_code r <> 429 /\ status_code r <> 403
      /\ forall d, read_json (inr r) <> inr d
  end.

(** The request of the remediation attempt: the same, without the key. *)
Definition keyless_request (query api_key : string) (max_results start_index : Z)
  : request :=
  {| url := Api.volumes_url;
     params := delete "key" (Api.request_params query api_key max_results start_index) |}.

Section Worlds.

Context {W : Type} `{World W}.

(** The world answers the next [k] requests [req] with status 429. *)
Inductive answers_429 (req : request) : nat -> W -> W -> Prop :=
  | answers_429_O w : answers_429 req 0 w w
  | answers_429_S k w r w1 w' :
      requests_get req w = (inr r, w1) ->
      status_code r = 429 ->
      answers_429 req k w1 w' ->
      answers_429 req (S k) w w'.

(** The world fails the next [k] requests [req]: a transport error or an
    HTTP error status each time. *)
Inductive fails (req : request) : nat -> W -> W -> Prop :=
  | fails_O w : fails req 0 w w
  | fails_S k w a w1 w' :
      requests_get req w = (a, w1) ->
      (forall page, read_html a <> inr page) ->
      fails req k w1 w' ->
      fails req (S k) w w'.

(** [m] returns from [w] without raising, and [Q] holds of what it
    returns, of the world it leaves and of its trace. *)
Definition wp {A} (m : M W A) (w : W) (Q : A -> W -> list event -> Prop) : Prop :=
  exists a w' t, m w = (inr a, w', t) /\ Q a w' t.

(** The remote source does not change: what a request is answered does
    not depend on the state of the world. *)
Definition steady_remote : Prop :=
  forall req (w1 w2 : W), (requests_get req w1).1 = (requests_get req w2).1.

End Worlds.

(** ** Traces *)

(** The page fetches of a run: the cursor of each and the number of items
    that came back ([None]: no page, or a document without [items]). *)
Definition page_fetches (t : list event) : list (Z * option nat) :=
  omap (fun e => match e with EvPage _ s n => Some (s, n) | _ => None end) t.

(** The frames handed to [to_csv], in order. *)
Definition frames_written (t : list event) : list DataFrame :=
  omap (fun e => match e with EvToCsv df => Some df | _ => None end) t.

(** The buffer and seen set that an event shows, if it shows them. *)
Definition snapshot (e : event) : option (list (gmap string value) * gset value) :=
  match e with
  | EvSeeded b s | EvAdmitted b s => Some (b, s)
  | _ => None
  end.

(** The trace of a guarded write that is made when [due]. *)
Definition save_trace (due : bool) (records : list (gmap string value))
    (t : list event) : Prop :=
  if due then exists lvl, t = [EvToCsv (DataFrame_of records); EvLog lvl] else t = [].

(** The test of the write inside the page loops. *)
Definition threshold_due (output_file : option file_state)
    (records : list (gmap string value)) : bool :=
  bool_decide (is_Some output_file) && (0 <? Z.of_nat (length records))
  && (Z.of_nat (length records) mod 100 =? 0).

(** The test of the write after a query of the API driver. *)
Definition query_due (output_file : option file_state)
    (records : list (gmap string value)) : bool :=
  bool_decide (is_Some output_file) && (0 <? Z.of_nat (length records)).

(** ** The buffer and the seen set *)

Definition keys_of (key : string) (records : list (gmap string value)) : list value :=
  (fun r => get r key) <$> records.

(** The buffer and the seen set are synchronized on [key]. *)
Definition synced (key : string) (buffer : list (gmap string value)) (seen : gset value)
  : Prop :=
  (forall r, r ∈ buffer -> get r key ∈ seen)
  /\ (forall k, k ∈ seen -> exists r, r ∈ buffer /\ get r key = k)
  /\ NoDup (keys_of key buffer)
  /\ length buffer = size seen.

(** Every snapshot of a trace is synchronized. *)
Definition snapshots_synced (key : string) (t : list event) : Prop :=
  Forall (fun e => forall b sn, snapshot e = Some (b, sn) -> synced key b sn) t.

(** The rows of a checkpoint have a key each, and no key twice. *)
Definition keyed (key : string) (records : list (gmap string value)) : Prop :=
  NoDup (keys_of key records) /\ Forall (fun r => truthy (get r key) = true) records.

(** ** Cursors *)

(** A chain of page fetches from the cursor [start] that advances by what
    came back: each fetch that has a successor returned [k > 0] items, and
    the successor is at the cursor plus [k]. *)
Fixpoint cursor_chain (start : Z) (l : list (Z * option nat)) : Prop :=
  match l with
  | [] => True
  | (s, n) :: l' =>
      s = start
      /\ (l' = [] \/ exists k, n = Some k /\ (0 < k)%nat
                               /\ cursor_chain (start + Z.of_nat k) l')
  end.

(** A chain of page fetches from the cursor [start] that advances by the
    fixed [stride], whatever came back. *)
Fixpoint stride_chain (stride start : Z) (l : list (Z * option nat)) : Prop :=
  match l with
  | [] => True
  | (s, n) :: l' => s = start /\ stride_chain stride (start + stride) l'
  end.

(** Not a page fetch. *)

Definition not_page (e : event) : Prop :=
  match e with
  | EvPage _ _ _ => False
  | _ => True
  end.

(** ** The overall target *)

(** The event shows a buffer that holds at least [min_books] records. *)
Definition reached (min_books : Z) (e : event) : Prop :=
  exists b sn, snapshot e = Some (b, sn) /\ min_books <= Z.of_nat (length b).

(** Neither a request, nor a page fetch, nor an admission. *)
Definition quiet_event (e : event) : Prop :=
  match e with
  | EvRequest _ | EvPage _ _ _ | EvAdmitted _ _ => False
  | _ => True
  end.

(** Once an event shows that the target is reached, the events after it

    are quiet. *)

Fixpoint halts (min_books : Z) (t : list event) : Prop :=
  match t with
  | [] => True
  | e :: t' => (reached min_books e -> Forall quiet_event t') /\ halts min_books t'
  end.

(** A stretch of a run from a buffer of length [len0] to one of length
    [len1] that respects the target. *)
Definition stops (min_books len0 len1 : Z) (t : list event) : Prop :=
  halts min_books t
  /\ (min_books <= len0 -> t = [])
  /\ (forall e, e ∈ t -> reached min_books e -> min_books <= len1)
  /\ len0 <= len1.

(** ** Writes of the output file *)

(** The buffer after an event, from the buffer before it. *)
Definition buffer_step (buffer : list (gmap string value)) (e : event)
  : list (gmap string value) :=
  match snapshot e with
  | Some (b, _) => b
  | None => buffer
  end.

(** The buffer after a trace. *)

Definition buffer_after (buffer : list (gmap string value)) (t : list event)
  : list (gmap string value) :=
  fold_left buffer_step t buffer.

(** Follows the words of the specification, as amended: the frames that a
    run is due to write.  At a delay that ends a page ([page_end]) the whole
    buffer is due when an output path is set and the size of the buffer is a
    positive multiple of 100; at a delay that ends a worklist item
    ([item_end]) the whole buffer is due when an output path is set and the
    buffer is not empty. *)
Fixpoint expected_frames (page_end item_end : Q -> bool)
    (output_file : option file_state) (buffer : list (gmap string value))
    (t : list event) : list DataFrame :=
  match t with
  | [] => []
  | e :: t' =>
      match e with
      | EvSleep q =>
          (if page_end q && threshold_due output_file buffer
           then [DataFrame_of buffer] else [])
          ++ (if item_end q && query_due output_file buffer
              then [DataFrame_of buffer] else [])
          ++ expected_frames page_end item_end output_file buffer t'
      | _ => expected_frames page_end item_end output_file (buffer_step buffer e) t'
      end
  end.

(** The delays of the API driver: [config.API_DELAY] after a page and 2
    seconds after a query. *)
Definition api_page_end (q : Q) : bool := Qeq_bool q Api.API_DELAY.
Definition api_item_end (q : Q) : bool := Qeq_bool q 2.

(** The delay of the scraper after a page; its loop over the categories
    makes no write. *)
Definition scraper_page_end (q : Q) : bool := Qeq_bool q (3 # 10).
Definition scraper_item_end (q : Q) : bool := false.

Section Schedule.

Variables page_end item_end : Q -> bool.
Variable output_file : option file_state.

(** Over [t], from the buffer [b0] to the buffer [b1], the frames written
    are the frames due. *)
Definition on_schedule (b0 : list (gmap string value)) (t : list event)
    (b1 : list (gmap string value)) : Prop :=
  frames_written t = expected_frames page_end item_end output_file b0 t
  /\ buffer_after b0 t = b1.

(** An event that neither shows a buffer, nor writes, nor ends a page or
    an item. *)
Definition plain (e : event) : Prop :=
  match e with
  | EvSeeded _ _ | EvAdmitted _ _ | EvToCsv _ => False
  | EvSleep q => page_end q = false /\ item_end q = false
  | _ => True
  end.

End Schedule.

(** ** Second runs and checkpoints *)

Definition columns_of (records : list (gmap string value)) : gset string :=
  ⋃ (dom <$> records).

Definition not_admission (e : event) : Prop :=
  match e with
  | EvAdmitted _ _ => False
  | _ => True
  end.

(** The file cannot be parsed: it is unreadable, or it holds no columns. *)
Definition unparsable_file (output_file : option file_state) : Prop :=
  output_file = Some Unreadable
  \/ exists df, output_file = Some (Csv df) /\ columns df = ∅.

(** ** Runs of the API driver *)

Module ApiRun.

Import Api.

(** The state and the trace of [for_items], which does not touch the world. *)
Fixpoint items_state (l : list book_item) (s : state) : state :=
  match l with
  | [] => s
  | item :: l' =>
      let book_data := parse_book_data item in
      items_state l' (if is_new book_data s then admitted book_data s else s)
  end.

(** The admissions of [for_items], in order. *)

Fixpoint items_trace (l : list book_item) (s : state) : list event :=
  match l with
  | [] => []
  | item :: l' =>
      let book_data := parse_book_data item in
      if is_new book_data s
      then EvAdmitted (all_books (admitted book_data s)) (seen_ids (admitted book_data s))
             :: items_trace l' (admitted book_data s)
      else items_trace l' s
  end.

(** What the checkpoint load gives. *)
Definition loaded (output_file : option file_state)
  : list (gmap string value) * gset value :=
  match output_file with
  | Some (Csv df) =>
      if decide (columns df = ∅) then ([], ∅)
      else if decide ("id" ∈ columns df)
           then (to_dict_records df, column_values df "id")
           else ([], ∅)
  | _ => ([], ∅)
  end.

Section Runs.

(** [fetched query start result t]: some call of the fetcher for
    [query] at [start] returned [result] with trace [t]. *)
Variable fetched : string -> Z -> option json_doc -> list event -> Prop.
Variable max_books_per_query : Z.
Variable output_file : option file_state.

(** The runs of the page loop of one query, from a cursor, a request
    count and a state. *)
Inductive pages_run (query : string) : Z -> Z -> state -> state -> list event -> Prop :=
  | pages_exit start_index request_count s :
      (start_index <? max_books_per_query) && (request_count <? max_requests) = false ->
      pages_run query start_index request_count s s []
  | pages_stop start_index request_count s result t_fetch :
      (start_index <? max_books_per_query) && (request_count <? max_requests) = true ->
      fetched query start_index result t_fetch ->
      (forall item rest, result_items result <> Some (item :: rest)) ->
      pages_run query start_index request_count s s
        ([EvLog INFO] ++ t_fetch
           ++ [EvPage query start_index (length <$> result_items result); EvLog WARNING])
  | pages_step start_index request_count s result t_fetch item rest t_save s' t_rest :
      (start_index <? max_books_per_query) && (request_count <? max_requests) = true ->
      fetched query start_index result t_fetch ->
      result_items result = Some (item :: rest) ->
      save_trace (threshold_due output_file (all_books (items_state (item :: rest) s)))
        (all_books (items_state (item :: rest) s)) t_save ->
      pages_run query (start_index + Z.of_nat (length (item :: rest)))
        (request_count + 1) (items_state (item :: rest) s) s' t_rest ->
      pages_run query start_index request_count s s'
        ([EvLog INFO] ++ t_fetch
           ++ [EvPage query start_index (Some (length (item :: rest)))]
           ++ items_trace (item :: rest) s
           ++ [EvSleep API_DELAY] ++ t_save ++ t_rest).

(** The runs of the loop over the queries. *)
Inductive queries_run : list string -> state -> state -> list event -> Prop :=
  | queries_nil s : queries_run [] s s []
  | queries_cons query queries s s1 t_pages t_save s' t_rest :
      pages_run query 0 0
        {| all_books := all_books s; seen_ids := seen_ids s; books_collected := 0 |}
        s1 t_pages ->
      save_trace (query_due output_file (all_books s1)) (all_books s1) t_save ->
      queries_run queries s1 s' t_rest ->
      queries_run (query :: queries) s s'
        ([EvLog INFO] ++ t_pages ++ [EvLog INFO] ++ t_save ++ [EvSleep 2] ++ t_rest).

(** The runs of [collect]: the load, the seeding, the queries. *)
Inductive collect_run (queries : list string) : state -> list event -> Prop :=
  | collect_intro t_load s' t_queries :
      Forall is_log t_load ->
      queries_run queries
        {| all_books := (loaded output_file).1; seen_ids := (loaded output_file).2;
           books_collected := 0 |} s' t_queries ->
      collect_run queries s'
        (t_load ++ [EvSeeded (loaded output_file).1 (loaded output_file).2] ++ t_queries).

End Runs.

Section Fetched.

Context {W : Type} `{World W}.

Definition fetched_by (api_key : string) (query : string) (start_index : Z)
    (result : option json_doc) (t : list event) : Prop :=
  exists w w' : W,
    get_books_by_query query api_key 40 start_index 0 3 w = (inr result, w', t).

End Fetched.

(** The seen set holds the keys of the buffer that are not missing, and
    every record of the buffer has the key column. *)
Definition tracked (s : state) : Prop :=
  seen_ids s = list_to_set (filter (fun v => v <> VNone) (keys_of "id" (all_books s)))
  /\ Forall (fun r => "id" ∈ dom r) (all_books s).

End ApiRun.

(** ** Runs of the scraper *)

Module ScraperRun.

Import Scraper.

(** The result and the trace of [for_books], which does not touch the
    world. *)
Fixpoint books_state (books : list booklink) (min_books : Z) (s : state) (n : Z)
  : state * Z :=
  match books with
  | [] => (s, n)
  | book_elem :: books' =>
      if min_books <=? buffer_len s then (s, n)
      else
        match parse_book_from_listing book_elem with
        | Some book_data =>
            if is_new book_data s
            then books_state books' min_books (admitted book_data s) (n + 1)
            else books_state books' min_books s n
        | None => books_state books' min_books s n
        end
  end.

(** The admissions of [for_books], in order. *)

Fixpoint books_trace (books : list booklink) (min_books : Z) (s : state) : list event :=
  match books with
  | [] => []
  | book_elem :: books' =>
      if min_books <=? buffer_len s then []
      else
        match parse_book_from_listing book_elem with
        | Some book_data =>
            if is_new book_data s
            then EvAdmitted (all_books (admitted book_data s))
                   (seen_titles (admitted book_data s))
                   :: books_trace books' min_books (admitted book_data s)
            else books_trace books' min_books s
        | None => books_trace books' min_books s
        end
  end.

(** What the checkpoint load gives. *)
Definition loaded (output_file : option file_state) : list (gmap string value) :=
  match output_file with
  | Some (Csv df) => if decide (columns df = ∅) then [] else to_dict_records df
  | _ => []
  end.

Section Runs.

(** [fetched query start page t]: some call of [get_page] for the
    catalog page of [query] at [start] returned [page] with trace [t]. *)
Variable fetched : string -> Z -> option soup -> list event -> Prop.
Variable min_books : Z.
Variable output_file : option file_state.

(** The runs of the page loop of one category, from a cursor, a count
    of consecutive pages without new books, and a state. *)
Inductive pages_run (query : string) : Z -> Z -> state -> state -> list event -> Prop :=
  | pages_exit start_index empty_pages s :
      (start_index <? max_index) && (buffer_len s <? min_books) = false ->
      pages_run query start_index empty_pages s s []
  | pages_fail start_index empty_pages s t_fetch :
      (start_index <? max_index) && (buffer_len s <? min_books) = true ->
      fetched query start_index None t_fetch ->
      pages_run query start_index empty_pages s s
        ([EvLog INFO] ++ t_fetch ++ [EvPage query start_index None; EvLog WARNING])
  | pages_empty start_index empty_pages s page t_fetch :
      (start_index <? max_index) && (buffer_len s <? min_books) = true ->
      fetched query start_index (Some page) t_fetch ->
      booklinks page = [] ->
      pages_run query start_index empty_pages s s
        ([EvLog INFO] ++ t_fetch ++ [EvPage query start_index (Some 0%nat); EvLog INFO])
  | pages_streak start_index empty_pages s page t_fetch :
      (start_index <? max_index) && (buffer_len s <? min_books) = true ->
      fetched query start_index (Some page) t_fetch ->
      booklinks page <> [] ->
      (books_state (booklinks page) min_books s 0).2 = 0 ->
      max_empty_pages <= empty_pages + 1 ->
      pages_run query start_index empty_pages s
        (books_state (booklinks page) min_books s 0).1
        ([EvLog INFO] ++ t_fetch
           ++ [EvPage query start_index (Some (length (booklinks page)))]
           ++ books_trace (booklinks page) min_books s
           ++ [EvLog INFO; EvLog INFO])
  | pages_step start_index empty_pages s page t_fetch t_save s' t_rest :
      (start_index <? max_index) && (buffer_len s <? min_books) = true ->
      fetched query start_index (Some page) t_fetch ->
      booklinks page <> [] ->
      ((books_state (booklinks page) min_books s 0).2 <> 0
       \/ empty_pages + 1 < max_empty_pages) ->
      save_trace
        (threshold_due output_file
           (all_books (books_state (booklinks page) min_books s 0).1))
        (all_books (books_state (booklinks page) min_books s 0).1) t_save ->
      pages_run query (start_index + items_per_page)
        (if (books_state (booklinks page) min_books s 0).2 =? 0
         then empty_pages + 1 else 0)
        (books_state (booklinks page) min_books s 0).1 s' t_rest ->
      pages_run query start_index empty_pages s s'
        ([EvLog INFO] ++ t_fetch
           ++ [EvPage query start_index (Some (length (booklinks page)))]
           ++ books_trace (booklinks page) min_books s
           ++ [EvLog INFO] ++ t_save ++ [EvSleep (3 # 10)] ++ t_rest).

(** The runs of the loop over the categories. *)
Inductive categories_run : list string -> state -> state -> list event -> Prop :=
  | categories_nil s : categories_run [] s s []
  | categories_break query queries s :
      min_books <= buffer_len s ->
      categories_run (query :: queries) s s []
  | categories_cons query queries s s1 t_pages s' t_rest :
      buffer_len s < min_books ->
      pages_run query 1 0 s s1 t_pages ->
      categories_run queries s1 s' t_rest ->
      categories_run (query :: queries) s s'
        ([EvLog INFO] ++ t_pages ++ [EvLog INFO; EvSleep 1] ++ t_rest).

(** The runs of [scrape]: the load, the seeding, the categories. *)
Inductive scrape_run : state -> list event -> Prop :=
  | scrape_intro t_load s' t_categories :
      Forall is_log t_load ->
      categories_run categories
        {| all_books := loaded output_file;
           seen_titles := titles_of (loaded output_file) |} s' t_categories ->
      scrape_run s'
        (t_load ++ [EvLog INFO; EvLog INFO]
           ++ [EvSeeded (loaded output_file) (titles_of (loaded output_file))]
           ++ t_categories).

End Runs.

Section Fetched.

Context {W : Type} `{World W}.

Definition fetched_by (query : string) (start_index : Z)
    (page : option soup) (t : list event) : Prop :=
  exists w w' : W,
    get_page (search_url query start_index) 0 3 w = (inr page, w', t).

End Fetched.

(** The seen set holds the titles of the buffer, and no record of the
    buffer is without columns. *)
Definition tracked (s : state) : Prop :=
  seen_titles s = titles_of (all_books s)
  /\ Forall (fun r => dom r <> ∅) (all_books s).

(** Every book of the page with a title has its title in [seen]. *)
Definition titles_seen (books : list booklink) (seen : gset value) : Prop :=
  forall b book_data, b ∈ books ->
    parse_book_from_listing b = Some book_data ->
    truthy (get book_data "title") = true ->
    get book_data "title" ∈ seen.

End ScraperRun.

(** ** Data of the examples *)

(** An answer with status 429. *)
Definition too_many_requests : transport_error + response :=
  inr {| status_code := 429; content := OtherBody |}.

(** An answer with status 500. *)
Definition server_error : transport_error + response :=
  inr {| status_code := 500; content := OtherBody |}.

(** An answer with a good status and a body that is neither JSON nor HTML. *)
Definition unparsable : transport_error + response :=
  inr {| status_code := 200; content := OtherBody |}.

(** An answer with status 403. *)
Definition forbidden : transport_error + response :=
  inr {| status_code := 403; content := OtherBody |}.

(** A volumes document with an empty [items] array. *)
Definition one_volume : json_doc :=
  {| items := Some []; error_message := None |}.

Definition listed (title : string) : booklink :=
  {| title_span := Some title; subtitle_span := None; link_href := None |}.

(** A catalog page that lists the given titles. *)
Definition catalog_page (titles : list string) : transport_error + response :=
  inr {| status_code := 200;
         content := HtmlBody {| booklinks := listed <$> titles; bibrec_div := None;
                                bibrec_rows := None; subject_links := None |} |}.

(** A volume that has an id and a title only. *)
Definition volume (id : string) : book_item :=
  {| item_id := VStr id; vi_title := VStr id; vi_authors := []; vi_publisher := VNone;
     vi_publishedDate := VNone; vi_description := VNone; vi_categories := [];
     vi_language := VNone; vi_pageCount := VNone; vi_averageRating := VNone;
     vi_ratingsCount := VNone; vi_thumbnail := VNone |}.

(** A volumes document with the given ids. *)
Definition volumes_page (ids : list string) : transport_error + response :=
  inr {| status_code := 200;
         content := JsonBody {| items := Some (volume <$> ids); error_message := None |} |}.

(** A checkpoint of one column [key] with the given cells. *)
Definition checkpoint (key : string) (cells : list string) : DataFrame :=
  {| columns := {[key]}; rows := (fun c => {[key := VStr c]}) <$> cells |}.

(** A remote source that answers the first page of every query with the
    volumes [a] and [b] and every other page with a document without items. *)
Definition two_volumes (req : request) : transport_error + response :=
  if decide (params req !! "startIndex" = Some (VInt 0))
  then volumes_page ["a"; "b"]
  else inr {| status_code := 200;
              content := JsonBody {| items := None; error_message := None |} |}.

(** A catalog that lists the same two books on every page. *)
Definition two_books (req : request) : transport_error + response :=
  catalog_page ["Emma"; "Ulysses"].

(** Ids [0], [1], ... for a page of [n] volumes from [first]. *)
Definition numbered (first n : nat) : list string :=
  (fun i => pretty (Z.of_nat i)) <$> seq first n.

(** A checkpoint without the key column of either pipeline. *)
Definition untitled : DataFrame := checkpoint "author" ["Jane Austen"].

(** [reached] as a test. *)
Definition reachedb (min_books : Z) (e : event) : bool :=
  match snapshot e with
  | Some (b, _) => min_books <=? Z.of_nat (length b)
  | None => false
  end.

(** [quiet_event] as a test. *)

Definition quietb (e : event) : bool :=
  match e with
  | EvRequest _ | EvPage _ _ _ | EvAdmitted _ _ => false
  | _ => true
  end.

(** [halts] as a test. *)

Fixpoint haltsb (min_books : Z) (t : list event) : bool :=
  match t with
  | [] => true
  | e :: t' => (negb (reachedb min_books e) || forallb quietb t') && haltsb min_books t'
  end.

(** * Proofs *)

(** ** Year extraction *)

Lemma is_digit_bounds c : is_digit c = true -> 0 <= digit_value c <= 9.
Proof.
  unfold is_digit, in_range, digit_value. intros Hd.
  apply andb_true_iff in Hd as [H1 H2].
  apply N.leb_le in H1, H2. lia.
Qed.

Lemma is_digit_word c : is_digit c = true -> is_word c = true.
Proof. unfold is_word. intros ->. reflexivity. Qed.

Lemma year_range a b c d :
  ((a = "1"%char /\ b = "9"%char) \/ (a = "2"%char /\ b = "0"%char)) ->
  is_digit c = true -> is_digit d = true ->
  1900 <= int_of_digits [a; b; c; d] <= 2099.
Proof.
  intros Hab Hc%is_digit_bounds Hd%is_digit_bounds.
  unfold int_of_digits. cbn [fold_left].
  destruct Hab as [[-> ->] | [-> ->]];
    change (digit_value "1") with 1; change (digit_value "9") with 9;
    change (digit_value "2") with 2; change (digit_value "0") with 0; lia.
Qed.

(** The character right before the rest of a string of which [pre] has

    been read, [prev] being the one right before [pre]. *)

Lemma previous_cons prev c pre : previous prev (c :: pre) = previous (Some c) pre.
Proof.
  unfold previous. destruct pre as [| c' pre]; [reflexivity |].
  rewrite last_cons. destruct (last (c' :: pre)) eqn:E; [reflexivity |].
  apply last_None in E. discriminate.
Qed.

Lemma match_here_iff prev l m :
  YearPattern.match_here prev l = Some m <->
  exists a b c d rest,
    l = a :: b :: c :: d :: rest /\ m = [a; b; c; d]
    /\ ((a = "1"%char /\ b = "9"%char) \/ (a = "2"%char /\ b = "0"%char))
    /\ is_digit c = true /\ is_digit d = true
    /\ word_side prev = false /\ word_side (head rest) = false.
Proof.
  unfold YearPattern.match_here. split.
  - destruct l as [| a [| b [| c [| d rest]]]]; try discriminate.
    destruct (boundary prev (Some a) && _ && is_digit c && is_digit d && _)%bool eqn:E;
      [| discriminate].
    intros [= <-].
    repeat (apply andb_true_iff in E as [E ?]).
    exists a, b, c, d, rest.
    assert (Hab : (a = "1"%char /\ b = "9"%char) \/ (a = "2"%char /\ b = "0"%char)).
    { match goal with H : (_ || _)%bool = true |- _ =>
        apply orb_true_iff in H as [H | H]; apply andb_true_iff in H as [Ha Hb];
        apply Ascii.eqb_eq in Ha, Hb; auto end. }
    assert (Hwa : is_word a = true) by (destruct Hab as [[-> _] | [-> _]]; reflexivity).
    assert (Hwd : is_word d = true) by (apply is_digit_word; assumption).
    unfold boundary in *. cbn [word_side from_option] in *.
    rewrite Hwa in E. 
    match goal with H : xorb (is_word d) _ = true |- _ => rewrite Hwd in H; rename H into Hr end.
    repeat split; try assumption.
    + destruct (word_side prev); [cbn in E; discriminate | reflexivity].
    + destruct (word_side (head rest)); [cbn in Hr; discriminate | reflexivity].
  - intros (a & b & c & d & rest & -> & -> & Hab & Hc & Hd & Hp & Hn).
    assert (Hwa : is_word a = true) by (destruct Hab as [[-> _] | [-> _]]; reflexivity).
    unfold boundary. cbn [word_side from_option] in *.
    rewrite Hp, Hn, Hwa, Hc, Hd, (is_digit_word d Hd).
    destruct Hab as [[-> ->] | [-> ->]]; reflexivity.
Qed.

Lemma search_from_sound l : forall prev m,
  YearPattern.search_from prev l = Some m ->
  exists pre a b c d post,
    l = pre ++ [a; b; c; d] ++ post /\ m = [a; b; c; d]
    /\ ((a = "1"%char /\ b = "9"%char) \/ (a = "2"%char /\ b = "0"%char))
    /\ is_digit c = true /\ is_digit d = true
    /\ word_side (previous prev pre) = false /\ word_side (head post) = false.
Proof.
  induction l as [| x l IH]; intros prev m; cbn [YearPattern.search_from].
  - discriminate.
  - destruct (YearPattern.match_here prev (x :: l)) as [m' |] eqn:E.
    + intros [= <-]. apply match_here_iff in E
        as (a & b & c & d & rest & -> & -> & Hab & Hc & Hd & Hp & Hn).
      exists [], a, b, c, d, rest. repeat split; assumption.
    + intros (pre & a & b & c & d & post & -> & -> & Hab & Hc & Hd & Hp & Hn)%IH.
      exists (x :: pre), a, b, c, d, post. rewrite previous_cons.
      repeat split; assumption.
Qed.

Lemma search_from_complete pre : forall prev a b c d post,
  ((a = "1"%char /\ b = "9"%char) \/ (a = "2"%char /\ b = "0"%char)) ->
  is_digit c = true -> is_digit d = true ->
  word_side (previous prev pre) = false -> word_side (head post) = false ->
  is_Some (YearPattern.search_from prev (pre ++ [a; b; c; d] ++ post)).
Proof.
  induction pre as [| x pre IH]; intros prev a b c d post Hab Hc Hd Hp Hn.
  - cbn [app YearPattern.search_from].
    assert (E : YearPattern.match_here prev (a :: b :: c :: d :: post) = Some [a; b; c; d]).
    { apply match_here_iff. exists a, b, c, d, post. repeat split; assumption. }
    cbn [app] in E |- *. rewrite E. eauto.
  - rewrite <- app_comm_cons. cbn [YearPattern.search_from].
    destruct (YearPattern.match_here prev (x :: pre ++ [a; b; c; d] ++ post)); [eauto |].
    apply IH; try assumption. rewrite <- previous_cons with (prev := prev). assumption.
Qed.

(** C10. [extract_year] returns a year only for a string that holds a
    standalone four-digit number that begins with 19 or 20, and that year
    is between 1900 and 2099; it returns [None] exactly when the value is
    not such a string, as for a date of 1850.  The release date row of the
    scraper's detail parser sets the [year] field by the same extraction,
    and leaves the field as it was when there is no such number. *)
Theorem extract_year_standalone (date_str : value) :
  (forall y, Clean.extract_year date_str = Some y ->
     exists s, date_str = VStr s
       /\ standalone_year (list_ascii_of_string s) y /\ 1900 <= y <= 2099)
  /\ (Clean.extract_year date_str = None <->
      ~ exists s y, date_str = VStr s /\ standalone_year (list_ascii_of_string s) y)
  /\ Clean.extract_year (VStr "March 3, 1850") = None
  /\ (forall details th td,
        replace_char " " "_" (lower th) = "release_date" ->
        Scraper.add_row details (Some th, Some td) !! "year" =
          match Clean.extract_year (VStr td) with
          | Some y => Some (VInt y)
          | None => details !! "year"
          end).
Proof.
  assert (Hsound : forall s y, Clean.extract_year (VStr s) = Some y ->
            standalone_year (list_ascii_of_string s) y /\ 1900 <= y <= 2099).
  { intros s y. unfold Clean.extract_year, YearPattern.search.
    destruct (YearPattern.search_from None (list_ascii_of_string s)) as [m |] eqn:E;
      [| discriminate].
    intros [= <-].
    apply search_from_sound in E
      as (pre & a & b & c & d & post & Hl & -> & Hab & Hc & Hd & Hp & Hn).
    split; [| apply year_range; assumption].
    exists pre, a, b, c, d, post. repeat split; try assumption.
    unfold previous in Hp. destruct (last pre); assumption. }
  assert (Hcomplete : forall s y, standalone_year (list_ascii_of_string s) y ->
            is_Some (Clean.extract_year (VStr s))).
  { intros s y (pre & a & b & c & d & post & Hl & Hab & Hc & Hd & Hp & Hn & _).
    unfold Clean.extract_year, YearPattern.search. rewrite Hl.
    destruct (search_from_complete pre None a b c d post) as [m ->]; try assumption; [| eauto].
    unfold previous. destruct (last pre); [assumption | reflexivity]. }
  repeat split.
  - intros y Hy. destruct date_str as [| s | z]; try discriminate.
    exists s. destruct (Hsound s y Hy). auto.
  - intros Hnone (s & y & -> & Hst). apply Hcomplete in Hst as [y' Hy']. congruence.
  - intros Hno. destruct (Clean.extract_year date_str) as [y |] eqn:E; [| reflexivity].
    exfalso. apply Hno. destruct date_str as [| s | z]; try discriminate.
    exists s, y. split; [reflexivity |]. apply Hsound. assumption.
  - intros details th td Hkey. unfold Scraper.add_row. rewrite Hkey.
    cbn [String.eqb Ascii.eqb Bool.eqb]. unfold Clean.extract_year.
    destruct (YearPattern.search td) as [m |].
    + rewrite lookup_insert_ne by discriminate. apply lookup_insert_eq.
    + rewrite lookup_insert_ne by discriminate. reflexivity.
Qed.

(** ** The fetchers *)

Section Fetchers.

Context {W : Type} `{World W}.

Local Abbreviation answers_429 := (answers_429 (W := W)).

Local Abbreviation fails := (fails (W := W)).

Local Abbreviation wp := (wp (W := W)).

Local Abbreviation steady_remote := (steady_remote (W := W)).

Lemma fetch_json_run params w :
  Api.fetch_json params w =
    (read_json (requests_get {| url := Api.volumes_url; params := params |} w).1,
     (requests_get {| url := Api.volumes_url; params := params |} w).2,
     [EvRequest {| url := Api.volumes_url; params := params |}]).
Proof.
  unfold Api.fetch_json, bind, http_get, raise_for_status, response_json, read_json.
  destruct (requests_get _ w) as [[e | r] w1]; cbn [fst snd]; [reflexivity |].
  destruct ((400 <=? status_code r) && (status_code r <? 600)); [reflexivity |].
  cbn. destruct (content r); reflexivity.
Qed.

(** The request of [get_books_by_query]. *)

Lemma wait_time_eq (retry_count : nat) :
  2 ^ Z.of_nat retry_count * 60 = 60 * 2 ^ (Z.of_nat (S retry_count) - 1).
Proof. replace (Z.of_nat (S retry_count) - 1) with (Z.of_nat retry_count) by lia. lia. Qed.

Lemma status_429_error r : status_code r = 429 ->
  read_json (inr r) = inl (HTTPError r).
Proof. intros E. unfold read_json. rewrite E. reflexivity. Qed.

Lemma retry_run fuel query api_key max_results start_index retry_count max_retries w r w1 :
  requests_get (api_request query api_key max_results start_index) w = (inr r, w1) ->
  status_code r = 429 ->
  (retry_count < max_retries)%nat ->
  Api.get_books_by_query_fuel (S fuel) query api_key max_results start_index
    retry_count max_retries w =
  let '(res, w2, t2) :=
    Api.get_books_by_query_fuel fuel query api_key max_results start_index
      (S retry_count) max_retries w1 in
  (res, w2, retries (api_request query api_key max_results start_index) (S retry_count) 1 ++ t2).
Proof.
  intros Hreq Hst Hlt.
  cbn [Api.get_books_by_query_fuel].
  unfold try_except at 1. unfold bind at 1. rewrite fetch_json_run.
  fold (api_request query api_key max_results start_index). rewrite Hreq.
  cbn [fst snd]. rewrite (status_429_error r Hst).
  cbn [is_RequestException exn_response].
  rewrite Hst. cbn [Z.eqb Pos.eqb].
  apply Nat.ltb_lt in Hlt. rewrite Hlt.
  unfold bind, log, sleep, emit, ret.
  destruct (Api.get_books_by_query_fuel fuel _ _ _ _ _ _ w1) as [[[e | res] w2] t2];
    cbn [retries flat_map seq app]; rewrite ?app_nil_r, wait_time_eq; reflexivity.
Qed.

Lemma exhausted_run fuel query api_key max_results start_index retry_count max_retries w r w1 :
  requests_get (api_request query api_key max_results start_index) w = (inr r, w1) ->
  status_code r = 429 ->
  (max_retries <= retry_count)%nat ->
  Api.get_books_by_query_fuel (S fuel) query api_key max_results start_index
    retry_count max_retries w =
  (inr None, w1, [EvRequest (api_request query api_key max_results start_index);
                  EvLog ERROR]).
Proof.
  intros Hreq Hst Hge.
  cbn [Api.get_books_by_query_fuel].
  unfold try_except at 1. unfold bind at 1. rewrite fetch_json_run.
  fold (api_request query api_key max_results start_index). rewrite Hreq.
  cbn [fst snd]. rewrite (status_429_error r Hst).
  cbn [is_RequestException exn_response].
  rewrite Hst. cbn [Z.eqb Pos.eqb].
  apply Nat.ltb_ge in Hge. rewrite Hge.
  reflexivity.
Qed.

Lemma retries_run query api_key max_results start_index max_retries k :
  forall fuel retry_count w w',
  answers_429 (api_request query api_key max_results start_index) k w w' ->
  (retry_count + k <= max_retries)%nat ->
  Api.get_books_by_query_fuel (k + fuel) query api_key max_results start_index
    retry_count max_retries w =
  let '(res, w2, t2) :=
    Api.get_books_by_query_fuel fuel query api_key max_results start_index
      (retry_count + k) max_retries w' in
  (res, w2, retries (api_request query api_key max_results start_index) (S retry_count) k ++ t2).
Proof.
  induction k as [| k IH]; intros fuel retry_count w w' Hans Hle.
  - inversion Hans; subst. rewrite Nat.add_0_r. cbn [Nat.add retries flat_map seq app].
    destruct (Api.get_books_by_query_fuel _ _ _ _ _ _ _ w') as [[res w2] t2]. reflexivity.
  - inversion Hans as [| k' w0 r w1 w0' Hreq Hst Hrest]; subst.
    cbn [Nat.add]. rewrite (retry_run _ _ _ _ _ _ _ _ _ _ Hreq Hst) by lia.
    rewrite (IH fuel (S retry_count) w1 w' Hrest) by lia.
    replace (S retry_count + k)%nat with (retry_count + S k)%nat by lia.
    destruct (Api.get_books_by_query_fuel fuel _ _ _ _ _ _ w') as [[res w2] t2].
    unfold retries. cbn [seq flat_map]. rewrite <- !app_assoc. reflexivity.
Qed.

(** C7. On consecutive 429 answers the API fetcher waits [60 * 2^(N-1)]
    seconds before its [N]-th retry: after [k <= max_retries] such answers
    it has made [k] retries with these waits and goes on as the call with
    [retry_count = k]; on [max_retries + 1] such answers it makes
    [max_retries] retries, then returns [None] without raising. *)
Theorem backoff_schedule query api_key max_results start_index max_retries k w w' :
  answers_429 (api_request query api_key max_results start_index) k w w' ->
  ((k <= max_retries)%nat ->
     Api.get_books_by_query query api_key max_results start_index 0 max_retries w =
     let '(res, w2, t2) :=
       Api.get_books_by_query query api_key max_results start_index k max_retries w' in
     (res, w2,
      retries (api_request query api_key max_results start_index) 1 k ++ t2))
  /\ (k = S max_retries ->
     Api.get_books_by_query query api_key max_results start_index 0 max_retries w =
     (inr None, w',
      retries (api_request query api_key max_results start_index) 1 max_retries
        ++ [EvRequest (api_request query api_key max_results start_index);
            EvLog ERROR])).
Proof.
  intros Hans. split.
  - intros Hle. unfold Api.get_books_by_query.
    replace (S (max_retries - 0)) with (k + S (max_retries - k))%nat by lia.
    apply (retries_run _ _ _ _ _ _ _ 0%nat); [assumption | lia].
  - intros ->. unfold Api.get_books_by_query.
    assert (Hsplit : exists w1 r,
              answers_429 (api_request query api_key max_results start_index)
                max_retries w w1
              /\ requests_get (api_request query api_key max_results start_index) w1
                 = (inr r, w') /\ status_code r = 429).
    { clear -Hans. revert w Hans. induction max_retries as [| n IH]; intros w Hans.
      - inversion Hans as [| k' w0 r w1 w0' Hreq Hst Hrest]; subst.
        inversion Hrest; subst. exists w, r. repeat split; [constructor | assumption ..].
      - inversion Hans as [| k' w0 r w1 w0' Hreq Hst Hrest]; subst.
        destruct (IH _ Hrest) as (w2 & r2 & H2 & Hreq2 & Hst2).
        exists w2, r2. repeat split; [econstructor; eassumption | assumption ..]. }
    destruct Hsplit as (w1 & r & Hpre & Hreq & Hst).
    replace (S (max_retries - 0)) with (max_retries + 1)%nat by lia.
    rewrite (retries_run _ _ _ _ _ _ _ 0%nat _ _ Hpre) by lia.
    cbn [Nat.add]. rewrite (exhausted_run _ _ _ _ _ _ _ _ _ _ Hreq Hst) by lia.
    reflexivity.
Qed.

(** *** Reasoning about runs *)

Lemma wp_ret {A} (a : A) w (Q : A -> W -> list event -> Prop) :
  Q a w [] -> wp (ret a) w Q.
Proof. intros HQ. exists a, w, []. split; [reflexivity | assumption]. Qed.

Lemma wp_bind {A B} (m : M W A) (k : A -> M W B) w (Q : B -> W -> list event -> Prop) :
  wp m w (fun a w1 t1 => wp (k a) w1 (fun b w2 t2 => Q b w2 (t1 ++ t2))) ->
  wp (bind m k) w Q.
Proof.
  intros (a & w1 & t1 & Hm & b & w2 & t2 & Hk & HQ).
  exists b, w2, (t1 ++ t2). split; [| assumption].
  unfold bind. rewrite Hm, Hk. reflexivity.
Qed.

Lemma wp_emit e w (Q : unit -> W -> list event -> Prop) :
  Q tt w [e] -> wp (emit e) w Q.
Proof. intros HQ. exists tt, w, [e]. split; [reflexivity | assumption]. Qed.

Lemma wp_mono {A} (m : M W A) w (Q Q' : A -> W -> list event -> Prop) :
  wp m w Q -> (forall a w' t, Q a w' t -> Q' a w' t) -> wp m w Q'.
Proof. intros (a & w' & t & Hm & HQ) Himp. exists a, w', t. auto. Qed.

Lemma wp_eq {A} (m : M W A) w a w' t (Q : A -> W -> list event -> Prop) :
  m w = (inr a, w', t) -> Q a w' t -> wp m w Q.
Proof. intros Hm HQ. exists a, w', t. auto. Qed.

Lemma wp_run {A} (m : M W A) w (Q : A -> W -> list event -> Prop) a w' t :
  wp m w Q -> m w = (inr a, w', t) -> Q a w' t.
Proof. intros (a0 & w0 & t0 & Hm & HQ) E. rewrite E in Hm. congruence. Qed.

(** A guarded write never raises, and its trace is the attempt and a log. *)
Lemma save_run (save_it : M W unit) df w :
  save_it = try_except (df_to_csv df;; log INFO) any_exception (fun _ => log ERROR) ->
  exists w' lvl, save_it w = (inr tt, w', [EvToCsv df; EvLog lvl]).
Proof.
  intros ->. unfold try_except, bind, df_to_csv, log, emit, any_exception.
  destruct (to_csv df w) as [[|] w1]; eauto.
Qed.

Lemma log_error_details_run e (w : W) :
  exists t, Api.log_error_details e w = (inr tt, w, t) /\ Forall (fetch_event 60) t.
Proof.
  unfold Api.log_error_details.
  destruct (exn_response e) as [r |]; [| exists []; split; [reflexivity | constructor]].
  destruct (content r) as [d | |]; try destruct (error_message d);
    (eexists; split; [reflexivity | repeat constructor]).
Qed.

(** The API fetcher always returns (a document or [None]); it never raises. *)
Lemma get_books_by_query_fuel_total fuel query api_key max_results start_index max_retries :
  forall retry_count w,
  wp (Api.get_books_by_query_fuel fuel query api_key max_results start_index
        retry_count max_retries) w
     (fun _ _ t => Forall (fetch_event 60) t).
Proof.
  induction fuel as [| fuel IH]; intros retry_count w.
  - apply wp_ret. constructor.
  - unfold wp. cbn [Api.get_books_by_query_fuel].
    unfold try_except at 1. unfold bind at 1. cbv beta. rewrite fetch_json_run.
    set (req := {| url := Api.volumes_url; params := _ |}).
    destruct (requests_get req w) as [a w1]. cbn [fst snd].
    destruct (read_json a) as [e | d] eqn:Ea.
    2: { eexists _, _, _. split; [reflexivity |]. repeat constructor. }
    assert (Hreq : is_RequestException e = true).
    { unfold read_json in Ea. destruct a as [te | r]; [injection Ea as <-; reflexivity |].
      destruct (_ && _); [injection Ea as <-; reflexivity |].
      destruct (content r); try discriminate; injection Ea as <-; reflexivity. }
    rewrite Hreq. clear Hreq Ea.
    assert (Hfail : wp (log ERROR;; Api.log_error_details e;; ret (@None json_doc)) w1
              (fun _ _ t => Forall (fetch_event 60) t)).
    { destruct (log_error_details_run e w1) as (t & Ht & Hev).
      eexists None, w1, _. unfold bind, log, emit, ret. rewrite Ht.
      split; [reflexivity |]. rewrite app_nil_r. constructor; [exact I | assumption]. }
    assert (Hhandler : forall (first : M W (option (option json_doc))),
              wp first w1 (fun _ _ t => Forall (fetch_event 60) t) ->
              (forall w2, wp (log ERROR;; Api.log_error_details e;; ret (@None json_doc)) w2
                            (fun _ _ t => Forall (fetch_event 60) t)) ->
              wp (returned <- first;;
                  match returned with
                  | Some result => ret result
                  | None => log ERROR;; Api.log_error_details e;; ret None
                  end) w1 (fun _ _ t => Forall (fetch_event 60) t)).
    { intros first Hfirst Hrest. apply wp_bind. eapply wp_mono; [exact Hfirst |].
      intros [result |] w2 t Ht.
      - apply wp_ret. rewrite app_nil_r. assumption.
      - eapply wp_mono; [apply Hrest |]. intros ? ? t2 Ht2. apply Forall_app. auto. }
    match goal with
    | |- context [match ?h w1 with _ => _ end] =>
        assert (Hh : wp h w1 (fun _ _ t => Forall (fetch_event 60) t))
    end.
    { apply Hhandler.
      - destruct (exn_response e) as [r |]; [| apply wp_ret; constructor].
        destruct (status_code r =? 429).
        + destruct (retry_count <? max_retries)%nat.
          * apply wp_bind, wp_emit, wp_bind, wp_emit, wp_bind.
            eapply wp_mono; [apply IH |]. intros res w2 t Ht.
            apply wp_ret. rewrite app_nil_r. constructor; [exact I |].
            constructor; [| assumption].
            cbn. eexists. split; [reflexivity |].
            assert (0 < 2 ^ Z.of_nat retry_count) by (apply Z.pow_pos_nonneg; lia). lia.
          * apply wp_bind, wp_emit, wp_ret. repeat constructor.
        + destruct (truthy (VStr api_key) && (status_code r =? 403)); [| apply wp_ret; constructor].
          apply wp_bind, wp_emit.
          unfold wp, try_except. unfold bind at 1. cbv beta. rewrite fetch_json_run.
          destruct (requests_get _ w1) as [a2 w2]. cbn [fst snd].
          destruct (read_json a2); eexists _, _, _; (split; [reflexivity |]);
            repeat constructor.
      - intros w2. destruct (log_error_details_run e w2) as (t & Ht & Hev).
        eexists None, w2, _. unfold bind, log, emit, ret. rewrite Ht.
        split; [reflexivity |]. rewrite app_nil_r. constructor; [exact I | assumption]. }
    destruct Hh as (res & w2 & t & Hrun & Ht).
    eexists res, w2, _. rewrite Hrun. split; [reflexivity |].
    constructor; [exact I | assumption].
Qed.

Lemma get_books_by_query_total query api_key max_results start_index retry_count max_retries w :
  wp (Api.get_books_by_query query api_key max_results start_index retry_count max_retries) w
     (fun _ _ t => Forall (fetch_event 60) t).
Proof. apply get_books_by_query_fuel_total. Qed.

(** The request of [get_page]. *)

(** One call of [get_page], by what its request comes to. *)
Lemma get_page_fuel_step fuel url retry_count max_retries w :
  Scraper.get_page_fuel (S fuel) url retry_count max_retries w =
  match read_html (requests_get (page_request url) w).1 with
  | inr page => (inr (Some page), (requests_get (page_request url) w).2,
                 [EvRequest (page_request url)])
  | inl _ =>
      if (retry_count <? max_retries)%nat then
        let '(res, w2, t2) :=
          Scraper.get_page_fuel fuel url (S retry_count) max_retries
            (requests_get (page_request url) w).2 in
        (res, w2, [EvRequest (page_request url); EvLog WARNING;
                   EvSleep (inject_Z (2 ^ Z.of_nat retry_count))] ++ t2)
      else (inr None, (requests_get (page_request url) w).2,
            [EvRequest (page_request url); EvLog ERROR])
  end.
Proof.
  cbn [Scraper.get_page_fuel]. unfold try_except, bind at 1, http_get, read_html.
  fold (page_request url).
  destruct (requests_get (page_request url) w) as [[e | r] w1]; cbn [fst snd].
  - cbn [is_RequestException]. destruct (retry_count <? max_retries)%nat; [| reflexivity].
    unfold bind, log, sleep, emit.
    destruct (Scraper.get_page_fuel fuel url (S retry_count) max_retries w1)
      as [[[e' | res] w2] t2]; reflexivity.
  - unfold bind, raise_for_status, raise, ret.
    destruct ((400 <=? status_code r) && (status_code r <? 600)); [| reflexivity].
    cbn [is_RequestException]. destruct (retry_count <? max_retries)%nat; [| reflexivity].
    unfold bind, log, sleep, emit.
    destruct (Scraper.get_page_fuel fuel url (S retry_count) max_retries w1)
      as [[[e' | res] w2] t2]; reflexivity.
Qed.

(** [get_page] always returns (a page or [None]); it never raises. *)
Lemma get_page_fuel_total fuel url max_retries :
  forall retry_count w,
  wp (Scraper.get_page_fuel fuel url retry_count max_retries) w
     (fun _ _ t => Forall (fetch_event 1) t).
Proof.
  induction fuel as [| fuel IH]; intros retry_count w.
  - apply wp_ret. constructor.
  - unfold wp. rewrite get_page_fuel_step.
    destruct (read_html _) as [e | page].
    + destruct (retry_count <? max_retries)%nat.
      * destruct (IH (S retry_count) (requests_get (page_request url) w).2)
          as (res & w2 & t2 & -> & Ht2).
        eexists _, _, _. split; [reflexivity |].
        repeat constructor; [| assumption].
        eexists. split; [reflexivity |].
        assert (0 < 2 ^ Z.of_nat retry_count) by (apply Z.pow_pos_nonneg; lia). lia.
      * eexists _, _, _. split; [reflexivity |]. repeat constructor.
    + eexists _, _, _. split; [reflexivity |]. repeat constructor.
Qed.

Lemma get_page_total url retry_count max_retries w :
  wp (Scraper.get_page url retry_count max_retries) w
     (fun _ _ t => Forall (fetch_event 1) t).
Proof. apply get_page_fuel_total. Qed.

Lemma get_page_fuel_fails url max_retries k :
  forall retry_count w w',
  fails (page_request url) (S k) w w' ->
  (retry_count + k = max_retries)%nat ->
  Scraper.get_page_fuel (S k) url retry_count max_retries w =
  (inr None, w', page_retries url retry_count k ++ [EvRequest (page_request url); EvLog ERROR]).
Proof.
  induction k as [| k IH]; intros retry_count w w' Hfails Hk;
    inversion Hfails as [| k' w0 a w1 w0' Hreq Hbad Hrest]; subst;
    rewrite get_page_fuel_step, Hreq; cbn [fst snd];
    (destruct (read_html a) as [e | page]; [| exfalso; eapply Hbad; reflexivity]).
  - inversion Hrest; subst.
    replace (retry_count <? retry_count + 0)%nat with false
      by (symmetry; apply Nat.ltb_ge; lia).
    reflexivity.
  - replace (retry_count <? retry_count + S k)%nat with true
      by (symmetry; apply Nat.ltb_lt; lia).
    rewrite (IH (S retry_count) w1 w' Hrest) by lia.
    unfold page_retries. cbn [seq flat_map]. rewrite <- !app_assoc. reflexivity.
Qed.

Lemma log_error_details_logs e (w : W) :
  exists t, Api.log_error_details e w = (inr tt, w, t) /\ Forall is_log t.
Proof.
  unfold Api.log_error_details.
  destruct (exn_response e) as [r |]; [| exists []; split; [reflexivity | constructor]].
  destruct (content r) as [d | |]; try destruct (error_message d);
    (eexists; split; [reflexivity | repeat constructor]).
Qed.

Lemma api_failure_run query api_key max_results start_index retry_count max_retries w a w1 :
  requests_get (api_request query api_key max_results start_index) w = (a, w1) ->
  api_failure a ->
  exists logs,
    Forall is_log logs
    /\ Api.get_books_by_query query api_key max_results start_index
         retry_count max_retries w =
       (inr None, w1,
        EvRequest (api_request query api_key max_results start_index) :: logs).
Proof.
  intros Hreq Hfail.
  unfold Api.get_books_by_query. cbn [Api.get_books_by_query_fuel].
  unfold try_except at 1. unfold bind at 1. rewrite fetch_json_run.
  fold (api_request query api_key max_results start_index). rewrite Hreq. cbn [fst snd].
  assert (Hend : forall e, exists logs, Forall is_log logs /\
            (log ERROR;; Api.log_error_details e;; ret (@None json_doc)) w1
            = (inr None, w1, logs)).
  { intros e. destruct (log_error_details_logs e w1) as (t & Ht & Hlogs).
    exists (EvLog ERROR :: t). split; [constructor; [exact I | assumption] |].
    unfold bind, log, emit, ret. rewrite Ht, app_nil_r. reflexivity. }
  destruct a as [te | r].
  - cbn [read_json is_RequestException exn_response].
    destruct (Hend (Transport te)) as (logs & Hlogs & Hrun).
    exists logs. split; [assumption |].
    unfold bind at 1. unfold ret at 1. cbv beta iota. rewrite Hrun. reflexivity.
  - destruct Hfail as (H429 & H403 & Hbad).
    destruct (read_json (inr r)) as [e | d] eqn:Er; [| exfalso; eapply Hbad; reflexivity].
    assert (He : e = HTTPError r \/ e = JSONDecodeError).
    { unfold read_json in Er. destruct (_ && _); [left; congruence |].
      destruct (content r); try discriminate; right; congruence. }
    destruct (Hend e) as (logs & Hlogs & Hrun).
    exists logs. split; [assumption |].
    destruct He as [-> | ->]; cbn [is_RequestException exn_response].
    + apply Z.eqb_neq in H429, H403. rewrite H429, H403, andb_false_r.
      unfold bind at 1. unfold ret at 1. cbv beta iota. rewrite Hrun. reflexivity.
    + unfold bind at 1. unfold ret at 1. cbv beta iota. rewrite Hrun. reflexivity.
Qed.

Lemma keyless_request_params query api_key max_results start_index :
  params (keyless_request query api_key max_results start_index) !! "key" = None
  /\ keyless_request query api_key max_results start_index =
     api_request query "" max_results start_index.
Proof.
  split; [apply lookup_delete_eq |].
  unfold keyless_request, api_request, Api.request_params. f_equal.
  destruct (truthy (VStr api_key)); cbn [truthy String.eqb negb].
  - rewrite delete_insert_eq. apply delete_id. reflexivity.
  - apply delete_id. reflexivity.
Qed.

(** C9. A 403 answer to a request made with a key is followed by exactly
    one more attempt, without the key, whatever the retry count: no wait,
    no recursive call.  The result is the document of that attempt, or
    [None] when it fails in any way. *)
Theorem forbidden_key_one_keyless_attempt query api_key max_results start_index
    retry_count max_retries w r w1 :
  truthy (VStr api_key) = true ->
  requests_get (api_request query api_key max_results start_index) w = (inr r, w1) ->
  status_code r = 403 ->
  exists logs,
    Forall is_log logs
    /\ Api.get_books_by_query query api_key max_results start_index
         retry_count max_retries w =
       (inr match read_json
                    (requests_get
                       (keyless_request query api_key max_results start_index) w1).1 with
            | inr d => Some d
            | inl _ => None
            end,
        (requests_get (keyless_request query api_key max_results start_index) w1).2,
        [EvRequest (api_request query api_key max_results start_index);
         EvLog WARNING;
         EvRequest (keyless_request query api_key max_results start_index)] ++ logs)
    /\ params (keyless_request query api_key max_results start_index) !! "key" = None.
Proof.
  intros Hkey Hreq Hst.
  unfold Api.get_books_by_query. cbn [Api.get_books_by_query_fuel].
  unfold try_except at 1. unfold bind at 1. rewrite fetch_json_run.
  fold (api_request query api_key max_results start_index). rewrite Hreq. cbn [fst snd].
  assert (Er : read_json (inr r) = inl (HTTPError r)).
  { unfold read_json. rewrite Hst. reflexivity. }
  rewrite Er. cbn [is_RequestException exn_response].
  rewrite Hst, Hkey. cbn [Z.eqb Pos.eqb andb].
  unfold bind at 1. unfold bind at 1. unfold log at 1, emit at 1. cbv beta iota.
  unfold try_except at 1. unfold bind at 1. rewrite fetch_json_run.
  fold (keyless_request query api_key max_results start_index).
  destruct (requests_get (keyless_request _ _ _ _) w1) as [a2 w2]. cbn [fst snd].
  destruct (read_json a2) as [e2 | d].
  - destruct (log_error_details_logs (HTTPError r) w2) as (t & Ht & Hlogs).
    exists (EvLog ERROR :: t). split; [constructor; [exact I | assumption] |].
    split; [| apply keyless_request_params].
    cbn [any_exception]. unfold ret at 1. cbv beta iota.
    unfold bind, log, emit, ret. rewrite Ht. rewrite ?app_nil_r. reflexivity.
  - exists []. split; [constructor |]. split; [| apply keyless_request_params].
    reflexivity.
Qed.

(** The result of one call of the API fetcher, by what its requests
    come to. *)
Lemma get_books_by_query_fuel_result fuel query api_key max_results start_index
    retry_count max_retries w :
  (Api.get_books_by_query_fuel (S fuel) query api_key max_results start_index
     retry_count max_retries w).1.1 =
  match read_json (requests_get (api_request query api_key max_results start_index) w).1 with
  | inr d => inr (Some d)
  | inl e =>
      match exn_response e with
      | Some r =>
          if status_code r =? 429 then
            if (retry_count <? max_retries)%nat then
              (Api.get_books_by_query_fuel fuel query api_key max_results start_index
                 (S retry_count) max_retries
                 (requests_get (api_request query api_key max_results start_index) w).2).1.1
            else inr None
          else if truthy (VStr api_key) && (status_code r =? 403) then
            inr match read_json
                        (requests_get
                           (keyless_request query api_key max_results start_index)
                           (requests_get
                              (api_request query api_key max_results start_index) w).2).1 with
                | inr d => Some d
                | inl _ => None
                end
          else inr None
      | None => inr None
      end
  end.
Proof.
  cbn [Api.get_books_by_query_fuel].
  unfold try_except at 1. unfold bind at 1. rewrite fetch_json_run.
  fold (api_request query api_key max_results start_index).
  destruct (requests_get (api_request _ _ _ _) w) as [a w1]. cbn [fst snd].
  destruct (read_json a) as [e | d] eqn:Ea; [| reflexivity].
  assert (Hreq : is_RequestException e = true).
  { unfold read_json in Ea. destruct a as [te | r]; [injection Ea as <-; reflexivity |].
    destruct (_ && _); [injection Ea as <-; reflexivity |].
    destruct (content r); try discriminate; injection Ea as <-; reflexivity. }
  rewrite Hreq. clear Hreq Ea.
  assert (Hend : forall w2 : W, exists logs,
            (log ERROR;; Api.log_error_details e;; ret (@None json_doc)) w2
            = (inr None, w2, logs)).
  { intros w2. destruct (log_error_details_logs e w2) as (t & Ht & Hlogs).
    exists (EvLog ERROR :: t).
    unfold bind, log, emit, ret. rewrite Ht, app_nil_r. reflexivity. }
  destruct (exn_response e) as [r |].
  - destruct (status_code r =? 429).
    + destruct (retry_count <? max_retries)%nat.
      * unfold bind, log, sleep, emit, ret.
        destruct (Api.get_books_by_query_fuel fuel _ _ _ _ _ _ w1)
          as [[[e' | res] w2] t2]; reflexivity.
      * reflexivity.
    + destruct (truthy (VStr api_key) && (status_code r =? 403)).
      * unfold bind at 1. unfold bind at 1. unfold log at 1, emit at 1. cbv beta iota.
        unfold try_except at 1. unfold bind at 1. rewrite fetch_json_run.
        fold (keyless_request query api_key max_results start_index).
        destruct (requests_get (keyless_request _ _ _ _) w1) as [a2 w2]. cbn [fst snd].
        destruct (read_json a2) as [e2 | d]; [| reflexivity].
        cbn [any_exception]. unfold ret at 1. cbv beta iota.
        destruct (Hend w2) as (logs & ->). reflexivity.
      * unfold bind at 1. unfold ret at 1. cbv beta iota.
        destruct (Hend w1) as (logs & ->). reflexivity.
  - unfold bind at 1. unfold ret at 1. cbv beta iota.
    destruct (Hend w1) as (logs & ->). reflexivity.
Qed.

Lemma get_books_by_query_steady query api_key max_results start_index retry_count
    max_retries (w1 w2 : W) :
  steady_remote ->
  (Api.get_books_by_query query api_key max_results start_index
     retry_count max_retries w1).1.1 =
  (Api.get_books_by_query query api_key max_results start_index
     retry_count max_retries w2).1.1.
Proof.
  intros Hsteady. unfold Api.get_books_by_query.
  generalize (S (max_retries - retry_count)) as fuel.
  intros fuel. revert retry_count w1 w2.
  induction fuel as [| fuel IH]; intros retry_count w1 w2; [reflexivity |].
  rewrite (get_books_by_query_fuel_result fuel _ _ _ _ _ _ w1).
  rewrite (get_books_by_query_fuel_result fuel _ _ _ _ _ _ w2).
  rewrite (Hsteady _ w1 w2).
  destruct (read_json _) as [e | d]; [| reflexivity].
  destruct (exn_response e) as [r |]; [| reflexivity].
  destruct (status_code r =? 429).
  - destruct (retry_count <? max_retries)%nat; [apply IH | reflexivity].
  - destruct (truthy (VStr api_key) && (status_code r =? 403)); [| reflexivity].
    rewrite (Hsteady (keyless_request query api_key max_results start_index)
               (requests_get (api_request query api_key max_results start_index) w1).2
               (requests_get (api_request query api_key max_results start_index) w2).2).
    reflexivity.
Qed.

Lemma get_page_steady url retry_count max_retries (w1 w2 : W) :
  steady_remote ->
  (Scraper.get_page url retry_count max_retries w1).1.1 =
  (Scraper.get_page url retry_count max_retries w2).1.1.
Proof.
  intros Hsteady. unfold Scraper.get_page.
  generalize (S (max_retries - retry_count)) as fuel.
  intros fuel. revert retry_count w1 w2.
  induction fuel as [| fuel IH]; intros retry_count w1 w2; [reflexivity |].
  rewrite !get_page_fuel_step. rewrite (Hsteady _ w1 w2).
  destruct (read_html _) as [e | page]; [| reflexivity].
  destruct (retry_count <? max_retries)%nat; [| reflexivity].
  specialize (IH (S retry_count) (requests_get (page_request url) w1).2
                (requests_get (page_request url) w2).2).
  destruct (Scraper.get_page_fuel fuel url (S retry_count) max_retries
              (requests_get (page_request url) w1).2) as [[res1 w1'] t1].
  destruct (Scraper.get_page_fuel fuel url (S retry_count) max_retries
              (requests_get (page_request url) w2).2) as [[res2 w2'] t2].
  exact IH.
Qed.


End Fetchers.

(** Four answers 429 in a row: waits of 60, 120 and 240 seconds, then [None]. *)
Lemma backoff_schedule_witness :
  Api.get_books_by_query "fiction" "" 40 0 0 3
    [too_many_requests; too_many_requests; too_many_requests; too_many_requests] =
  (inr None, [],
   retries (api_request "fiction" "" 40 0) 1 3
     ++ [EvRequest (api_request "fiction" "" 40 0); EvLog ERROR]).
Proof.
  refine (proj2 (backoff_schedule "fiction" "" 40 0 3 4
           [too_many_requests; too_many_requests; too_many_requests; too_many_requests] []
           _) eq_refl).
  repeat (econstructor; [reflexivity | reflexivity |]). constructor.
Defined.



(** A 403 answer to a request with a key, at the end of the retry budget:
    the attempt without the key is made and its document is returned. *)
Lemma forbidden_key_one_keyless_attempt_witness :
  exists logs,
    Forall is_log logs
    /\ Api.get_books_by_query "fiction" "KEY" 40 0 3 3
         [forbidden; inr {| status_code := 200; content := JsonBody one_volume |}] =
       (inr (Some one_volume), [],
        [EvRequest (api_request "fiction" "KEY" 40 0); EvLog WARNING;
         EvRequest (keyless_request "fiction" "KEY" 40 0)] ++ logs)
    /\ params (keyless_request "fiction" "KEY" 40 0) !! "key" = None.
Proof.
  exact (forbidden_key_one_keyless_attempt "fiction" "KEY" 40 0 3 3
           [forbidden; inr {| status_code := 200; content := JsonBody one_volume |}]
           {| status_code := 403; content := OtherBody |}
           [inr {| status_code := 200; content := JsonBody one_volume |}]
           eq_refl eq_refl eq_refl).
Defined.

(** ** The runs of the API driver *)

Module ApiSound.

Import Api ApiRun.

Section Sound.

Context {W : Type} `{World W}.

Local Abbreviation wp := (wp (W := W)).

Local Abbreviation fetched_by := (fetched_by (W := W)).

(** The fetches of the driver: the calls that its page loop makes, from any

    world. *)

Lemma for_items_run l : forall s (w : W),
  for_items l s w = (inr (items_state l s), w, items_trace l s).
Proof.
  induction l as [| item l IH]; intros s w; [reflexivity |].
  cbn [for_items items_state items_trace]. unfold bind at 1, add_item.
  destruct (is_new (parse_book_data item) s).
  - unfold bind, emit, ret. rewrite IH. reflexivity.
  - unfold ret at 1. rewrite IH. reflexivity.
Qed.

Lemma api_save_sound (due : bool) records (w : W) :
  wp (if due then save records else ret tt) w (fun _ _ t => save_trace due records t).
Proof.
  destruct due; [| apply wp_ret; reflexivity].
  destruct (save_run (save records) (DataFrame_of records) w eq_refl) as (w' & lvl & E).
  eapply wp_eq; [exact E |]. exists lvl. reflexivity.
Qed.

Lemma api_load_run output_file (w : W) :
  exists t, load output_file w = (inr (loaded output_file), w, t) /\ Forall is_log t.
Proof.
  unfold load, loaded.
  destruct output_file as [[| | df] |];
    try (exists []; split; [reflexivity | constructor]).
  - eexists. split; [reflexivity | repeat constructor].
  - cbn [path_exists]. unfold bind at 1, log at 1, emit at 1, try_except, bind at 1, read_csv.
    destruct (decide (columns df = ∅)).
    + eexists. split; [reflexivity | repeat constructor].
    + unfold ret at 1. destruct (decide ("id" ∈ columns df)).
      * eexists. split; [reflexivity | repeat constructor].
      * eexists. split; [reflexivity | repeat constructor].
Qed.

Lemma api_pages_sound api_key max_books_per_query output_file query fuel :
  forall start_index request_count s (w : W),
  max_requests <= request_count + Z.of_nat fuel ->
  wp (pages fuel query api_key max_books_per_query output_file
        start_index request_count s) w
     (fun s' _ t =>
        pages_run (fetched_by api_key) max_books_per_query output_file query
          start_index request_count s s' t).
Proof.
  induction fuel as [| fuel IH]; intros start_index request_count s w Hfuel.
  - apply wp_ret. apply pages_exit.
    apply andb_false_iff. right. apply Z.ltb_ge. lia.
  - cbn [pages].
    destruct ((start_index <? max_books_per_query) && (request_count <? max_requests))
      eqn:Hcond; [| apply wp_ret; apply pages_exit; assumption].
    apply wp_bind, wp_emit, wp_bind.
    destruct (get_books_by_query_total query api_key 40 start_index 0 3 w)
      as (result & w1 & t_fetch & Efetch & _).
    eapply wp_eq; [exact Efetch |].
    assert (Hfetched : fetched_by api_key query start_index result t_fetch)
      by (exists w, w1; exact Efetch).
    apply wp_bind, wp_emit.
    destruct (result_items result) as [[| item rest] |] eqn:Eitems.
    + apply wp_bind, wp_emit, wp_ret.
      rewrite app_nil_r.
      rewrite <- Eitems.
      apply (pages_stop _ _ _ _ _ _ _ result); try assumption.
      intros item rest. rewrite Eitems. discriminate.
    + apply wp_bind. eapply wp_eq; [apply for_items_run |].
      apply wp_bind, wp_emit, wp_bind.
      eapply wp_mono; [apply api_save_sound |]. intros [] w2 t_save Hsave.
      eapply wp_mono; [apply IH; lia |]. intros s' w3 t_rest Hrest.
      apply (pages_step _ _ _ _ _ _ _ result); try assumption.
    + apply wp_bind, wp_emit, wp_ret.
      rewrite app_nil_r.
      rewrite <- Eitems.
      apply (pages_stop _ _ _ _ _ _ _ result); try assumption.
      intros item rest. rewrite Eitems. discriminate.
Qed.

Lemma for_queries_sound api_key max_books_per_query output_file queries :
  forall s (w : W),
  wp (for_queries queries api_key max_books_per_query output_file s) w
     (fun s' _ t =>
        queries_run (fetched_by api_key) max_books_per_query output_file queries s s' t).
Proof.
  induction queries as [| query queries IH]; intros s w.
  - apply wp_ret. constructor.
  - cbn [for_queries]. apply wp_bind, wp_emit, wp_bind.
    eapply wp_mono; [apply api_pages_sound; unfold max_requests; lia |].
    intros s1 w1 t_pages Hpages.
    apply wp_bind, wp_emit, wp_bind.
    eapply wp_mono; [apply api_save_sound |]. intros [] w2 t_save Hsave.
    apply wp_bind, wp_emit.
    eapply wp_mono; [apply IH |]. intros s' w3 t_rest Hrest.
    eapply queries_cons; [exact Hpages | exact Hsave | exact Hrest].
Qed.

(** [collect] returns, and what it does is a run of the driver. *)
Lemma collect_sound api_key queries max_books_per_query output_file (w : W) :
  wp (collect api_key queries max_books_per_query output_file) w
     (fun s' _ t =>
        collect_run (fetched_by api_key) max_books_per_query output_file queries s' t).
Proof.
  unfold collect. apply wp_bind.
  destruct (api_load_run output_file w) as (t_load & Eload & Hlogs).
  eapply wp_eq; [exact Eload |].
  apply wp_bind, wp_emit.
  eapply wp_mono; [apply for_queries_sound |]. intros s' w1 t_queries Hq.
  cbn [fst snd]. constructor; assumption.
Qed.

End Sound.

End ApiSound.

(** ** The runs of the scraper *)

Module ScraperSound.

Import Scraper ScraperRun.

Section Sound.

Context {W : Type} `{World W}.

Local Abbreviation wp := (wp (W := W)).

Local Abbreviation fetched_by := (fetched_by (W := W)).

(** The fetches of the driver: the calls that its page loop makes, from any

    world. *)

Lemma for_books_run books min_books : forall s n (w : W),
  for_books books min_books s n w =
    (inr (books_state books min_books s n), w, books_trace books min_books s).
Proof.
  induction books as [| book_elem books IH]; intros s n w; [reflexivity |].
  cbn [for_books books_state books_trace].
  destruct (min_books <=? buffer_len s); [reflexivity |].
  destruct (parse_book_from_listing book_elem) as [book_data |]; [| apply IH].
  destruct (is_new book_data s); [| apply IH].
  unfold bind, emit. rewrite IH. reflexivity.
Qed.

Lemma scraper_save_sound (due : bool) records (w : W) :
  wp (if due then save records else ret tt) w (fun _ _ t => save_trace due records t).
Proof.
  destruct due; [| apply wp_ret; reflexivity].
  destruct (save_run (save records) (DataFrame_of records) w eq_refl) as (w' & lvl & E).
  eapply wp_eq; [exact E |]. exists lvl. reflexivity.
Qed.

Lemma scraper_load_run output_file (w : W) :
  exists t, load output_file w = (inr (loaded output_file), w, t) /\ Forall is_log t.
Proof.
  unfold load, loaded.
  destruct output_file as [[| | df] |];
    try (exists []; split; [reflexivity | constructor]).
  - eexists. split; [reflexivity | repeat constructor].
  - cbn [path_exists]. unfold bind at 1, log at 1, emit at 1, try_except, bind at 1, read_csv.
    destruct (decide (columns df = ∅)).
    + eexists. split; [reflexivity | repeat constructor].
    + eexists. split; [reflexivity | repeat constructor].
Qed.

Lemma scraper_pages_sound min_books output_file query fuel :
  forall start_index empty_pages s (w : W),
  max_index <= start_index + items_per_page * Z.of_nat fuel ->
  wp (pages fuel query min_books output_file start_index empty_pages s) w
     (fun s' _ t =>
        pages_run fetched_by min_books output_file query
          start_index empty_pages s s' t).
Proof.
  induction fuel as [| fuel IH]; intros start_index empty_pages s w Hfuel.
  - apply wp_ret. apply pages_exit.
    apply andb_false_iff. left. apply Z.ltb_ge. lia.
  - cbn [pages].
    destruct ((start_index <? max_index) && (buffer_len s <? min_books))
      eqn:Hcond; [| apply wp_ret; apply pages_exit; assumption].
    apply wp_bind, wp_emit, wp_bind.
    destruct (get_page_total (search_url query start_index) 0 3 w)
      as (page & w1 & t_fetch & Efetch & _).
    eapply wp_eq; [exact Efetch |].
    assert (Hfetched : fetched_by query start_index page t_fetch)
      by (exists w, w1; exact Efetch).
    apply wp_bind, wp_emit.
    destruct page as [page |].
    2: { apply wp_bind, wp_emit, wp_ret. rewrite app_nil_r.
         apply pages_fail; assumption. }
    destruct (booklinks page) as [| book_elem books] eqn:Ebooks.
    { apply wp_bind, wp_emit, wp_ret. rewrite app_nil_r.
      cbn [fmap option_fmap option_map]. rewrite Ebooks.
      apply (pages_empty _ _ _ _ _ _ _ page); assumption. }
    rewrite <- Ebooks.
    assert (Hne : booklinks page <> []) by (rewrite Ebooks; discriminate).
    apply wp_bind. eapply wp_eq; [apply for_books_run |].
    cbn [fst snd].
    apply wp_bind, wp_emit.
    destruct (((books_state (booklinks page) min_books s 0).2 =? 0)
              && (max_empty_pages <=?
                    (if (books_state (booklinks page) min_books s 0).2 =? 0
                     then empty_pages + 1 else 0))) eqn:Estreak.
    + apply wp_bind, wp_emit, wp_ret. rewrite app_nil_r.
      apply andb_true_iff in Estreak as [Ezero Emax].
      rewrite Ezero in Emax. apply Z.eqb_eq in Ezero. apply Z.leb_le in Emax.
      apply (pages_streak _ _ _ _ _ _ _ page); assumption.
    + apply wp_bind.
      eapply wp_mono; [apply scraper_save_sound |]. intros [] w2 t_save Hsave.
      apply wp_bind, wp_emit.
      eapply wp_mono; [apply IH; unfold items_per_page in *; lia |].
      intros s' w3 t_rest Hrest.
      apply (pages_step _ _ _ _ _ _ _ page); try assumption.
      apply andb_false_iff in Estreak as [Ezero | Emax].
      * left. apply Z.eqb_neq. assumption.
      * destruct ((books_state (booklinks page) min_books s 0).2 =? 0) eqn:Ez.
        -- right. apply Z.leb_gt in Emax. assumption.
        -- left. apply Z.eqb_neq. assumption.
Qed.

Lemma for_categories_sound min_books output_file queries :
  forall s (w : W),
  wp (for_categories queries min_books output_file s) w
     (fun s' _ t =>
        categories_run fetched_by min_books output_file queries s s' t).
Proof.
  induction queries as [| query queries IH]; intros s w.
  - apply wp_ret. constructor.
  - cbn [for_categories].
    destruct (min_books <=? buffer_len s) eqn:Edone.
    + apply wp_ret. apply categories_break. apply Z.leb_le. assumption.
    + apply wp_bind, wp_emit, wp_bind.
      eapply wp_mono;
        [apply scraper_pages_sound; unfold max_index, items_per_page, pages_fuel; lia |].
      intros s1 w1 t_pages Hpages.
      apply wp_bind, wp_emit, wp_bind, wp_emit.
      eapply wp_mono; [apply IH |]. intros s' w3 t_rest Hrest.
      eapply categories_cons; [apply Z.leb_gt; exact Edone | exact Hpages | exact Hrest].
Qed.

(** [scrape] returns, and what it does is a run of the driver. *)
Lemma scrape_sound min_books output_file (w : W) :
  wp (scrape min_books output_file) w
     (fun s' _ t => scrape_run fetched_by min_books output_file s' t).
Proof.
  unfold scrape. apply wp_bind.
  destruct (scraper_load_run output_file w) as (t_load & Eload & Hlogs).
  eapply wp_eq; [exact Eload |].
  apply wp_bind, wp_emit, wp_bind, wp_emit, wp_bind, wp_emit.
  eapply wp_mono; [apply for_categories_sound |]. intros s' w1 t_categories Hq.
  constructor; assumption.
Qed.

End Sound.

End ScraperSound.

(** ** The buffer and the seen set *)

Lemma synced_intro key buffer (seen : gset value) :
  NoDup (keys_of key buffer) -> seen = list_to_set (keys_of key buffer) ->
  synced key buffer seen.
Proof.
  intros Hnd ->. repeat split.
  - intros r Hr. apply elem_of_list_to_set. unfold keys_of.
    apply list_elem_of_fmap. eauto.
  - intros k Hk. apply elem_of_list_to_set in Hk. unfold keys_of in Hk.
    apply list_elem_of_fmap in Hk as (r & -> & Hr). eauto.
  - assumption.
  - rewrite size_list_to_set by assumption. unfold keys_of. rewrite length_fmap. reflexivity.
Qed.

Lemma synced_seen key buffer (seen : gset value) :
  synced key buffer seen -> seen = list_to_set (keys_of key buffer).
Proof.
  intros (Hin & Hout & _ & _). apply set_eq. intros k. rewrite elem_of_list_to_set.
  unfold keys_of. rewrite list_elem_of_fmap. split.
  - intros (r & Hr & <-)%Hout. eauto.
  - intros (r & -> & Hr). auto.
Qed.

Lemma synced_nil key : synced key [] ∅.
Proof. apply synced_intro; [constructor | reflexivity]. Qed.

Lemma synced_snoc key buffer (seen : gset value) r :
  synced key buffer seen -> get r key ∉ seen ->
  synced key (buffer ++ [r]) ({[get r key]} ∪ seen).
Proof.
  intros Hs Hnew. pose proof (synced_seen _ _ _ Hs) as Eseen.
  destruct Hs as (_ & _ & Hnd & _).
  apply synced_intro; unfold keys_of in *; rewrite fmap_app; cbn [fmap list_fmap].
  - apply NoDup_app. repeat split; [assumption | | apply NoDup_singleton].
    intros k Hk ->%list_elem_of_singleton. apply Hnew. rewrite Eseen.
    apply elem_of_list_to_set. assumption.
  - rewrite list_to_set_app_L, Eseen. cbn [list_to_set foldr].
    rewrite union_empty_r_L. apply union_comm_L.
Qed.

Lemma fetch_event_no_snapshot least e : fetch_event least e -> snapshot e = None.
Proof. destruct e; cbn; try reflexivity; intros []. Qed.

Lemma is_log_no_snapshot e : is_log e -> snapshot e = None.
Proof. destruct e; cbn; try reflexivity; intros []. Qed.

Lemma no_snapshot_synced key t :
  Forall (fun e => snapshot e = None) t -> snapshots_synced key t.
Proof.
  intros Hno. eapply Forall_impl; [exact Hno |].
  intros e He b sn Hsnap. congruence.
Qed.

Lemma save_trace_no_snapshot due records t :
  save_trace due records t -> Forall (fun e => snapshot e = None) t.
Proof.
  unfold save_trace. destruct due; [intros (lvl & ->) | intros ->]; repeat constructor.
Qed.

Module ApiInv.

Import Api ApiRun ApiSound.

Lemma items_synced l : forall s,
  synced "id" (all_books s) (seen_ids s) ->
  synced "id" (all_books (items_state l s)) (seen_ids (items_state l s))
  /\ snapshots_synced "id" (items_trace l s).
Proof.
  induction l as [| item l IH]; intros s Hs; cbn [items_state items_trace].
  - split; [assumption | constructor].
  - destruct (is_new (parse_book_data item) s) eqn:Enew; [| apply IH; assumption].
    assert (Hs' : synced "id" (all_books (admitted (parse_book_data item) s))
                    (seen_ids (admitted (parse_book_data item) s))).
    { unfold is_new in Enew. apply andb_true_iff in Enew as [_ Hfresh].
      apply bool_decide_eq_true in Hfresh.
      cbn [admitted all_books seen_ids]. apply synced_snoc; assumption. }
    destruct (IH _ Hs') as [Hend Htrace]. split; [assumption |].
    constructor; [| assumption].
    intros b sn [= <- <-]. assumption.
Qed.

Section Runs.

Variable fetched : string -> Z -> option json_doc -> list event -> Prop.

Variable max_books_per_query : Z.

Variable output_file : option file_state.

Hypothesis fetched_events :
  forall query start result t,
    fetched query start result t -> Forall (fetch_event 60) t.

Lemma api_fetched_no_snapshot query start result t :
  fetched query start result t -> Forall (fun e => snapshot e = None) t.
Proof.
  intros Hf%fetched_events. eapply Forall_impl; [exact Hf |].
  intros e. apply fetch_event_no_snapshot.
Qed.

Lemma api_pages_synced query start request_count s s' t :
  pages_run fetched max_books_per_query output_file query start request_count s s' t ->
  synced "id" (all_books s) (seen_ids s) ->
  synced "id" (all_books s') (seen_ids s') /\ snapshots_synced "id" t.
Proof.
  induction 1 as [ | start rc s result t_fetch Hc Hf Hno
                   | start rc s result t_fetch item rest t_save s' t_rest
                       Hc Hf Hitems Hsave Hrest IH ]; intros Hs.
  - split; [assumption | constructor].
  - split; [assumption |]. apply no_snapshot_synced.
    repeat (apply Forall_app; split); try (repeat constructor).
    eapply api_fetched_no_snapshot; eassumption.
  - destruct (items_synced (item :: rest) s Hs) as [Hs1 Ht1].
    destruct (IH Hs1) as [Hs' Ht']. split; [assumption |].
    unfold snapshots_synced.
    repeat (apply Forall_app; split); try assumption;
      try solve [apply no_snapshot_synced; repeat constructor].
    + apply no_snapshot_synced. eapply api_fetched_no_snapshot; eassumption.
    + apply no_snapshot_synced. eapply save_trace_no_snapshot; eassumption.
Qed.

Lemma queries_synced queries s s' t :
  queries_run fetched max_books_per_query output_file queries s s' t ->
  synced "id" (all_books s) (seen_ids s) ->
  synced "id" (all_books s') (seen_ids s') /\ snapshots_synced "id" t.
Proof.
  induction 1 as [ | query queries s s1 t_pages t_save s' t_rest Hp Hsave Hrest IH ];
    intros Hs.
  - split; [assumption | constructor].
  - destruct (api_pages_synced _ _ _ _ _ _ Hp Hs) as [Hs1 Htp].
    destruct (IH Hs1) as [Hs' Ht']. split; [assumption |].
    unfold snapshots_synced.
    repeat (apply Forall_app; split); try assumption;
      try solve [apply no_snapshot_synced; repeat constructor].
    apply no_snapshot_synced. eapply save_trace_no_snapshot; eassumption.
Qed.

Lemma collect_synced queries s' t :
  collect_run fetched max_books_per_query output_file queries s' t ->
  synced "id" (loaded output_file).1 (loaded output_file).2 ->
  synced "id" (all_books s') (seen_ids s') /\ snapshots_synced "id" t.
Proof.
  intros [t_load s1 t_queries Hlogs Hq] Hs.
  destruct (queries_synced _ _ _ _ Hq Hs) as [Hs' Ht']. split; [assumption |].
  unfold snapshots_synced. repeat (apply Forall_app; split); try assumption.
  - apply no_snapshot_synced. eapply Forall_impl; [exact Hlogs |].
    intros e. apply is_log_no_snapshot.
  - constructor; [| constructor]. intros b sn [= <- <-]. assumption.
Qed.

End Runs.

End ApiInv.

Module ScraperInv.

Import Scraper ScraperRun ScraperSound.

Lemma books_synced books min_books : forall s n,
  synced "title" (all_books s) (seen_titles s) ->
  synced "title" (all_books (books_state books min_books s n).1)
    (seen_titles (books_state books min_books s n).1)
  /\ snapshots_synced "title" (books_trace books min_books s).
Proof.
  induction books as [| book_elem books IH]; intros s n Hs;
    cbn [books_state books_trace].
  - split; [assumption | constructor].
  - destruct (min_books <=? buffer_len s); [split; [assumption | constructor] |].
    destruct (parse_book_from_listing book_elem) as [book_data |]; [| apply IH; assumption].
    destruct (is_new book_data s) eqn:Enew; [| apply IH; assumption].
    assert (Hs' : synced "title" (all_books (admitted book_data s))
                    (seen_titles (admitted book_data s))).
    { unfold is_new in Enew. apply andb_true_iff in Enew as [_ Hfresh].
      apply bool_decide_eq_true in Hfresh.
      cbn [admitted all_books seen_titles]. apply synced_snoc; assumption. }
    destruct (IH _ (n + 1) Hs') as [Hend Htrace]. split; [assumption |].
    constructor; [| assumption].
    intros b sn [= <- <-]. assumption.
Qed.

Section Runs.

Variable fetched : string -> Z -> option soup -> list event -> Prop.

Variable min_books : Z.

Variable output_file : option file_state.

Hypothesis fetched_events :
  forall query start page t,
    fetched query start page t -> Forall (fetch_event 1) t.

Lemma scraper_fetched_no_snapshot query start page t :
  fetched query start page t -> Forall (fun e => snapshot e = None) t.
Proof.
  intros Hf%fetched_events. eapply Forall_impl; [exact Hf |].
  intros e. apply fetch_event_no_snapshot.
Qed.

Lemma scraper_pages_synced query start empty_pages s s' t :
  pages_run fetched min_books output_file query start empty_pages s s' t ->
  synced "title" (all_books s) (seen_titles s) ->
  synced "title" (all_books s') (seen_titles s') /\ snapshots_synced "title" t.
Proof.
  induction 1 as [ | start c s t_fetch Hc Hf
                   | start c s page t_fetch Hc Hf Hnil
                   | start c s page t_fetch Hc Hf Hne Hzero Hmax
                   | start c s page t_fetch t_save s' t_rest Hc Hf Hne Hgo Hsave Hrest IH ];
    intros Hs.
  - split; [assumption | constructor].
  - split; [assumption |]. apply no_snapshot_synced.
    repeat (apply Forall_app; split); try (repeat constructor).
    eapply scraper_fetched_no_snapshot; eassumption.
  - split; [assumption |]. apply no_snapshot_synced.
    repeat (apply Forall_app; split); try (repeat constructor).
    eapply scraper_fetched_no_snapshot; eassumption.
  - destruct (books_synced (booklinks page) min_books s 0 Hs) as [Hs1 Ht1].
    split; [assumption |]. unfold snapshots_synced.
    repeat (apply Forall_app; split); try assumption;
      try solve [apply no_snapshot_synced; repeat constructor].
    apply no_snapshot_synced. eapply scraper_fetched_no_snapshot; eassumption.
  - destruct (books_synced (booklinks page) min_books s 0 Hs) as [Hs1 Ht1].
    destruct (IH Hs1) as [Hs' Ht']. split; [assumption |].
    unfold snapshots_synced.
    repeat (apply Forall_app; split); try assumption;
      try solve [apply no_snapshot_synced; repeat constructor].
    + apply no_snapshot_synced. eapply scraper_fetched_no_snapshot; eassumption.
    + apply no_snapshot_synced. eapply save_trace_no_snapshot; eassumption.
Qed.

Lemma categories_synced queries s s' t :
  categories_run fetched min_books output_file queries s s' t ->
  synced "title" (all_books s) (seen_titles s) ->
  synced "title" (all_books s') (seen_titles s') /\ snapshots_synced "title" t.
Proof.
  induction 1 as [ | | query queries s s1 t_pages s' t_rest Hlt Hp Hrest IH ]; intros Hs.
  - split; [assumption | constructor].
  - split; [assumption | constructor].
  - destruct (scraper_pages_synced _ _ _ _ _ _ Hp Hs) as [Hs1 Htp].
    destruct (IH Hs1) as [Hs' Ht']. split; [assumption |].
    unfold snapshots_synced.
    repeat (apply Forall_app; split); try assumption;
      try solve [apply no_snapshot_synced; repeat constructor].
Qed.

Lemma scrape_synced s' t :
  scrape_run fetched min_books output_file s' t ->
  synced "title" (loaded output_file) (titles_of (loaded output_file)) ->
  synced "title" (all_books s') (seen_titles s') /\ snapshots_synced "title" t.
Proof.
  intros [t_load s1 t_categories Hlogs Hq] Hs.
  destruct (categories_synced _ _ _ _ Hq Hs) as [Hs' Ht']. split; [assumption |].
  unfold snapshots_synced. repeat (apply Forall_app; split); try assumption;
    try solve [apply no_snapshot_synced; repeat constructor].
  - apply no_snapshot_synced. eapply Forall_impl; [exact Hlogs |].
    intros e. apply is_log_no_snapshot.
  - constructor; [| constructor]. intros b sn [= <- <-]. assumption.
Qed.

End Runs.

End ScraperInv.

(** *** Checkpoints *)

Lemma get_on_columns cols d k :
  k ∈ cols -> get (on_columns cols d) k = get d k.
Proof.
  intros Hk. unfold get at 1, on_columns.
  assert (E : (set_to_map (fun k => (k, get d k)) cols : gmap string value) !! k
              = Some (get d k)).
  { apply lookup_set_to_map; [intros y y' _ _ Hy; exact Hy |]. eauto. }
  rewrite E. reflexivity.
Qed.

Lemma get_on_columns_out cols d k :
  k ∉ cols -> get (on_columns cols d) k = VNone.
Proof.
  intros Hk. unfold get at 1, on_columns.
  destruct ((set_to_map (fun k => (k, get d k)) cols : gmap string value) !! k)
    as [v |] eqn:E; [| reflexivity].
  apply lookup_set_to_map in E as (y & Hy & [= -> _]); [| intros y y' _ _ Hy; exact Hy].
  contradiction.
Qed.

Lemma dom_on_columns cols d : dom (on_columns cols d) = cols.
Proof.
  apply set_eq. intros k. rewrite elem_of_dom. unfold on_columns. split.
  - intros [v (y & Hy & [= -> _])%lookup_set_to_map]; [assumption |].
    intros y y' _ _ E; exact E.
  - intros Hk. exists (get d k). apply lookup_set_to_map; [intros y y' _ _ E; exact E |].
    eauto.
Qed.

Lemma keys_to_dict_records df k :
  k ∈ columns df -> keys_of k (to_dict_records df) = keys_of k (rows df).
Proof.
  intros Hk. unfold keys_of, to_dict_records. rewrite <- list_fmap_compose.
  apply list_fmap_ext. intros i r _. cbn. apply get_on_columns. assumption.
Qed.

Lemma filter_all {A} (P : A -> Prop) `{forall x, Decision (P x)} (l : list A) :
  Forall P l -> filter P l = l.
Proof.
  induction 1 as [| x l Hx Hl IH]; [reflexivity |].
  rewrite filter_cons_True by assumption. f_equal. assumption.
Qed.

Lemma truthy_not_None v : truthy v = true -> v <> VNone.
Proof. intros Hv ->. discriminate. Qed.

Lemma api_loaded_synced output_file :
  (forall df, output_file = Some (Csv df) -> "id" ∈ columns df ->
     keyed "id" (to_dict_records df)) ->
  synced "id" (ApiRun.loaded output_file).1 (ApiRun.loaded output_file).2.
Proof.
  intros Hwf. unfold ApiRun.loaded.
  destruct output_file as [[| | df] |]; try apply synced_nil.
  destruct (decide (columns df = ∅)); [apply synced_nil |].
  destruct (decide ("id" ∈ columns df)) as [Hid |]; [| apply synced_nil].
  destruct (Hwf df eq_refl Hid) as [Hnd Hkeys]. cbn [fst snd].
  apply synced_intro; [assumption |].
  unfold column_values. rewrite keys_to_dict_records by assumption.
  f_equal. apply filter_all.
  rewrite <- (keys_to_dict_records df "id" Hid). unfold keys_of.
  apply Forall_fmap. eapply Forall_impl; [exact Hkeys |].
  intros r Hr. cbn. apply truthy_not_None. assumption.
Qed.

Lemma scraper_loaded_synced output_file :
  (forall df, output_file = Some (Csv df) -> columns df <> ∅ ->
     keyed "title" (to_dict_records df)) ->
  synced "title" (ScraperRun.loaded output_file)
    (Scraper.titles_of (ScraperRun.loaded output_file)).
Proof.
  intros Hwf. unfold ScraperRun.loaded.
  destruct output_file as [[| | df] |]; try apply synced_nil.
  destruct (decide (columns df = ∅)) as [| Hcols]; [apply synced_nil |].
  destruct (Hwf df eq_refl Hcols) as [Hnd Hkeys].
  apply synced_intro; [assumption |].
  unfold Scraper.titles_of. f_equal. unfold keys_of. apply filter_all.
  apply Forall_fmap. eapply Forall_impl; [exact Hkeys |]. intros r Hr. exact Hr.
Qed.

(** ** Cursors and the overall target *)

Lemma page_fetches_app t1 t2 :
  page_fetches (t1 ++ t2) = page_fetches t1 ++ page_fetches t2.
Proof. apply omap_app. Qed.

Lemma page_fetches_none t : Forall not_page t -> page_fetches t = [].
Proof.
  induction 1 as [| e t He _ IH]; [reflexivity |].
  destruct e; cbn in *; try assumption. contradiction.
Qed.

Lemma fetch_event_not_page least e : fetch_event least e -> not_page e.
Proof. destruct e; cbn; auto. Qed.

Lemma save_trace_not_page due records t : save_trace due records t -> Forall not_page t.
Proof.
  unfold save_trace. destruct due; [intros (lvl & ->) | intros ->]; repeat constructor.
Qed.

Lemma is_log_not_page e : is_log e -> not_page e.
Proof. destruct e; cbn; auto. Qed.

Lemma api_items_not_page l : forall s, Forall not_page (ApiRun.items_trace l s).
Proof.
  induction l as [| item l IH]; intros s; cbn [ApiRun.items_trace]; [constructor |].
  destruct (Api.is_new _ s); [constructor; [exact I | apply IH] | apply IH].
Qed.

Lemma scraper_books_not_page books min_books :
  forall s, Forall not_page (ScraperRun.books_trace books min_books s).
Proof.
  induction books as [| b books IH]; intros s; cbn [ScraperRun.books_trace]; [constructor |].
  destruct (min_books <=? Scraper.buffer_len s); [constructor |].
  destruct (Scraper.parse_book_from_listing b); [| apply IH].
  destruct (Scraper.is_new _ s); [constructor; [exact I | apply IH] | apply IH].
Qed.

Ltac page_fetches_simpl :=
  repeat rewrite page_fetches_app;
  repeat match goal with
    | |- context [page_fetches [EvLog ?l]] => change (page_fetches [EvLog l]) with (@nil (Z * option nat))
    | |- context [page_fetches [EvSleep ?q]] => change (page_fetches [EvSleep q]) with (@nil (Z * option nat))
    end;
  cbn [app].

Section ApiCursor.

Variable fetched : string -> Z -> option json_doc -> list event -> Prop.

Variable max_books_per_query : Z.

Variable output_file : option file_state.

Hypothesis fetched_events :
  forall query start result t,
    fetched query start result t -> Forall (fetch_event 60) t.

Lemma api_fetched_no_page query start result t :
  fetched query start result t -> page_fetches t = [].
Proof.
  intros Hf%fetched_events. apply page_fetches_none.
  eapply Forall_impl; [exact Hf |]. intros e. apply fetch_event_not_page.
Qed.

Lemma api_pages_cursor query start request_count s s' t :
  ApiRun.pages_run fetched max_books_per_query output_file query
    start request_count s s' t ->
  cursor_chain start (page_fetches t).
Proof.
  induction 1 as [ | start rc s result t_fetch Hc Hf Hno
                   | start rc s result t_fetch item rest t_save s' t_rest
                       Hc Hf Hitems Hsave Hrest IH ].
  - exact I.
  - page_fetches_simpl. rewrite (api_fetched_no_page _ _ _ _ Hf).
    cbn. split; [reflexivity | left; reflexivity].
  - page_fetches_simpl. rewrite (api_fetched_no_page _ _ _ _ Hf).
    rewrite (page_fetches_none _ (api_items_not_page _ _)).
    rewrite (page_fetches_none _ (save_trace_not_page _ _ _ Hsave)).
    cbn [app page_fetches omap]. cbn. split; [reflexivity |].
    right. exists (S (length rest)). split; [reflexivity |]. split; [lia |].
    exact IH.
Qed.

Lemma api_queries_cursor queries s s' t :
  ApiRun.queries_run fetched max_books_per_query output_file queries s s' t ->
  exists chains,
    page_fetches t = concat chains
    /\ length chains = length queries
    /\ Forall (cursor_chain 0) chains.
Proof.
  induction 1 as [ | query queries s s1 t_pages t_save s' t_rest Hp Hsave Hrest IH ].
  - exists []. repeat split. constructor.
  - destruct IH as (chains & Echains & Hlen & Hall).
    exists (page_fetches t_pages :: chains). split; [| split].
    + page_fetches_simpl.
      rewrite (page_fetches_none _ (save_trace_not_page _ _ _ Hsave)).
      cbn [app concat]. rewrite Echains. reflexivity.
    + cbn [length]. rewrite Hlen. reflexivity.
    + constructor; [| assumption]. eapply api_pages_cursor. eassumption.
Qed.

Lemma api_collect_cursor queries s' t :
  ApiRun.collect_run fetched max_books_per_query output_file queries s' t ->
  exists chains,
    page_fetches t = concat chains
    /\ length chains = length queries
    /\ Forall (cursor_chain 0) chains.
Proof.
  intros [t_load s1 t_queries Hlogs Hq].
  destruct (api_queries_cursor _ _ _ _ Hq) as (chains & Echains & Hlen & Hall).
  exists chains. split; [| split; assumption].
  rewrite !page_fetches_app. rewrite page_fetches_none.
  - cbn. assumption.
  - eapply Forall_impl; [exact Hlogs |]. intros e. apply is_log_not_page.
Qed.

End ApiCursor.

Section ScraperCursor.

Variable fetched : string -> Z -> option soup -> list event -> Prop.

Variable min_books : Z.

Variable output_file : option file_state.

Hypothesis fetched_events :
  forall query start page t,
    fetched query start page t -> Forall (fetch_event 1) t.

Lemma scraper_fetched_no_page query start page t :
  fetched query start page t -> page_fetches t = [].
Proof.
  intros Hf%fetched_events. apply page_fetches_none.
  eapply Forall_impl; [exact Hf |]. intros e. apply fetch_event_not_page.
Qed.

Lemma scraper_pages_cursor query start empty_pages s s' t :
  ScraperRun.pages_run fetched min_books output_file query start empty_pages s s' t ->
  stride_chain Scraper.items_per_page start (page_fetches t).
Proof.
  induction 1 as [ | start c s t_fetch Hc Hf
                   | start c s page t_fetch Hc Hf Hnil
                   | start c s page t_fetch Hc Hf Hne Hzero Hmax
                   | start c s page t_fetch t_save s' t_rest Hc Hf Hne Hgo Hsave Hrest IH ].
  - exact I.
  - page_fetches_simpl. rewrite (scraper_fetched_no_page _ _ _ _ Hf).
    cbn. split; reflexivity.
  - page_fetches_simpl. rewrite (scraper_fetched_no_page _ _ _ _ Hf).
    cbn. split; reflexivity.
  - page_fetches_simpl. rewrite (scraper_fetched_no_page _ _ _ _ Hf).
    rewrite (page_fetches_none _ (scraper_books_not_page _ _ _)).
    cbn. split; reflexivity.
  - page_fetches_simpl. rewrite (scraper_fetched_no_page _ _ _ _ Hf).
    rewrite (page_fetches_none _ (scraper_books_not_page _ _ _)).
    rewrite (page_fetches_none _ (save_trace_not_page _ _ _ Hsave)).
    cbn [app page_fetches omap]. cbn. split; [reflexivity | exact IH].
Qed.

Lemma scraper_categories_cursor queries s s' t :
  ScraperRun.categories_run fetched min_books output_file queries s s' t ->
  exists chains,
    page_fetches t = concat chains
    /\ (length chains <= length queries)%nat
    /\ Forall (stride_chain Scraper.items_per_page 1) chains.
Proof.
  induction 1 as [ | | query queries s s1 t_pages s' t_rest Hlt Hp Hrest IH ].
  - exists []. split; [reflexivity |]. split; [cbn; lia | constructor].
  - exists []. split; [reflexivity |]. split; [cbn; lia | constructor].
  - destruct IH as (chains & Echains & Hlen & Hall).
    exists (page_fetches t_pages :: chains). split; [| split].
    + rewrite !page_fetches_app. cbn [page_fetches omap app concat]. cbn.
      rewrite Echains. reflexivity.
    + cbn [length]. lia.
    + constructor; [| assumption]. eapply scraper_pages_cursor. eassumption.
Qed.

Lemma scraper_scrape_cursor s' t :
  ScraperRun.scrape_run fetched min_books output_file s' t ->
  exists chains,
    page_fetches t = concat chains
    /\ (length chains <= length Scraper.categories)%nat
    /\ Forall (stride_chain Scraper.items_per_page 1) chains.
Proof.
  intros [t_load s1 t_categories Hlogs Hq].
  destruct (scraper_categories_cursor _ _ _ _ Hq) as (chains & Echains & Hlen & Hall).
  exists chains. split; [| split; assumption].
  rewrite !page_fetches_app. rewrite page_fetches_none.
  - cbn. assumption.
  - eapply Forall_impl; [exact Hlogs |]. intros e. apply is_log_not_page.
Qed.

End ScraperCursor.

(** *** The overall target *)

Lemma halts_split min_books t :
  halts min_books t ->
  forall t1 e t2, t = t1 ++ e :: t2 -> reached min_books e -> Forall quiet_event t2.
Proof.
  intros Hh t1. revert t Hh. induction t1 as [| e1 t1 IH]; intros t Hh e t2 -> Hr.
  - apply Hh. assumption.
  - destruct Hh as [_ Hh]. eapply IH; [exact Hh | reflexivity | assumption].
Qed.

Lemma not_reached min_books t e :
  Forall (fun e => snapshot e = None) t -> e ∈ t -> ~ reached min_books e.
Proof.
  intros Hno He (b & sn & Hsnap & _).
  rewrite Forall_forall in Hno. rewrite (Hno e He) in Hsnap. discriminate.
Qed.

Lemma halts_quiet_prefix min_books pre t :
  Forall (fun e => snapshot e = None) pre -> halts min_books t -> halts min_books (pre ++ t).
Proof.
  induction 1 as [| e pre He Hpre IH]; intros Ht; [assumption |].
  cbn. split; [| apply IH; assumption].
  intros (b & sn & Hsnap & _). congruence.
Qed.

Lemma halts_no_snapshot min_books t :
  Forall (fun e => snapshot e = None) t -> halts min_books t.
Proof.
  intros Hno. rewrite <- (app_nil_r t). apply halts_quiet_prefix; [assumption | exact I].
Qed.

Lemma halts_app min_books ta tb :
  halts min_books ta -> halts min_books tb ->
  (forall e, e ∈ ta -> reached min_books e -> Forall quiet_event tb) ->
  halts min_books (ta ++ tb).
Proof.
  induction ta as [| e ta IH]; intros Ha Hb Hcross; [assumption |].
  destruct Ha as [He Ha]. cbn. split.
  - intros Hr. apply Forall_app. split; [apply He; assumption |].
    apply (Hcross e); [left | assumption].
  - apply IH; [assumption | assumption |].
    intros e' He' Hr. apply (Hcross e'); [right; assumption | assumption].
Qed.

Lemma save_trace_quiet due records t : save_trace due records t -> Forall quiet_event t.
Proof.
  unfold save_trace. destruct due; [intros (lvl & ->) | intros ->]; repeat constructor.
Qed.

Ltac split_stops := unfold stops; split; [| split; [| split]].

Module ScraperTarget.

Import Scraper ScraperRun ScraperSound.

Lemma books_stops books min_books : forall s n,
  stops min_books (buffer_len s) (buffer_len (books_state books min_books s n).1)
    (books_trace books min_books s).
Proof.
  induction books as [| book_elem books IH]; intros s n;
    cbn [books_state books_trace].
  - split_stops; [exact I | reflexivity | intros e He%elem_of_nil; contradiction | cbn [fst]; lia].
  - destruct (min_books <=? buffer_len s) eqn:Edone.
    { split_stops; [exact I | reflexivity | intros e He%elem_of_nil; contradiction | cbn [fst]; lia]. }
    apply Z.leb_gt in Edone.
    destruct (parse_book_from_listing book_elem) as [book_data |]; [| apply IH].
    destruct (is_new book_data s); [| apply IH].
    destruct (IH (admitted book_data s) (n + 1)) as (Hh & Hdone & Hreach & Hmono).
    assert (Hgrow : buffer_len s <= buffer_len (admitted book_data s)).
    { unfold buffer_len, admitted. cbn [all_books]. rewrite length_app. lia. }
    split_stops; [split | | |].
    + intros (b & sn & [= <- <-] & Hlen). rewrite Hdone; [constructor |]. exact Hlen.
    + exact Hh.
    + intros Hmin. lia.
    + intros e [-> | He]%elem_of_cons Hr; [| eapply Hreach; eassumption].
      destruct Hr as (b & sn & [= <- <-] & Hlen).
      change (all_books s ++ [book_data]) with (all_books (admitted book_data s)) in Hlen.
      unfold buffer_len in *. lia.
    + lia.
Qed.

Section Runs.

Variable fetched : string -> Z -> option soup -> list event -> Prop.

Variable min_books : Z.

Variable output_file : option file_state.

Hypothesis fetched_events :
  forall query start page t,
    fetched query start page t -> Forall (fetch_event 1) t.

Lemma cond_below start s :
  (start <? max_index) && (buffer_len s <? min_books) = true ->
  buffer_len s < min_books.
Proof. intros [_ Hlt%Z.ltb_lt]%andb_true_iff. assumption. Qed.

Lemma stops_plain len0 t :
  len0 < min_books -> Forall (fun e => snapshot e = None) t ->
  stops min_books len0 len0 t.
Proof.
  intros Hlt Hno. split_stops.
  - apply halts_no_snapshot. assumption.
  - lia.
  - intros e He Hr. exfalso. eapply not_reached; eassumption.
  - lia.
Qed.

Lemma pages_stops query start empty_pages s s' t :
  pages_run fetched min_books output_file query start empty_pages s s' t ->
  stops min_books (buffer_len s) (buffer_len s') t.
Proof.
  induction 1 as [ | start c s t_fetch Hc Hf
                   | start c s page t_fetch Hc Hf Hnil
                   | start c s page t_fetch Hc Hf Hne Hzero Hmax
                   | start c s page t_fetch t_save s' t_rest Hc Hf Hne Hgo Hsave Hrest IH ].
  - split_stops; [exact I | reflexivity | intros e He%elem_of_nil; contradiction | cbn [fst]; lia].
  - apply stops_plain; [eapply cond_below; eassumption |].
    repeat (apply Forall_app; split); try (repeat constructor).
    eapply ScraperInv.scraper_fetched_no_snapshot; eassumption.
  - apply stops_plain; [eapply cond_below; eassumption |].
    repeat (apply Forall_app; split); try (repeat constructor).
    eapply ScraperInv.scraper_fetched_no_snapshot; eassumption.
  - pose proof (cond_below _ _ Hc) as Hlt.
    destruct (books_stops (booklinks page) min_books s 0) as (Hh & Hdone & Hreach & Hmono).
    pose proof (ScraperInv.scraper_fetched_no_snapshot _ fetched_events _ _ _ _ Hf) as Hnof.
    split_stops.
    + rewrite !app_assoc. rewrite <- app_assoc.
      apply halts_quiet_prefix.
      { repeat (apply Forall_app; split); try assumption; repeat constructor. }
      apply halts_app; [assumption | apply halts_no_snapshot; repeat constructor |].
      intros e He Hr. repeat constructor.
    + intros Hmin. lia.
    + intros e He Hr. rewrite !elem_of_app in He.
      destruct He as [He | [He | [He | [He | He]]]].
      * exfalso. eapply (not_reached min_books [EvLog INFO]); [repeat constructor | |]; eassumption.
      * exfalso. eapply not_reached; eassumption.
      * exfalso. eapply (not_reached min_books [EvPage _ _ _]); [repeat constructor | |]; eassumption.
      * eapply Hreach; eassumption.
      * exfalso. eapply (not_reached min_books [EvLog INFO; EvLog INFO]);
          [repeat constructor | |]; eassumption.
    + assumption.
  - pose proof (cond_below _ _ Hc) as Hlt.
    destruct (books_stops (booklinks page) min_books s 0) as (Hh & Hdone & Hreach & Hmono).
    destruct IH as (Hh' & Hdone' & Hreach' & Hmono').
    pose proof (ScraperInv.scraper_fetched_no_snapshot _ fetched_events _ _ _ _ Hf) as Hnof.
    pose proof (save_trace_no_snapshot _ _ _ Hsave) as Hnos.
    pose proof (save_trace_quiet _ _ _ Hsave) as Hqs.
    split_stops.
    + rewrite !app_assoc. rewrite <- !app_assoc.
      rewrite (app_assoc [EvLog INFO]), (app_assoc _ [EvPage _ _ _]).
      apply halts_quiet_prefix.
      { repeat (apply Forall_app; split); try assumption; repeat constructor. }
      apply halts_app; [assumption | |].
      * rewrite (app_assoc [EvLog INFO]), (app_assoc _ [EvSleep _]).
        apply halts_quiet_prefix; [| assumption].
        repeat (apply Forall_app; split); try assumption; repeat constructor.
      * intros e He Hr. rewrite (Hdone' (Hreach e He Hr)), app_nil_r.
        repeat (apply Forall_app; split); try assumption; repeat constructor.
    + intros Hmin. lia.
    + intros e He Hr. rewrite !elem_of_app in He.
      destruct He as [He | [He | [He | [He | [He | [He | [He | He]]]]]]].
      * exfalso. eapply (not_reached min_books [EvLog INFO]); [repeat constructor | |]; eassumption.
      * exfalso. eapply (not_reached min_books t_fetch); eassumption.
      * exfalso. eapply (not_reached min_books [EvPage _ _ _]); [repeat constructor | |]; eassumption.
      * pose proof (Hreach e He Hr). lia.
      * exfalso. eapply (not_reached min_books [EvLog INFO]); [repeat constructor | |]; eassumption.
      * exfalso. eapply (not_reached min_books t_save); eassumption.
      * exfalso. eapply (not_reached min_books [EvSleep _]); [repeat constructor | |]; eassumption.
      * eapply Hreach'; eassumption.
    + lia.
Qed.

Lemma categories_stops queries s s' t :
  categories_run fetched min_books output_file queries s s' t ->
  stops min_books (buffer_len s) (buffer_len s') t.
Proof.
  induction 1 as [ | | query queries s s1 t_pages s' t_rest Hlt Hp Hrest IH ].
  - split_stops; [exact I | reflexivity | intros e He%elem_of_nil; contradiction | lia].
  - split_stops; [exact I | reflexivity | intros e He%elem_of_nil; contradiction | lia].
  - destruct (pages_stops _ _ _ _ _ _ Hp) as (Hh & Hdone & Hreach & Hmono).
    destruct IH as (Hh' & Hdone' & Hreach' & Hmono').
    split_stops.
    + apply halts_quiet_prefix; [repeat constructor |].
      apply halts_app; [assumption | |].
      * apply halts_quiet_prefix; [repeat constructor | assumption].
      * intros e He Hr. rewrite (Hdone' (Hreach e He Hr)), app_nil_r.
        repeat constructor.
    + intros Hmin. lia.
    + intros e He Hr. rewrite !elem_of_app in He.
      destruct He as [He | [He | [He | He]]].
      * exfalso. eapply (not_reached min_books [EvLog INFO]); [repeat constructor | |]; eassumption.
      * pose proof (Hreach e He Hr). lia.
      * exfalso. eapply (not_reached min_books [EvLog INFO; EvSleep 1]);
          [repeat constructor | |]; eassumption.
      * eapply Hreach'; eassumption.
    + lia.
Qed.

Lemma scrape_halts s' t :
  scrape_run fetched min_books output_file s' t -> halts min_books t.
Proof.
  intros [t_load s1 t_categories Hlogs Hq].
  destruct (categories_stops _ _ _ _ Hq) as (Hh & Hdone & _ & _).
  apply halts_quiet_prefix.
  { eapply Forall_impl; [exact Hlogs |]. intros e. apply is_log_no_snapshot. }
  apply halts_quiet_prefix; [repeat constructor |].
  cbn [app halts]. split; [| assumption].
  intros (b & sn & [= <- <-] & Hlen). rewrite Hdone; [constructor |]. exact Hlen.
Qed.

End Runs.

End ScraperTarget.

(** ** Writes of the output file *)

Section Frames.

Variables page_end item_end : Q -> bool.

Variable output_file : option file_state.

Local Abbreviation on_schedule := (on_schedule page_end item_end output_file).

Local Abbreviation plain := (plain page_end item_end).

Lemma expected_frames_app t1 : forall b0 t2,
  expected_frames page_end item_end output_file b0 (t1 ++ t2) =
  expected_frames page_end item_end output_file b0 t1
    ++ expected_frames page_end item_end output_file (buffer_after b0 t1) t2.
Proof.
  induction t1 as [| e t1 IH]; intros b0 t2; [reflexivity |].
  cbn [app expected_frames buffer_after fold_left].
  destruct e; try apply IH.
  rewrite IH. cbn [buffer_step snapshot]. rewrite <- !app_assoc. reflexivity.
Qed.

Lemma on_schedule_app b0 t1 b1 t2 b2 :
  on_schedule b0 t1 b1 -> on_schedule b1 t2 b2 -> on_schedule b0 (t1 ++ t2) b2.
Proof.
  intros [E1 B1] [E2 B2]. split.
  - unfold frames_written in *. rewrite omap_app, E1, E2, expected_frames_app, B1.
    reflexivity.
  - unfold buffer_after in *. rewrite fold_left_app, B1. exact B2.
Qed.

Lemma on_schedule_plain b0 t : Forall plain t -> on_schedule b0 t b0.
Proof.
  induction 1 as [| e t He _ [IH1 IH2]]; [split; reflexivity |].
  destruct e; cbn in He; try contradiction; split; try assumption.
  cbn [frames_written omap expected_frames]. destruct He as [-> ->]. cbn. assumption.
Qed.

Lemma on_schedule_admitted b0 b sn : on_schedule b0 [EvAdmitted b sn] b.
Proof. split; reflexivity. Qed.

Lemma on_schedule_seeded b0 b sn : on_schedule b0 [EvSeeded b sn] b.
Proof. split; reflexivity. Qed.

Lemma save_trace_frames due records t b0 :
  save_trace due records t ->
  frames_written t = (if due then [DataFrame_of records] else [])
  /\ expected_frames page_end item_end output_file b0 t = []
  /\ buffer_after b0 t = b0.
Proof.
  unfold save_trace. destruct due; [intros (lvl & ->) | intros ->]; repeat split.
Qed.

(** The write of the page loops: after the delay ([before = false]) or
    before it ([before = true]). *)
Lemma on_schedule_page_end (q : Q) b0 t_save :
  page_end q = true -> item_end q = false ->
  save_trace (threshold_due output_file b0) b0 t_save ->
  on_schedule b0 ([EvSleep q] ++ t_save) b0
  /\ on_schedule b0 (t_save ++ [EvSleep q]) b0.
Proof.
  intros Hp Hi Hsave.
  destruct (save_trace_frames _ _ _ b0 Hsave) as (Ef & Ee & Eb).
  split; split.
  - unfold frames_written in *. rewrite omap_app, Ef, expected_frames_app.
    change (buffer_after b0 [EvSleep q]) with b0. rewrite Ee.
    cbn [expected_frames]. rewrite Hp, Hi. cbn [andb]. rewrite !app_nil_r.
    reflexivity.
  - unfold buffer_after in *. rewrite fold_left_app. exact Eb.
  - unfold frames_written in *. rewrite omap_app, Ef, expected_frames_app, Ee, Eb.
    cbn [omap expected_frames app]. rewrite Hp, Hi. cbn [andb]. rewrite !app_nil_r.
    reflexivity.
  - unfold buffer_after in *. rewrite fold_left_app, Eb. reflexivity.
Qed.

Lemma on_schedule_item_end (q : Q) b0 t_save :
  page_end q = false -> item_end q = true ->
  save_trace (query_due output_file b0) b0 t_save ->
  on_schedule b0 (t_save ++ [EvSleep q]) b0.
Proof.
  intros Hp Hi Hsave.
  destruct (save_trace_frames _ _ _ b0 Hsave) as (Ef & Ee & Eb).
  split.
  - unfold frames_written in *. rewrite omap_app, Ef, expected_frames_app, Ee, Eb.
    cbn [omap expected_frames app]. rewrite Hp, Hi. cbn [andb]. rewrite !app_nil_r.
    reflexivity.
  - unfold buffer_after in *. rewrite fold_left_app, Eb. reflexivity.
Qed.

End Frames.

Lemma fetch_event_plain_api e :
  fetch_event 60 e -> plain api_page_end api_item_end e.
Proof.
  destruct e; cbn; auto. intros (z & -> & Hz).
  unfold api_page_end, api_item_end, Qeq_bool, Api.API_DELAY. cbn.
  split; apply Z.eqb_neq; lia.
Qed.

Lemma fetch_event_plain_scraper e :
  fetch_event 1 e -> plain scraper_page_end scraper_item_end e.
Proof.
  destruct e; cbn; auto. intros (z & -> & Hz).
  unfold scraper_page_end, scraper_item_end, Qeq_bool. cbn.
  split; [apply Z.eqb_neq; lia | reflexivity].
Qed.

Lemma is_log_plain page_end item_end e : is_log e -> plain page_end item_end e.
Proof. destruct e; cbn; tauto. Qed.

Module ApiFrames.

Import Api ApiRun ApiSound.

Lemma items_on_schedule output_file l : forall s,
  on_schedule api_page_end api_item_end output_file
    (all_books s) (items_trace l s) (all_books (items_state l s)).
Proof.
  induction l as [| item l IH]; intros s; cbn [items_trace items_state].
  - split; reflexivity.
  - destruct (is_new (parse_book_data item) s); [| apply IH].
    change (EvAdmitted ?b ?seen :: ?t) with ([EvAdmitted b seen] ++ t).
    eapply on_schedule_app; [apply on_schedule_admitted | apply IH].
Qed.

Section Runs.

Variable fetched : string -> Z -> option json_doc -> list event -> Prop.

Variable max_books_per_query : Z.

Variable output_file : option file_state.

Hypothesis fetched_events :
  forall query start result t,
    fetched query start result t -> Forall (fetch_event 60) t.

Local Abbreviation scheduled := (on_schedule api_page_end api_item_end output_file).

Lemma api_fetched_on_schedule query start result t b0 :
  fetched query start result t -> scheduled b0 t b0.
Proof.
  intros Hf%fetched_events. apply on_schedule_plain.
  eapply Forall_impl; [exact Hf |]. intros e. apply fetch_event_plain_api.
Qed.

Lemma api_pages_on_schedule query start request_count s s' t :
  pages_run fetched max_books_per_query output_file query start request_count s s' t ->
  scheduled (all_books s) t (all_books s').
Proof.
  induction 1 as [ | start rc s result t_fetch Hc Hf Hno
                   | start rc s result t_fetch item rest t_save s' t_rest
                       Hc Hf Hitems Hsave Hrest IH ].
  - split; reflexivity.
  - eapply on_schedule_app; [apply on_schedule_plain; repeat constructor |].
    eapply on_schedule_app; [eapply api_fetched_on_schedule; eassumption |].
    apply on_schedule_plain; repeat constructor.
  - eapply on_schedule_app; [apply on_schedule_plain; repeat constructor |].
    eapply on_schedule_app; [eapply api_fetched_on_schedule; eassumption |].
    eapply on_schedule_app; [apply on_schedule_plain; repeat constructor |].
    eapply on_schedule_app; [apply items_on_schedule |].
    rewrite app_assoc.
    eapply on_schedule_app; [| exact IH].
    apply on_schedule_page_end; [reflexivity | reflexivity | exact Hsave].
Qed.

Lemma queries_on_schedule queries s s' t :
  queries_run fetched max_books_per_query output_file queries s s' t ->
  scheduled (all_books s) t (all_books s').
Proof.
  induction 1 as [ | query queries s s1 t_pages t_save s' t_rest Hp Hsave Hrest IH ].
  - split; reflexivity.
  - eapply on_schedule_app; [apply on_schedule_plain; repeat constructor |].
    eapply on_schedule_app; [exact (api_pages_on_schedule _ _ _ _ _ _ Hp) |].
    eapply on_schedule_app; [apply on_schedule_plain; repeat constructor |].
    rewrite app_assoc.
    eapply on_schedule_app; [| exact IH].
    apply on_schedule_item_end; [reflexivity | reflexivity | exact Hsave].
Qed.

Lemma collect_on_schedule queries s' t :
  collect_run fetched max_books_per_query output_file queries s' t ->
  scheduled [] t (all_books s').
Proof.
  intros [t_load s1 t_queries Hlogs Hq].
  eapply on_schedule_app.
  { apply on_schedule_plain. eapply Forall_impl; [exact Hlogs |].
    intros e. apply is_log_plain. }
  eapply on_schedule_app; [apply on_schedule_seeded |].
  exact (queries_on_schedule _ _ _ _ Hq).
Qed.

End Runs.

End ApiFrames.

Module ScraperFrames.

Import Scraper ScraperRun ScraperSound.

Lemma books_on_schedule output_file books min_books : forall s n,
  on_schedule scraper_page_end scraper_item_end output_file
    (all_books s) (books_trace books min_books s)
    (all_books (books_state books min_books s n).1).
Proof.
  induction books as [| b books IH]; intros s n; cbn [books_trace books_state].
  - split; reflexivity.
  - destruct (min_books <=? buffer_len s); [split; reflexivity |].
    destruct (parse_book_from_listing b) as [book_data |]; [| apply IH].
    destruct (is_new book_data s); [| apply IH].
    change (EvAdmitted ?b ?seen :: ?t) with ([EvAdmitted b seen] ++ t).
    eapply on_schedule_app; [apply on_schedule_admitted | apply IH].
Qed.

Section Runs.

Variable fetched : string -> Z -> option soup -> list event -> Prop.

Variable min_books : Z.

Variable output_file : option file_state.

Hypothesis fetched_events :
  forall query start page t,
    fetched query start page t -> Forall (fetch_event 1) t.

Local Abbreviation scheduled := (on_schedule scraper_page_end scraper_item_end output_file).

Lemma scraper_fetched_on_schedule query start page t b0 :
  fetched query start page t -> scheduled b0 t b0.
Proof.
  intros Hf%fetched_events. apply on_schedule_plain.
  eapply Forall_impl; [exact Hf |]. intros e. apply fetch_event_plain_scraper.
Qed.

Lemma scraper_pages_on_schedule query start empty_pages s s' t :
  pages_run fetched min_books output_file query start empty_pages s s' t ->
  scheduled (all_books s) t (all_books s').
Proof.
  induction 1 as [ | start c s t_fetch Hc Hf
                   | start c s page t_fetch Hc Hf Hnil
                   | start c s page t_fetch Hc Hf Hne Hzero Hmax
                   | start c s page t_fetch t_save s' t_rest Hc Hf Hne Hgo Hsave Hrest IH ].
  - split; reflexivity.
  - eapply on_schedule_app; [apply on_schedule_plain; repeat constructor |].
    eapply on_schedule_app; [eapply scraper_fetched_on_schedule; eassumption |].
    apply on_schedule_plain; repeat constructor.
  - eapply on_schedule_app; [apply on_schedule_plain; repeat constructor |].
    eapply on_schedule_app; [eapply scraper_fetched_on_schedule; eassumption |].
    apply on_schedule_plain; repeat constructor.
  - eapply on_schedule_app; [apply on_schedule_plain; repeat constructor |].
    eapply on_schedule_app; [eapply scraper_fetched_on_schedule; eassumption |].
    eapply on_schedule_app; [apply on_schedule_plain; repeat constructor |].
    eapply on_schedule_app; [apply books_on_schedule |].
    apply on_schedule_plain; repeat constructor.
  - eapply on_schedule_app; [apply on_schedule_plain; repeat constructor |].
    eapply on_schedule_app; [eapply scraper_fetched_on_schedule; eassumption |].
    eapply on_schedule_app; [apply on_schedule_plain; repeat constructor |].
    eapply on_schedule_app; [apply books_on_schedule |].
    eapply on_schedule_app; [apply on_schedule_plain; repeat constructor |].
    rewrite app_assoc.
    eapply on_schedule_app; [| exact IH].
    apply on_schedule_page_end; [reflexivity | reflexivity | exact Hsave].
Qed.

Lemma categories_on_schedule queries s s' t :
  categories_run fetched min_books output_file queries s s' t ->
  scheduled (all_books s) t (all_books s').
Proof.
  induction 1 as [ | | query queries s s1 t_pages s' t_rest Hlt Hp Hrest IH ].
  - split; reflexivity.
  - split; reflexivity.
  - eapply on_schedule_app; [apply on_schedule_plain; repeat constructor |].
    eapply on_schedule_app; [exact (scraper_pages_on_schedule _ _ _ _ _ _ Hp) |].
    eapply on_schedule_app; [apply on_schedule_plain; repeat constructor |].
    exact IH.
Qed.

Lemma scrape_on_schedule s' t :
  scrape_run fetched min_books output_file s' t ->
  scheduled [] t (all_books s').
Proof.
  intros [t_load s1 t_categories Hlogs Hq].
  eapply on_schedule_app.
  { apply on_schedule_plain. eapply Forall_impl; [exact Hlogs |].
    intros e. apply is_log_plain. }
  eapply on_schedule_app; [apply on_schedule_plain; repeat constructor |].
  eapply on_schedule_app; [apply on_schedule_seeded |].
  exact (categories_on_schedule _ _ _ _ Hq).
Qed.

End Runs.

End ScraperFrames.

(** ** Second runs *)

Lemma lookup_on_columns cols d k :
  on_columns cols d !! k = if decide (k ∈ cols) then Some (get d k) else None.
Proof.
  destruct (decide (k ∈ cols)) as [Hk | Hk].
  - apply lookup_set_to_map; [intros y y' _ _ E; exact E |]. eauto.
  - apply eq_None_not_Some. intros [v Hv]. apply Hk.
    apply lookup_set_to_map in Hv as (y & Hy & [= -> _]); [assumption |].
    intros y y' _ _ E; exact E.
Qed.

Lemma on_columns_idem cols d : on_columns cols (on_columns cols d) = on_columns cols d.
Proof.
  apply map_eq. intros k. rewrite !lookup_on_columns.
  destruct (decide (k ∈ cols)) as [Hk | Hk]; [| reflexivity].
  rewrite get_on_columns by assumption. reflexivity.
Qed.

Lemma get_on_columns_sub cols d k :
  dom d ⊆ cols -> get (on_columns cols d) k = get d k.
Proof.
  intros Hsub. destruct (decide (k ∈ cols)) as [Hk | Hk].
  - apply get_on_columns. assumption.
  - rewrite get_on_columns_out by assumption. unfold get.
    destruct (d !! k) as [v |] eqn:E; [| reflexivity].
    exfalso. apply Hk, Hsub. apply elem_of_dom. eauto.
Qed.

(** The columns of [pd.DataFrame(records)]. *)

Lemma dom_sub_columns_of records r : r ∈ records -> dom r ⊆ columns_of records.
Proof.
  intros Hr k Hk. unfold columns_of. apply elem_of_union_list.
  exists (dom r). split; [| assumption]. apply list_elem_of_fmap. eauto.
Qed.

Lemma columns_of_laid_out cols records :
  records <> [] -> columns_of (on_columns cols <$> records) = cols.
Proof.
  intros Hne. apply set_eq. intros k. unfold columns_of. rewrite elem_of_union_list. split.
  - intros (X & HX & Hk). apply list_elem_of_fmap in HX as (d & -> & Hd).
    apply list_elem_of_fmap in Hd as (r & -> & _). rewrite dom_on_columns in Hk. assumption.
  - intros Hk. destruct records as [| r records]; [congruence |].
    exists (dom (on_columns cols r)). split; [| rewrite dom_on_columns; assumption].
    apply list_elem_of_fmap. exists (on_columns cols r). split; [reflexivity |].
    cbn. left.
Qed.

Lemma to_dict_records_DataFrame_of records :
  to_dict_records (DataFrame_of records) = on_columns (columns_of records) <$> records.
Proof.
  unfold to_dict_records, DataFrame_of. cbn [columns rows]. fold (columns_of records).
  rewrite <- list_fmap_compose. apply list_fmap_ext. intros i r _. cbn.
  apply on_columns_idem.
Qed.

(** Writing a frame and reading it back gives the frame. *)
Lemma DataFrame_of_to_dict_records records :
  DataFrame_of (to_dict_records (DataFrame_of records)) = DataFrame_of records.
Proof.
  rewrite to_dict_records_DataFrame_of.
  destruct records as [| r records]; [reflexivity |].
  unfold DataFrame_of at 1.
  fold (columns_of (on_columns (columns_of (r :: records)) <$> r :: records)).
  rewrite columns_of_laid_out by discriminate.
  unfold DataFrame_of. fold (columns_of (r :: records)). f_equal.
  rewrite <- list_fmap_compose. apply list_fmap_ext. intros i x _. cbn.
  apply on_columns_idem.
Qed.

Lemma keys_laid_out key records :
  keys_of key (on_columns (columns_of records) <$> records) = keys_of key records.
Proof.
  unfold keys_of. rewrite <- list_fmap_compose.
  apply list_fmap_ext. intros i r Hr. cbn.
  apply get_on_columns_sub, dom_sub_columns_of.
  eapply list_elem_of_lookup_2. eassumption.
Qed.

Lemma columns_of_empty records :
  Forall (fun r => dom r <> ∅) records -> columns_of records = ∅ -> records = [].
Proof.
  intros Hall Hcols. destruct records as [| r records]; [reflexivity |].
  exfalso. apply Forall_cons in Hall as [Hr _]. apply Hr.
  pose proof (dom_sub_columns_of (r :: records) r ltac:(left)) as Hsub.
  rewrite Hcols in Hsub. apply set_eq. intros k. split; [apply Hsub | intros []%elem_of_empty].
Qed.

Lemma truthy_in_dom (d : gmap string value) k : truthy (get d k) = true -> k ∈ dom d.
Proof.
  unfold get. intros Ht. apply elem_of_dom. destruct (d !! k); [eauto | discriminate].
Qed.

(** Not the admission of a record. *)

Lemma fetch_event_not_admission least e : fetch_event least e -> not_admission e.
Proof. destruct e; cbn; tauto. Qed.

Lemma is_log_not_admission e : is_log e -> not_admission e.
Proof. destruct e; cbn; tauto. Qed.

Lemma save_trace_not_admission due records t :
  save_trace due records t -> Forall not_admission t.
Proof.
  unfold save_trace. destruct due; [intros (lvl & ->) | intros ->]; repeat constructor.
Qed.

Module ApiIdem.

Import Api ApiRun ApiSound.

Lemma api_admitted_tracked book_data s :
  is_new book_data s = true -> tracked s -> tracked (admitted book_data s).
Proof.
  intros [Ht _]%andb_true_iff [Hseen Hdom]. split.
  - cbn [admitted seen_ids all_books]. unfold keys_of in *.
    rewrite fmap_app, filter_app, list_to_set_app_L, <- Hseen. cbn [fmap list_fmap].
    rewrite filter_cons_True by (apply truthy_not_None; assumption).
    rewrite filter_nil. cbn [list_to_set foldr].
    rewrite union_empty_r_L. apply union_comm_L.
  - cbn [admitted all_books]. apply Forall_app. split; [assumption |].
    constructor; [| constructor]. apply truthy_in_dom. assumption.
Qed.

Lemma items_facts l : forall s,
  seen_ids s ⊆ seen_ids (items_state l s)
  /\ (forall item, item ∈ l ->
        truthy (get (parse_book_data item) "id") = true ->
        get (parse_book_data item) "id" ∈ seen_ids (items_state l s))
  /\ (tracked s -> tracked (items_state l s)).
Proof.
  induction l as [| item l IH]; intros s; cbn [items_state].
  - split; [reflexivity |]. split; [intros item Hin%elem_of_nil; contradiction | auto].
  - destruct (is_new (parse_book_data item) s) eqn:Enew.
    + destruct (IH (admitted (parse_book_data item) s)) as (Hsub & Hall & Htr).
      assert (Hin : get (parse_book_data item) "id"
                    ∈ seen_ids (admitted (parse_book_data item) s)).
      { cbn [admitted seen_ids]. apply elem_of_union. left. apply elem_of_singleton.
        reflexivity. }
      split; [| split].
      * intros k Hk. apply Hsub. cbn [admitted seen_ids]. apply elem_of_union. right.
        assumption.
      * intros item' [-> | Hin']%elem_of_cons Ht; [apply Hsub; assumption | auto].
      * intros Hs. apply Htr, api_admitted_tracked; assumption.
    + destruct (IH s) as (Hsub & Hall & Htr). split; [assumption |]. split; [| assumption].
      intros item' [-> | Hin']%elem_of_cons Ht; [| auto].
      apply Hsub. unfold is_new in Enew. rewrite Ht in Enew. cbn [andb] in Enew.
      apply bool_decide_eq_false in Enew.
      destruct (decide (get (parse_book_data item) "id" ∈ seen_ids s)); [assumption |].
      contradiction.
Qed.

Lemma items_noop l : forall s,
  (forall item, item ∈ l ->
     truthy (get (parse_book_data item) "id") = true ->
     get (parse_book_data item) "id" ∈ seen_ids s) ->
  items_state l s = s /\ items_trace l s = [].
Proof.
  induction l as [| item l IH]; intros s Hseen; cbn [items_state items_trace];
    [split; reflexivity |].
  assert (Enew : is_new (parse_book_data item) s = false).
  { unfold is_new. destruct (truthy (get (parse_book_data item) "id")) eqn:Et;
      [| reflexivity].
    cbn [andb]. apply bool_decide_eq_false. intros Hno. apply Hno.
    apply Hseen; [left | assumption]. }
  rewrite Enew. apply IH. intros item' Hin. apply Hseen. right. assumption.
Qed.

Section Runs.

Variable fetched : string -> Z -> option json_doc -> list event -> Prop.

Variable max_books_per_query : Z.

Variables output_file1 output_file2 : option file_state.

Hypothesis fetched_events :
  forall query start result t,
    fetched query start result t -> Forall (fetch_event 60) t.

Hypothesis fetched_steady :
  forall query start result1 t1 result2 t2,
    fetched query start result1 t1 -> fetched query start result2 t2 ->
    result1 = result2.

Lemma api_fetched_not_admission query start result t :
  fetched query start result t -> Forall not_admission t.
Proof.
  intros Hf%fetched_events. eapply Forall_impl; [exact Hf |].
  intros e. apply fetch_event_not_admission.
Qed.

Lemma api_pages_facts output_file query start request_count s s' t :
  pages_run fetched max_books_per_query output_file query start request_count s s' t ->
  seen_ids s ⊆ seen_ids s' /\ (tracked s -> tracked s').
Proof.
  induction 1 as [ | start rc s result t_fetch Hc Hf Hno
                   | start rc s result t_fetch item rest t_save s' t_rest
                       Hc Hf Hitems Hsave Hrest IH ].
  - split; [reflexivity | auto].
  - split; [reflexivity | auto].
  - destruct (items_facts (item :: rest) s) as (Hsub & _ & Htr).
    destruct IH as [Hsub' Htr']. split; [etransitivity; eassumption | auto].
Qed.

Lemma queries_facts output_file queries s s' t :
  queries_run fetched max_books_per_query output_file queries s s' t ->
  seen_ids s ⊆ seen_ids s' /\ (tracked s -> tracked s').
Proof.
  induction 1 as [ | query queries s s1 t_pages t_save s' t_rest Hp Hsave Hrest IH ].
  - split; [reflexivity | auto].
  - destruct (api_pages_facts _ _ _ _ _ _ _ Hp) as [Hsub Htr].
    destruct IH as [Hsub' Htr']. cbn [seen_ids] in Hsub.
    split; [etransitivity; eassumption |].
    intros Hs. apply Htr', Htr. exact Hs.
Qed.

(** A page loop that starts with every key of the first run seen
    admits nothing. *)
Lemma api_pages_rerun query start request_count s1 s1' t1 :
  pages_run fetched max_books_per_query output_file1 query start request_count
    s1 s1' t1 ->
  forall s2 s2' t2,
  seen_ids s1' ⊆ seen_ids s2 ->
  pages_run fetched max_books_per_query output_file2 query start request_count
    s2 s2' t2 ->
  s2' = s2 /\ Forall not_admission t2.
Proof.
  induction 1 as [ | start rc s1 result t_fetch Hc Hf Hno
                   | start rc s1 result t_fetch item rest t_save s1' t_rest
                       Hc Hf Hitems Hsave Hrest IH ];
    intros s2 s2' t2 Hsub Hrun2.
  - inversion Hrun2; subst; try congruence. split; [reflexivity | constructor].
  - inversion Hrun2 as [ | ? ? ? result2 t_fetch2 Hc2 Hf2 Hno2
                         | ? ? ? result2 t_fetch2 item2 rest2 t_save2 ? t_rest2
                             Hc2 Hf2 Hitems2 Hsave2 Hrest2 ]; subst.
    + split; [reflexivity | constructor].
    + split; [reflexivity |].
      repeat (apply Forall_app; split); try (repeat constructor).
      eapply api_fetched_not_admission; eassumption.
    + exfalso. rewrite (fetched_steady _ _ _ _ _ _ Hf Hf2) in Hno.
      eapply Hno. eassumption.
  - inversion Hrun2 as [ | ? ? ? result2 t_fetch2 Hc2 Hf2 Hno2
                         | ? ? ? result2 t_fetch2 item2 rest2 t_save2 ? t_rest2
                             Hc2 Hf2 Hitems2 Hsave2 Hrest2 ]; subst.
    + split; [reflexivity | constructor].
    + split; [reflexivity |].
      repeat (apply Forall_app; split); try (repeat constructor).
      eapply api_fetched_not_admission; eassumption.
    + rewrite <- (fetched_steady _ _ _ _ _ _ Hf Hf2) in Hitems2.
      rewrite Hitems in Hitems2. injection Hitems2 as <- <-.
      destruct (items_facts (item :: rest) s1) as (_ & Hall & _).
      destruct (api_pages_facts _ _ _ _ _ _ _ Hrest) as [Hmono _].
      destruct (items_noop (item :: rest) s2) as [Estate Etrace].
      { intros item' Hin Ht. apply Hsub, Hmono, Hall; assumption. }
      rewrite Estate in Hrest2.
      destruct (IH _ _ _ Hsub Hrest2) as [-> Hquiet].
      split; [reflexivity |].
      rewrite Etrace.
      repeat (apply Forall_app; split); try assumption; try (repeat constructor).
      * eapply api_fetched_not_admission; eassumption.
      * eapply save_trace_not_admission; eassumption.
Qed.

Lemma queries_rerun queries s1 s1' t1 :
  queries_run fetched max_books_per_query output_file1 queries s1 s1' t1 ->
  forall s2 s2' t2,
  seen_ids s1' ⊆ seen_ids s2 ->
  queries_run fetched max_books_per_query output_file2 queries s2 s2' t2 ->
  all_books s2' = all_books s2 /\ seen_ids s2' = seen_ids s2
  /\ Forall not_admission t2.
Proof.
  induction 1 as [ | query queries s1 s1a t_pages t_save s1' t_rest Hp Hsave Hrest IH ];
    intros s2 s2' t2 Hsub Hrun2.
  - inversion Hrun2; subst. repeat split. constructor.
  - inversion Hrun2 as [ | ? ? ? s2a t_pages2 t_save2 ? t_rest2 Hp2 Hsave2 Hrest2 ];
      subst.
    destruct (queries_facts _ _ _ _ _ Hrest) as [Hmono _].
    assert (Hsub1 : seen_ids s1a ⊆
              seen_ids {| all_books := all_books s2; seen_ids := seen_ids s2;
                          books_collected := 0 |})
      by (cbn [seen_ids]; etransitivity; eassumption).
    destruct (api_pages_rerun _ _ _ _ _ _ Hp _ _ _ Hsub1 Hp2) as [-> Hquiet].
    destruct (IH {| all_books := all_books s2; seen_ids := seen_ids s2;
                    books_collected := 0 |} _ _ Hsub Hrest2)
      as (Ebooks & Eseen & Hquiet').
    cbn [all_books seen_ids] in Ebooks, Eseen.
    split; [assumption |]. split; [assumption |].
    repeat (apply Forall_app; split); try assumption; try (repeat constructor).
    eapply save_trace_not_admission; eassumption.
Qed.

Lemma api_loaded_tracked output_file :
  tracked {| all_books := (loaded output_file).1; seen_ids := (loaded output_file).2;
             books_collected := 0 |}.
Proof.
  assert (Hnil : tracked {| all_books := []; seen_ids := ∅; books_collected := 0 |})
    by (split; [reflexivity | constructor]).
  unfold loaded. destruct output_file as [[| | df] |]; try exact Hnil.
  destruct (decide (columns df = ∅)); [exact Hnil |].
  destruct (decide ("id" ∈ columns df)) as [Hid |]; [| exact Hnil].
  split; cbn [all_books seen_ids fst snd].
  - unfold column_values. rewrite keys_to_dict_records by assumption. reflexivity.
  - unfold to_dict_records. apply Forall_fmap, Forall_forall. intros r _. cbn.
    rewrite dom_on_columns. assumption.
Qed.

(** With the file that the first run leaves, the second run admits
    nothing and ends with the same frame. *)
Lemma collect_rerun queries s1 t1 s2 t2 :
  collect_run fetched max_books_per_query output_file1 queries s1 t1 ->
  output_file2 = Some (file_written (DataFrame_of (all_books s1))) ->
  collect_run fetched max_books_per_query output_file2 queries s2 t2 ->
  DataFrame_of (all_books s2) = DataFrame_of (all_books s1)
  /\ Forall not_admission t2.
Proof.
  intros [t_load1 s1' t_q1 Hlogs1 Hq1] Efile [t_load2 s2' t_q2 Hlogs2 Hq2].
  destruct (queries_facts _ _ _ _ _ Hq1) as [_ Htr].
  specialize (Htr (api_loaded_tracked output_file1)). destruct Htr as [Hseen Hdom].
  assert (Hload2 :
    (all_books s1' = [] /\ loaded output_file2 = ([], ∅))
    \/ loaded output_file2 =
         (to_dict_records (DataFrame_of (all_books s1')), seen_ids s1')).
  { rewrite Efile. unfold loaded, file_written.
    change (columns (DataFrame_of (all_books s1'))) with (columns_of (all_books s1')).
    destruct (decide (columns_of (all_books s1') = ∅)) as [Hempty | Hcols].
    - left. split; [| reflexivity]. apply columns_of_empty; [| assumption].
      eapply Forall_impl; [exact Hdom |]. intros r Hr E. cbv beta in Hr. rewrite E in Hr.
      apply elem_of_empty in Hr. contradiction.
    - right. destruct (all_books s1') as [| r buf] eqn:Ebuf; [contradiction Hcols; reflexivity |].
      rewrite <- Ebuf in *.
      assert (Hid : "id" ∈ columns_of (all_books s1')).
      { rewrite Ebuf in Hdom. apply Forall_cons in Hdom as [Hr _].
        apply (dom_sub_columns_of (all_books s1') r); [rewrite Ebuf; left | assumption]. }
      destruct (decide ("id" ∈ columns_of (all_books s1'))); [| contradiction].
      f_equal. unfold column_values.
      change (rows (DataFrame_of (all_books s1')))
        with (on_columns (columns_of (all_books s1')) <$> all_books s1').
      change ((fun d => get d "id") <$> ?l) with (keys_of "id" l).
      rewrite keys_laid_out. symmetry. exact Hseen. }
  assert (Hquiet : all_books s2' = (loaded output_file2).1 /\ Forall not_admission t_q2).
  { assert (Hsub : seen_ids s1' ⊆
              seen_ids {| all_books := (loaded output_file2).1;
                          seen_ids := (loaded output_file2).2;
                          books_collected := 0 |}).
    { cbn [seen_ids]. destruct Hload2 as [[Enil ->] | ->]; cbn [snd].
      - rewrite Hseen, Enil. reflexivity.
      - reflexivity. }
    destruct (queries_rerun _ _ _ _ Hq1 _ _ _ Hsub Hq2) as (Eb & _ & Hq).
    split; assumption. }
  destruct Hquiet as [Ebooks Hquiet]. split.
  - rewrite Ebooks. destruct Hload2 as [[Enil ->] | ->]; cbn [fst].
    + rewrite Enil. reflexivity.
    + apply DataFrame_of_to_dict_records.
  - repeat (apply Forall_app; split); try assumption.
    + eapply Forall_impl; [exact Hlogs2 |]. intros e. apply is_log_not_admission.
    + repeat constructor.
Qed.

End Runs.

End ApiIdem.

Module ScraperIdem.

Import Scraper ScraperRun ScraperSound.

Lemma scraper_admitted_tracked book_data s :
  is_new book_data s = true -> tracked s -> tracked (admitted book_data s).
Proof.
  intros [Ht _]%andb_true_iff [Hseen Hdom]. split.
  - cbn [admitted seen_titles all_books]. unfold titles_of in *.
    rewrite fmap_app, filter_app, list_to_set_app_L, <- Hseen. cbn [fmap list_fmap].
    rewrite filter_cons_True by assumption.
    rewrite filter_nil. cbn [list_to_set foldr].
    rewrite union_empty_r_L. apply union_comm_L.
  - cbn [admitted all_books]. apply Forall_app. split; [assumption |].
    constructor; [| constructor]. intros E.
    apply truthy_in_dom in Ht. rewrite E in Ht. apply elem_of_empty in Ht. contradiction.
Qed.

Lemma books_facts books min_books : forall s n,
  seen_titles s ⊆ seen_titles (books_state books min_books s n).1
  /\ buffer_len s <= buffer_len (books_state books min_books s n).1
  /\ (buffer_len (books_state books min_books s n).1 < min_books ->
      titles_seen books (seen_titles (books_state books min_books s n).1))
  /\ (tracked s -> tracked (books_state books min_books s n).1)
  /\ (n <= (books_state books min_books s n).2).
Proof.
  induction books as [| b books IH]; intros s n; cbn [books_state].
  - cbn [fst snd]. split; [reflexivity |]. split; [lia |].
    split; [intros _ b bd Hin%elem_of_nil; contradiction |]. split; [auto | lia].
  - destruct (min_books <=? buffer_len s) eqn:Edone.
    { cbn [fst snd]. split; [reflexivity |]. split; [lia |].
      split; [intros Hlt; apply Z.leb_le in Edone; lia |]. split; [auto | lia]. }
    destruct (parse_book_from_listing b) as [book_data |] eqn:Eparse.
    2: { destruct (IH s n) as (Hsub & Hlen & Hall & Htr & Hn).
         split; [assumption |]. split; [assumption |]. split; [| split; assumption].
         intros Hlt b' bd [-> | Hin]%elem_of_cons Hp Ht; [congruence |].
         eapply Hall; eassumption. }
    destruct (is_new book_data s) eqn:Enew.
    + destruct (IH (admitted book_data s) (n + 1)) as (Hsub & Hlen & Hall & Htr & Hn).
      assert (Hgrow : buffer_len s <= buffer_len (admitted book_data s)).
      { unfold buffer_len, admitted. cbn [all_books]. rewrite length_app. lia. }
      split; [| split; [| split; [| split]]].
      * intros k Hk. apply Hsub. cbn [admitted seen_titles]. apply elem_of_union. right.
        assumption.
      * lia.
      * intros Hlt b' bd [-> | Hin]%elem_of_cons Hp Ht; [| eapply Hall; eassumption].
        rewrite Eparse in Hp. injection Hp as <-.
        apply Hsub. cbn [admitted seen_titles]. apply elem_of_union. left.
        apply elem_of_singleton. reflexivity.
      * intros Hs. apply Htr, scraper_admitted_tracked; assumption.
      * lia.
    + destruct (IH s n) as (Hsub & Hlen & Hall & Htr & Hn).
      split; [assumption |]. split; [assumption |]. split; [| split; assumption].
      intros Hlt b' bd [-> | Hin]%elem_of_cons Hp Ht; [| eapply Hall; eassumption].
      rewrite Eparse in Hp. injection Hp as <-.
      apply Hsub. unfold is_new in Enew. rewrite Ht in Enew. cbn [andb] in Enew.
      apply bool_decide_eq_false in Enew.
      destruct (decide (get book_data "title" ∈ seen_titles s)); [assumption |].
      contradiction.
Qed.

Lemma books_noop books min_books : forall s n,
  titles_seen books (seen_titles s) ->
  books_state books min_books s n = (s, n) /\ books_trace books min_books s = [].
Proof.
  induction books as [| b books IH]; intros s n Hseen;
    cbn [books_state books_trace]; [split; reflexivity |].
  destruct (min_books <=? buffer_len s); [split; reflexivity |].
  assert (Hrest : titles_seen books (seen_titles s)).
  { intros b' bd Hin. apply Hseen. right. assumption. }
  destruct (parse_book_from_listing b) as [book_data |] eqn:Eparse; [| apply IH; assumption].
  assert (Enew : is_new book_data s = false).
  { unfold is_new. destruct (truthy (get book_data "title")) eqn:Et; [| reflexivity].
    cbn [andb]. apply bool_decide_eq_false. intros Hno. apply Hno.
    eapply Hseen; [left | eassumption | assumption]. }
  rewrite Enew. apply IH. assumption.
Qed.

Section Runs.

Variable fetched : string -> Z -> option soup -> list event -> Prop.

Variable min_books : Z.

Variables output_file1 output_file2 : option file_state.

Hypothesis fetched_events :
  forall query start page t,
    fetched query start page t -> Forall (fetch_event 1) t.

Hypothesis fetched_steady :
  forall query start page1 t1 page2 t2,
    fetched query start page1 t1 -> fetched query start page2 t2 ->
    page1 = page2.

Lemma scraper_fetched_not_admission query start page t :
  fetched query start page t -> Forall not_admission t.
Proof.
  intros Hf%fetched_events. eapply Forall_impl; [exact Hf |].
  intros e. apply fetch_event_not_admission.
Qed.

Lemma scraper_pages_facts output_file query start empty_pages s s' t :
  pages_run fetched min_books output_file query start empty_pages s s' t ->
  seen_titles s ⊆ seen_titles s' /\ buffer_len s <= buffer_len s'
  /\ (tracked s -> tracked s').
Proof.
  induction 1 as [ | start c s t_fetch Hc Hf
                   | start c s page t_fetch Hc Hf Hnil
                   | start c s page t_fetch Hc Hf Hne Hzero Hmax
                   | start c s page t_fetch t_save s' t_rest Hc Hf Hne Hgo Hsave Hrest IH ].
  - split; [reflexivity |]. split; [lia | auto].
  - split; [reflexivity |]. split; [lia | auto].
  - split; [reflexivity |]. split; [lia | auto].
  - destruct (books_facts (booklinks page) min_books s 0) as (Hsub & Hlen & _ & Htr & _).
    split; [assumption |]. split; assumption.
  - destruct (books_facts (booklinks page) min_books s 0) as (Hsub & Hlen & _ & Htr & _).
    destruct IH as (Hsub' & Hlen' & Htr').
    split; [etransitivity; eassumption |]. split; [lia | auto].
Qed.

Lemma categories_facts output_file queries s s' t :
  categories_run fetched min_books output_file queries s s' t ->
  seen_titles s ⊆ seen_titles s' /\ buffer_len s <= buffer_len s'
  /\ (tracked s -> tracked s').
Proof.
  induction 1 as [ | | query queries s s1 t_pages s' t_rest Hlt Hp Hrest IH ].
  - split; [reflexivity |]. split; [lia | auto].
  - split; [reflexivity |]. split; [lia | auto].
  - destruct (scraper_pages_facts _ _ _ _ _ _ _ Hp) as (Hsub & Hlen & Htr).
    destruct IH as (Hsub' & Hlen' & Htr').
    split; [etransitivity; eassumption |]. split; [lia | auto].
Qed.

(** A page loop of the second run, which starts with every title of
    the first run seen, admits nothing: it follows the first run, which
    did not reach the target, or stops before it. *)
Lemma scraper_pages_rerun query start empty1 s1 s1' t1 :
  pages_run fetched min_books output_file1 query start empty1 s1 s1' t1 ->
  buffer_len s1' < min_books ->
  0 <= empty1 ->
  forall empty2 s2 s2' t2,
  empty1 <= empty2 ->
  seen_titles s1' ⊆ seen_titles s2 ->
  pages_run fetched min_books output_file2 query start empty2 s2 s2' t2 ->
  s2' = s2 /\ Forall not_admission t2.
Proof.
  induction 1 as [ | start c s1 t_fetch Hc Hf
                   | start c s1 page t_fetch Hc Hf Hnil
                   | start c s1 page t_fetch Hc Hf Hne Hzero Hmax
                   | start c s1 page t_fetch t_save s1' t_rest Hc Hf Hne Hgo Hsave Hrest IH ];
    intros Hbelow Hpos empty2 s2 s2' t2 Hle Hsub Hrun2.
  - (* the first run left the loop: the cursor is past the ceiling *)
    assert (Hcursor : (start_index <? max_index) = false).
    { apply andb_false_iff in H as [Hcur | Hlen]; [assumption |].
      apply Z.ltb_ge in Hlen. lia. }
    inversion Hrun2 as [ | ? ? ? ? Hc2 | ? ? ? ? ? Hc2 | ? ? ? ? ? Hc2 | ? ? ? ? ? ? ? ? Hc2 ];
      subst; try (rewrite Hcursor in Hc2; discriminate).
    split; [reflexivity | constructor].
  - inversion Hrun2 as [ | ? ? ? t_fetch2 Hc2 Hf2
                         | ? ? ? page2 t_fetch2 Hc2 Hf2 Hnil2
                         | ? ? ? page2 t_fetch2 Hc2 Hf2 Hne2 Hzero2 Hmax2
                         | ? ? ? page2 t_fetch2 t_save2 ? t_rest2 Hc2 Hf2 Hne2 Hgo2
                             Hsave2 Hrest2 ]; subst;
      try (pose proof (fetched_steady _ _ _ _ _ _ Hf Hf2); discriminate).
    + split; [reflexivity | constructor].
    + split; [reflexivity |].
      repeat (apply Forall_app; split); try (repeat constructor).
      eapply scraper_fetched_not_admission; eassumption.
  - inversion Hrun2 as [ | ? ? ? t_fetch2 Hc2 Hf2
                         | ? ? ? page2 t_fetch2 Hc2 Hf2 Hnil2
                         | ? ? ? page2 t_fetch2 Hc2 Hf2 Hne2 Hzero2 Hmax2
                         | ? ? ? page2 t_fetch2 t_save2 ? t_rest2 Hc2 Hf2 Hne2 Hgo2
                             Hsave2 Hrest2 ]; subst;
      try (pose proof (fetched_steady _ _ _ _ _ _ Hf Hf2) as E; discriminate);
      try (pose proof (fetched_steady _ _ _ _ _ _ Hf Hf2) as [= <-]; contradiction).
    + split; [reflexivity | constructor].
    + split; [reflexivity |].
      repeat (apply Forall_app; split); try (repeat constructor).
      eapply scraper_fetched_not_admission; eassumption.
  - destruct (books_facts (booklinks page) min_books s1 0) as (_ & _ & Hall & _ & _).
    specialize (Hall Hbelow).
    inversion Hrun2 as [ | ? ? ? t_fetch2 Hc2 Hf2
                         | ? ? ? page2 t_fetch2 Hc2 Hf2 Hnil2
                         | ? ? ? page2 t_fetch2 Hc2 Hf2 Hne2 Hzero2 Hmax2
                         | ? ? ? page2 t_fetch2 t_save2 ? t_rest2 Hc2 Hf2 Hne2 Hgo2
                             Hsave2 Hrest2 ]; subst;
      try (pose proof (fetched_steady _ _ _ _ _ _ Hf Hf2) as E; discriminate);
      try (pose proof (fetched_steady _ _ _ _ _ _ Hf Hf2) as [= <-]).
    + split; [reflexivity | constructor].
    + contradiction.
    + destruct (books_noop (booklinks page) min_books s2 0) as [Estate Etrace].
      { intros b bd Hin Hp Ht. apply Hsub. eapply Hall; eassumption. }
      rewrite Estate, Etrace. split; [reflexivity |].
      repeat (apply Forall_app; split); try (repeat constructor).
      eapply scraper_fetched_not_admission; eassumption.
    + destruct (books_noop (booklinks page) min_books s2 0) as [Estate Etrace].
      { intros b bd Hin Hp Ht. apply Hsub. eapply Hall; eassumption. }
      exfalso. rewrite Estate in Hgo2. cbn [snd] in Hgo2.
      destruct Hgo2 as [Hgo2 | Hgo2]; [congruence | lia].
  - destruct (books_facts (booklinks page) min_books s1 0) as (_ & _ & Hall & _ & Hn).
    destruct (scraper_pages_facts _ _ _ _ _ _ _ Hrest) as (Hmono & Hlen & _).
    specialize (Hall ltac:(lia)).
    inversion Hrun2 as [ | ? ? ? t_fetch2 Hc2 Hf2
                         | ? ? ? page2 t_fetch2 Hc2 Hf2 Hnil2
                         | ? ? ? page2 t_fetch2 Hc2 Hf2 Hne2 Hzero2 Hmax2
                         | ? ? ? page2 t_fetch2 t_save2 ? t_rest2 Hc2 Hf2 Hne2 Hgo2
                             Hsave2 Hrest2 ]; subst;
      try (pose proof (fetched_steady _ _ _ _ _ _ Hf Hf2) as E; discriminate);
      try (pose proof (fetched_steady _ _ _ _ _ _ Hf Hf2) as [= <-]).
    + split; [reflexivity | constructor].
    + contradiction.
    + destruct (books_noop (booklinks page) min_books s2 0) as [Estate Etrace].
      { intros b bd Hin Hp Ht. apply Hsub, Hmono. eapply Hall; eassumption. }
      rewrite Estate, Etrace. split; [reflexivity |].
      repeat (apply Forall_app; split); try (repeat constructor).
      eapply scraper_fetched_not_admission; eassumption.
    + destruct (books_noop (booklinks page) min_books s2 0) as [Estate Etrace].
      { intros b bd Hin Hp Ht. apply Hsub, Hmono. eapply Hall; eassumption. }
      rewrite Estate in Hrest2, Hsave2. cbn [fst snd Z.eqb] in Hrest2, Hsave2.
      rewrite Etrace.
      assert (Hle' : (if (books_state (booklinks page) min_books s1 0).2 =? 0
                      then c + 1 else 0) <= empty2 + 1)
        by (destruct (_ =? 0); lia).
      assert (Hpos' : 0 <= (if (books_state (booklinks page) min_books s1 0).2 =? 0
                            then c + 1 else 0))
        by (destruct (_ =? 0); lia).
      destruct (IH Hbelow Hpos' _ _ _ _ Hle' Hsub Hrest2) as [-> Hquiet].
      split; [reflexivity |].
      repeat (apply Forall_app; split); try assumption; try (repeat constructor).
      * eapply scraper_fetched_not_admission; eassumption.
      * eapply save_trace_not_admission; eassumption.
Qed.

Lemma categories_rerun queries s1 s1' t1 :
  categories_run fetched min_books output_file1 queries s1 s1' t1 ->
  buffer_len s1' < min_books ->
  forall s2 s2' t2,
  seen_titles s1' ⊆ seen_titles s2 ->
  categories_run fetched min_books output_file2 queries s2 s2' t2 ->
  s2' = s2 /\ Forall not_admission t2.
Proof.
  induction 1 as [ | | query queries s1 s1a t_pages s1' t_rest Hlt Hp Hrest IH ];
    intros Hbelow s2 s2' t2 Hsub Hrun2.
  - inversion Hrun2; subst. split; [reflexivity | constructor].
  - lia.
  - destruct (categories_facts _ _ _ _ _ Hrest) as (Hmono & Hlen & _).
    inversion Hrun2 as [ | | ? ? ? s2a t_pages2 ? t_rest2 Hlt2 Hp2 Hrest2 ]; subst.
    + split; [reflexivity | constructor].
    + destruct (scraper_pages_rerun _ _ _ _ _ _ Hp ltac:(lia) ltac:(lia) 0 s2 s2a t_pages2
                  ltac:(lia) ltac:(etransitivity; eassumption) Hp2) as [-> Hquiet].
      destruct (IH Hbelow _ _ _ Hsub Hrest2) as [-> Hquiet'].
      split; [reflexivity |].
      repeat (apply Forall_app; split); try assumption; repeat constructor.
Qed.

Lemma scraper_loaded_tracked output_file :
  tracked {| all_books := loaded output_file;
             seen_titles := titles_of (loaded output_file) |}.
Proof.
  split; [reflexivity |]. cbn [all_books]. unfold loaded.
  destruct output_file as [[| | df] |]; try constructor.
  destruct (decide (columns df = ∅)) as [| Hcols]; [constructor |].
  unfold to_dict_records. apply Forall_fmap, Forall_forall. intros r _. cbn.
  rewrite dom_on_columns. assumption.
Qed.

Lemma titles_laid_out records :
  titles_of (on_columns (columns_of records) <$> records) = titles_of records.
Proof.
  unfold titles_of.
  change ((fun book => get book "title") <$> ?l) with (keys_of "title" l).
  rewrite keys_laid_out. reflexivity.
Qed.

(** With the file that the first run leaves, the second run admits
    nothing and ends with the same frame. *)
Lemma scrape_rerun s1 t1 s2 t2 :
  scrape_run fetched min_books output_file1 s1 t1 ->
  output_file2 = Some (file_written (DataFrame_of (all_books s1))) ->
  scrape_run fetched min_books output_file2 s2 t2 ->
  DataFrame_of (all_books s2) = DataFrame_of (all_books s1)
  /\ Forall not_admission t2.
Proof.
  intros [t_load1 s1' t_q1 Hlogs1 Hq1] Efile [t_load2 s2' t_q2 Hlogs2 Hq2].
  destruct (categories_facts _ _ _ _ _ Hq1) as (_ & _ & Htr).
  specialize (Htr (scraper_loaded_tracked output_file1)). destruct Htr as [Hseen Hdom].
  assert (Hload2 :
    (all_books s1' = [] /\ loaded output_file2 = [])
    \/ loaded output_file2 = to_dict_records (DataFrame_of (all_books s1'))).
  { rewrite Efile. unfold loaded, file_written.
    change (columns (DataFrame_of (all_books s1'))) with (columns_of (all_books s1')).
    destruct (decide (columns_of (all_books s1') = ∅)) as [Hempty | Hcols];
      [left | right; reflexivity].
    split; [| reflexivity]. apply columns_of_empty; assumption. }
  assert (Hstart : titles_of (loaded output_file2) = seen_titles s1'
                   /\ length (loaded output_file2) = length (all_books s1')).
  { destruct Hload2 as [[Enil ->] | ->].
    - rewrite Hseen, Enil. split; reflexivity.
    - rewrite to_dict_records_DataFrame_of, titles_laid_out, length_fmap.
      split; [symmetry; assumption | reflexivity]. }
  destruct Hstart as [Etitles Elen].
  assert (Hquiet : s2' = {| all_books := loaded output_file2;
                            seen_titles := titles_of (loaded output_file2) |}
                   /\ Forall not_admission t_q2).
  { destruct (Z.lt_ge_cases (buffer_len s1') min_books) as [Hbelow | Hdone].
    - eapply categories_rerun; [exact Hq1 | exact Hbelow | | exact Hq2].
      cbn [seen_titles]. rewrite Etitles. reflexivity.
    - inversion Hq2 as [ | | ? ? ? ? ? ? ? Hlt2 ]; subst;
        try (split; [reflexivity | constructor]).
      exfalso. unfold buffer_len in Hlt2, Hdone. cbn [all_books] in Hlt2. lia. }
  destruct Hquiet as [-> Hquiet]. cbn [all_books]. split.
  - destruct Hload2 as [[Enil ->] | ->].
    + rewrite Enil. reflexivity.
    + apply DataFrame_of_to_dict_records.
  - repeat (apply Forall_app; split); try assumption; try (repeat constructor).
    eapply Forall_impl; [exact Hlogs2 |]. intros e. apply is_log_not_admission.
Qed.

End Runs.

End ScraperIdem.

(** ** The drivers *)

Section Drivers.

Context {W : Type} `{World W}.

Local Abbreviation wp := (wp (W := W)).

Lemma api_fetched_events api_key query start result t :
  ApiRun.fetched_by (W := W) api_key query start result t ->
  Forall (fetch_event 60) t.
Proof.
  intros (w & w' & E).
  exact (wp_run _ _ _ _ _ _ (get_books_by_query_total query api_key 40 start 0 3 w) E).
Qed.

Lemma scraper_fetched_events query start page t :
  ScraperRun.fetched_by (W := W) query start page t -> Forall (fetch_event 1) t.
Proof.
  intros (w & w' & E).
  exact (wp_run _ _ _ _ _ _ (get_page_total (Scraper.search_url query start) 0 3 w) E).
Qed.

Lemma api_fetched_steady api_key query start result1 t1 result2 t2 :
  steady_remote (W := W) ->
  ApiRun.fetched_by (W := W) api_key query start result1 t1 ->
  ApiRun.fetched_by (W := W) api_key query start result2 t2 ->
  result1 = result2.
Proof.
  intros Hsteady (w1 & w1' & E1) (w2 & w2' & E2).
  pose proof (get_books_by_query_steady query api_key 40 start 0 3 w1 w2 Hsteady) as E.
  rewrite E1, E2 in E. cbn in E. congruence.
Qed.

Lemma scraper_fetched_steady query start page1 t1 page2 t2 :
  steady_remote (W := W) ->
  ScraperRun.fetched_by (W := W) query start page1 t1 ->
  ScraperRun.fetched_by (W := W) query start page2 t2 ->
  page1 = page2.
Proof.
  intros Hsteady (w1 & w1' & E1) (w2 & w2' & E2).
  pose proof (get_page_steady (Scraper.search_url query start) 0 3 w1 w2 Hsteady) as E.
  rewrite E1, E2 in E. cbn in E. congruence.
Qed.

(** [collect_books_from_api] returns the frame of the buffer that the
    loops leave, after a last log. *)
Lemma collect_books_from_api_sound api_key queries max_books_per_query output_file
    (w : W) :
  wp (Api.collect_books_from_api api_key queries max_books_per_query output_file) w
     (fun df _ t =>
        exists s' t0,
          df = DataFrame_of (Api.all_books s')
          /\ t = t0 ++ [EvLog INFO]
          /\ ApiRun.collect_run (ApiRun.fetched_by api_key) max_books_per_query
               output_file queries s' t0).
Proof.
  unfold Api.collect_books_from_api. apply wp_bind.
  eapply wp_mono; [apply ApiSound.collect_sound |]. intros s' w' t0 Hrun.
  apply wp_bind, wp_emit, wp_ret. exists s', t0. rewrite app_nil_r. auto.
Qed.

Lemma scrape_gutenberg_sound min_books output_file (w : W) :
  wp (Scraper.scrape_gutenberg min_books output_file) w
     (fun df _ t =>
        exists s' t0,
          df = DataFrame_of (Scraper.all_books s')
          /\ t = t0 ++ [EvLog INFO]
          /\ ScraperRun.scrape_run ScraperRun.fetched_by min_books output_file s' t0).
Proof.
  unfold Scraper.scrape_gutenberg. apply wp_bind.
  eapply wp_mono; [apply ScraperSound.scrape_sound |]. intros s' w' t0 Hrun.
  apply wp_bind, wp_emit, wp_ret. exists s', t0. rewrite app_nil_r. auto.
Qed.


(** C2 (amended). When the checkpoint that a run starts from holds each
    key once and no record without a key, the buffer and the seen set are
    synchronized after the seeding, after each admission and at the end of
    the loops: the keys of the buffer are the members of the seen set, no
    key is in the buffer twice, and the buffer is as long as the seen set
    is large. *)
Theorem buffer_synced_with_seen :
  (forall api_key queries max_books_per_query output_file (w : W),
     (forall df, output_file = Some (Csv df) -> "id" ∈ columns df ->
        keyed "id" (to_dict_records df)) ->
     exists s' w' t,
       Api.collect api_key queries max_books_per_query output_file w = (inr s', w', t)
       /\ snapshots_synced "id" t
       /\ synced "id" (Api.all_books s') (Api.seen_ids s'))
  /\ (forall min_books output_file (w : W),
        (forall df, output_file = Some (Csv df) -> columns df <> ∅ ->
           keyed "title" (to_dict_records df)) ->
        exists s' w' t,
          Scraper.scrape min_books output_file w = (inr s', w', t)
          /\ snapshots_synced "title" t
          /\ synced "title" (Scraper.all_books s') (Scraper.seen_titles s')).
Proof.
  split.
  - intros api_key queries max_books_per_query output_file w Hkeyed.
    destruct (ApiSound.collect_sound api_key queries max_books_per_query output_file w)
      as (s' & w' & t & E & Hrun).
    destruct (ApiInv.collect_synced _ _ _ (api_fetched_events api_key) _ _ _ Hrun
                (api_loaded_synced _ Hkeyed)) as [Hs Ht].
    exists s', w', t. auto.
  - intros min_books output_file w Hkeyed.
    destruct (ScraperSound.scrape_sound min_books output_file w)
      as (s' & w' & t & E & Hrun).
    destruct (ScraperInv.scrape_synced _ _ _ scraper_fetched_events _ _ Hrun
                (scraper_loaded_synced _ Hkeyed)) as [Hs Ht].
    exists s', w', t. auto.
Qed.

Lemma synced_frame_keys key buffer seen :
  synced key buffer seen -> NoDup (keys_of key (to_dict_records (DataFrame_of buffer))).
Proof.
  intros (_ & _ & Hnd & _). rewrite to_dict_records_DataFrame_of, keys_laid_out.
  exact Hnd.
Qed.


(** The page loop of the API driver fetches below the ceiling only. *)
Lemma api_pages_below api_key max_books_per_query output_file query
    start request_count s s' t :
  ApiRun.pages_run (ApiRun.fetched_by api_key) max_books_per_query output_file query
    start request_count s s' t ->
  Forall (fun fetch => fetch.1 < max_books_per_query) (page_fetches t).
Proof.
  induction 1 as [ | start rc s result t_fetch Hc Hf Hno
                   | start rc s result t_fetch item rest t_save s' t_rest
                       Hc Hf Hitems Hsave Hrest IH ].
  - constructor.
  - apply andb_true_iff in Hc as [Hc%Z.ltb_lt _].
    page_fetches_simpl.
    rewrite (api_fetched_no_page _ (api_fetched_events api_key) _ _ _ _ Hf).
    repeat constructor. exact Hc.
  - apply andb_true_iff in Hc as [Hc%Z.ltb_lt _].
    page_fetches_simpl.
    rewrite (api_fetched_no_page _ (api_fetched_events api_key) _ _ _ _ Hf).
    rewrite (page_fetches_none _ (api_items_not_page _ _)).
    rewrite (page_fetches_none _ (save_trace_not_page _ _ _ Hsave)).
    constructor; [exact Hc | exact IH].
Qed.

Lemma api_queries_below api_key max_books_per_query output_file queries s s' t :
  ApiRun.queries_run (ApiRun.fetched_by api_key) max_books_per_query output_file
    queries s s' t ->
  Forall (fun fetch => fetch.1 < max_books_per_query) (page_fetches t).
Proof.
  induction 1 as [ | query queries s s1 t_pages t_save s' t_rest Hp Hsave Hrest IH ].
  - constructor.
  - page_fetches_simpl.
    rewrite (page_fetches_none _ (save_trace_not_page _ _ _ Hsave)).
    apply Forall_app. split; [eapply api_pages_below; exact Hp | exact IH].
Qed.

(** C4 (amended). The scraper stops at its target: once an event of a
    run shows a buffer of [min_books] records or more, the run makes no
    request, fetches no page and admits no record.  The API driver has no
    target for the whole run; it has a ceiling for the cursor of each
    query, and every page that it fetches is at a cursor below it. *)
Theorem scraper_halts_at_target :
  (forall min_books output_file (w : W),
     exists df w' t,
       Scraper.scrape_gutenberg min_books output_file w = (inr df, w', t)
       /\ halts min_books t)
  /\ (forall api_key queries max_books_per_query output_file (w : W),
        exists df w' t,
          Api.collect_books_from_api api_key queries max_books_per_query output_file w
            = (inr df, w', t)
          /\ Forall (fun fetch => fetch.1 < max_books_per_query) (page_fetches t)).
Proof.
  split.
  - intros min_books output_file w.
    destruct (scrape_gutenberg_sound min_books output_file w)
      as (df & w' & t & E & s' & t0 & _ & -> & Hrun).
    exists df, w', (t0 ++ [EvLog INFO]). split; [exact E |].
    apply halts_app.
    + exact (ScraperTarget.scrape_halts _ _ _ scraper_fetched_events _ _ Hrun).
    + apply halts_no_snapshot. repeat constructor.
    + intros e _ _. repeat constructor.
  - intros api_key queries max_books_per_query output_file w.
    destruct (collect_books_from_api_sound api_key queries max_books_per_query
                output_file w) as (df & w' & t & E & s' & t0 & _ & -> & Hrun).
    exists df, w', (t0 ++ [EvLog INFO]). split; [exact E |].
    destruct Hrun as [t_load s1 t_queries Hlogs Hq].
    rewrite !page_fetches_app. rewrite page_fetches_none.
    2: { eapply Forall_impl; [exact Hlogs |]. intros e. apply is_log_not_page. }
    cbn [app page_fetches omap]. rewrite app_nil_r.
    eapply api_queries_below. exact Hq.
Qed.

(** The script of the API pipeline writes the frame that the driver
    returned. *)
Lemma api_main_final_write API_KEY at_start (w : W) :
  exists logs df w1 t res w2 t_end,
    Forall is_log logs
    /\ Api.collect_books_from_api API_KEY Api.main_queries 300 (Some at_start) w
         = (inr df, w1, t)
    /\ Api.main API_KEY at_start w = (res, w2, logs ++ t ++ EvToCsv df :: t_end).
Proof.
  destruct (collect_books_from_api_sound API_KEY Api.main_queries 300 (Some at_start) w)
    as (df & w1 & t & E & _).
  unfold Api.main.
  destruct (truthy (VStr API_KEY)).
  - exists [], df, w1, t. unfold bind at 1, ret at 1. unfold bind at 1. rewrite E.
    unfold bind at 1, df_to_csv.
    destruct (to_csv df w1) as [[|] w2]; repeat eexists; constructor.
  - exists [EvLog WARNING; EvLog WARNING], df, w1, t.
    unfold bind at 1. unfold bind at 1, log at 1 2, emit.
    unfold bind at 1. rewrite E.
    unfold bind at 1, df_to_csv.
    destruct (to_csv df w1) as [[|] w2]; repeat eexists; repeat constructor.
Qed.

Lemma scraper_main_final_write at_start (w : W) :
  exists df w1 t res w2 t_end,
    Scraper.scrape_gutenberg 10000 (Some at_start) w = (inr df, w1, t)
    /\ Scraper.main at_start w = (res, w2, t ++ EvToCsv df :: t_end).
Proof.
  destruct (scrape_gutenberg_sound 10000 (Some at_start) w)
    as (df & w1 & t & E & _).
  unfold Scraper.main. exists df, w1, t. unfold bind at 1. rewrite E.
  unfold bind at 1, df_to_csv.
  destruct (to_csv df w1) as [[|] w2]; repeat eexists.
Qed.

(** C5 (amended). With an output path, the API driver writes the whole
    buffer at the end of a page when the buffer holds a positive multiple
    of 100 records and at the end of a query when the buffer is not empty;
    the scraper writes it at the end of a page when it holds a positive
    multiple of 100 records, and makes no write at the end of a category.
    The drivers make no other write.  The last write of the frame that a
    driver returns is made by the script that called it. *)
Theorem writes_on_schedule :
  (forall api_key queries max_books_per_query output_file (w : W),
     exists df w' t,
       Api.collect_books_from_api api_key queries max_books_per_query output_file w
         = (inr df, w', t)
       /\ frames_written t
          = expected_frames api_page_end api_item_end output_file [] t)
  /\ (forall min_books output_file (w : W),
        exists df w' t,
          Scraper.scrape_gutenberg min_books output_file w = (inr df, w', t)
          /\ frames_written t
             = expected_frames scraper_page_end scraper_item_end output_file [] t)
  /\ (forall API_KEY at_start (w : W),
        exists logs df w1 t res w2 t_end,
          Forall is_log logs
          /\ Api.collect_books_from_api API_KEY Api.main_queries 300 (Some at_start) w
               = (inr df, w1, t)
          /\ Api.main API_KEY at_start w = (res, w2, logs ++ t ++ EvToCsv df :: t_end))
  /\ (forall at_start (w : W),
        exists df w1 t res w2 t_end,
          Scraper.scrape_gutenberg 10000 (Some at_start) w = (inr df, w1, t)
          /\ Scraper.main at_start w = (res, w2, t ++ EvToCsv df :: t_end)).
Proof.
  split; [| split; [| split]].
  - intros api_key queries max_books_per_query output_file w.
    destruct (collect_books_from_api_sound api_key queries max_books_per_query
                output_file w) as (df & w' & t & E & s' & t0 & _ & -> & Hrun).
    exists df, w', (t0 ++ [EvLog INFO]). split; [exact E |].
    eapply (on_schedule_app _ _ _ _ _ _ _ (Api.all_books s')).
    + exact (ApiFrames.collect_on_schedule _ _ _ (api_fetched_events api_key)
               _ _ _ Hrun).
    + apply on_schedule_plain. repeat constructor.
  - intros min_books output_file w.
    destruct (scrape_gutenberg_sound min_books output_file w)
      as (df & w' & t & E & s' & t0 & _ & -> & Hrun).
    exists df, w', (t0 ++ [EvLog INFO]). split; [exact E |].
    eapply (on_schedule_app _ _ _ _ _ _ _ (Scraper.all_books s')).
    + exact (ScraperFrames.scrape_on_schedule _ _ _ scraper_fetched_events _ _ Hrun).
    + apply on_schedule_plain. repeat constructor.
  - apply api_main_final_write.
  - apply scraper_main_final_write.
Qed.

(** The facts about one case of a load, once the case is computed. *)
Ltac no_warning Hin :=
  exfalso; cbn [app] in Hin; rewrite ?elem_of_cons, elem_of_nil in Hin;
  intuition discriminate.

Ltac load_facts :=
  split; [reflexivity |];
  split; [repeat constructor |];
  split; [split;
          [ intros Hin;
            first [ left; reflexivity
                  | right; eexists; split; [reflexivity | assumption]
                  | no_warning Hin ]
          | intros [Hun | (df' & Hun & Hno)];
            first [ discriminate
                  | injection Hun as <-; contradiction
                  | cbn [app]; repeat constructor ] ] |];
  split; [first [ discriminate
                | intros df' [= <-] Hcol;
                  first [ reflexivity | contradiction
                        | match goal with
                          | E : columns _ = ∅ |- _ => rewrite E in Hcol; set_solver
                          end ] ] |];
  try (intros _; reflexivity).


End Drivers.

(** ** Examples *)

Lemma reachedb_iff min_books e : reachedb min_books e = true <-> reached min_books e.
Proof.
  unfold reachedb, reached. split.
  - destruct (snapshot e) as [[b seen] |]; [| discriminate].
    intros Hle%Z.leb_le. eauto.
  - intros (b & seen & -> & Hle). apply Z.leb_le. exact Hle.
Qed.

Lemma quietb_iff t : forallb quietb t = true <-> Forall quiet_event t.
Proof.
  induction t as [| e t IH]; cbn [forallb]; [split; [constructor | reflexivity] |].
  rewrite andb_true_iff, IH, Forall_cons.
  assert (quietb e = true <-> quiet_event e) by (destruct e; cbn; intuition discriminate).
  tauto.
Qed.

Lemma haltsb_iff min_books t : haltsb min_books t = true <-> halts min_books t.
Proof.
  induction t as [| e t IH]; cbn [haltsb halts]; [tauto |].
  rewrite andb_true_iff, orb_true_iff, negb_true_iff, IH, quietb_iff.
  rewrite <- reachedb_iff.
  destruct (reachedb min_books e); intuition discriminate.
Qed.


(** C2, as stated, fails: from a checkpoint that holds an id twice the API
    driver seeds a buffer of 2 records and a seen set of 1 id. *)
Lemma duplicate_checkpoint_breaks_sync :
  length (rows (checkpoint "id" ["a"; "a"])) = 2%nat
  /\ ~ snapshots_synced "id"
         (Api.collect "" ["fiction"] 300 (Some (Csv (checkpoint "id" ["a"; "a"]))) []).2.
Proof.
  split; [reflexivity |]. intros Hs.
  apply Forall_lookup_1
    with (i := 2%nat)
         (x := EvSeeded (to_dict_records (checkpoint "id" ["a"; "a"]))
                 (column_values (checkpoint "id" ["a"; "a"]) "id")) in Hs;
    [| reflexivity].
  destruct (Hs _ _ eq_refl) as (_ & _ & _ & Hlen).
  vm_compute in Hlen. discriminate.
Qed.

(** Runs from checkpoints that hold each key once, with a page that brings
    a known key and a new one. *)
Lemma buffer_synced_with_seen_witness :
  (exists s' w' t,
     Api.collect "" ["fiction"] 300 (Some (Csv (checkpoint "id" ["a"; "b"])))
       [volumes_page ["b"; "c"]] = (inr s', w', t)
     /\ snapshots_synced "id" t
     /\ synced "id" (Api.all_books s') (Api.seen_ids s'))
  /\ (exists s' w' t,
        Scraper.scrape 3 (Some (Csv (checkpoint "title" ["Emma"])))
          [catalog_page ["Emma"; "Ulysses"]] = (inr s', w', t)
        /\ snapshots_synced "title" t
        /\ synced "title" (Scraper.all_books s') (Scraper.seen_titles s')).
Proof.
  split.
  - apply (proj1 buffer_synced_with_seen).
    intros df [= <-] _. unfold keyed. compute_done.
  - apply (proj2 buffer_synced_with_seen).
    intros df [= <-] _. unfold keyed. compute_done.
Defined.


(** C4, as stated, fails for the API driver: with a ceiling of 1 it holds
    1 record after its first query, and it fetches and admits for the second
    query all the same. *)
Lemma api_driver_has_no_overall_target :
  (Api.collect_books_from_api "" ["fiction"; "history"] 1 None
     [volumes_page ["a"]; volumes_page ["b"]]).1.1
  = inr (DataFrame_of (Api.parse_book_data <$> [volume "a"; volume "b"]))
  /\ ~ halts 1
         (Api.collect_books_from_api "" ["fiction"; "history"] 1 None
            [volumes_page ["a"]; volumes_page ["b"]]).2.
Proof.
  split.
  - reflexivity.
  - rewrite <- haltsb_iff. vm_compute. discriminate.
Qed.

(** C5, as stated, fails.  The scraper, with an output path, completes its
    categories with a book in the buffer and makes no write.  The API
    driver, whose pages take the buffer from 80 records to 120, makes no
    write when the buffer passes 100: its one write is that of the 120
    records at the end of the query. *)
Lemma no_write_at_category_end_nor_at_crossing :
  ((Scraper.scrape_gutenberg 10 (Some NoFile) [catalog_page ["Emma"]]).1.1
   = inr (DataFrame_of (omap Scraper.parse_book_from_listing [listed "Emma"]))
   /\ frames_written
        (Scraper.scrape_gutenberg 10 (Some NoFile) [catalog_page ["Emma"]]).2 = [])
  /\ ((Api.collect_books_from_api "" ["fiction"] 300 (Some NoFile)
         [volumes_page (numbered 0 40); volumes_page (numbered 40 40);
          volumes_page (numbered 80 40)]).1.1
      = inr (DataFrame_of (Api.parse_book_data <$> (volume <$> numbered 0 120)))
      /\ frames_written
           (Api.collect_books_from_api "" ["fiction"] 300 (Some NoFile)
              [volumes_page (numbered 0 40); volumes_page (numbered 40 40);
               volumes_page (numbered 80 40)]).2
         = [DataFrame_of (Api.parse_book_data <$> (volume <$> numbered 0 120))]).
Proof.
  split; split; reflexivity.
Qed.



(** The year of a release date. *)
Lemma extract_year_standalone_witness :
  exists s,
    VStr "Mar 3, 1999 [eBook #1342]" = VStr s
    /\ standalone_year (list_ascii_of_string s) 1999
    /\ 1900 <= 1999 <= 2099.
Proof.
  exact (proj1 (extract_year_standalone (VStr "Mar 3, 1999 [eBook #1342]")) 1999 eq_refl).
Defined.
